(** * CrownDataWriter: buffering, persistence and read-side queries

    A shallow embedding of the buffering / persistence glue of the
    Neurosity logging utility ([app.py], [setup_database.py],
    [data_viewer.py]) together with the properties of its specification.

    Conventions of the embedding:
    - a Python [str] is a [string]; a character is a code point below 256;
    - a payload is a JSON value; its numbers are Python [int]s and [float]s,
      a [float] being an IEEE 754 binary64; a Python [dict] is an
      association list in insertion order, with unique keys;
    - the SQLite connection is a pair of the durable database and the
      connection's own view of it (the durable content plus the inserts of
      the transaction that is still open);
    - wall-clock readings ([datetime.now().isoformat()]) and the failures of
      the storage engine are inputs of the operations that consume them. *)

From Stdlib Require Import ZArith List String Ascii Bool Lia Permutation Sorted.
From Stdlib Require Import Decimal DecimalPos.
From stdpp Require Import base gmap strings sorting.
Import ListNotations.

Local Open Scope string_scope.
Local Open Scope list_scope.
Local Open Scope Z_scope.

(** ** Python floats *)

(** A Python [float] is an IEEE 754 binary64.  Every finite float is a
    multiple of the least positive one, [2^-1074]: [FFin neg n] is the float
    [n * 2^-1074], negated when [neg] is set. *)
Inductive pyfloat : Type :=
| FNan
| FInf (neg : bool)
| FZero (neg : bool)
| FFin (neg : bool) (n : positive).

(** The number of bits of [q] below the 53 bits a significand holds. *)
Definition shift (q : Z) : Z := Z.max 0 (Z.log2 q - 52).

(** The values a binary64 takes: at most 53 significant bits, and below
    [2^1024]. *)
Definition binary64 (x : pyfloat) : Prop :=
  match x with
  | FFin _ n => Z.pos n < 2 ^ 2098 /\ Z.pos n mod 2 ^ shift (Z.pos n) = 0
  | _ => True
  end.

(** The integer nearest to [num / den]; of two, the even one. *)
Definition round_half_even (num den : Z) : Z :=
  let q := num / den in
  let r := num mod den in
  if 2 * r <? den then q
  else if den <? 2 * r then q + 1
  else if Z.even q then q else q + 1.

(** The float nearest to [num / den * 2^-1074], for positive [num] and
    [den]: rounding is to nearest, ties to even, and to infinity from
    [2^1024] on. *)
Definition round_units (neg : bool) (num den : Z) : pyfloat :=
  let s := shift (num / den) in
  let n := round_half_even num (den * 2 ^ s) * 2 ^ s in
  if n =? 0 then FZero neg
  else if 2 ^ 2098 <=? n then FInf neg
  else FFin neg (Z.to_pos n).

(** A decimal [c * 10^k] without the zeros at the end of [c]. *)
Fixpoint strip10 (fuel : nat) (c k : Z) : Z * Z :=
  match fuel with
  | O => (c, k)
  | S fuel' =>
      if (c mod 10 =? 0) && negb (c =? 0) then strip10 fuel' (c / 10) (k + 1)
      else (c, k)
  end.

Definition canonical (c k : Z) : Z * Z := strip10 (Z.to_nat (Z.log2 c)) c k.

(** [float(s)] for a decimal literal [s] that denotes [c * 10^k]: the
    nearest float. *)
Definition float_of_decimal (neg : bool) (c k : Z) : pyfloat :=
  if c =? 0 then FZero neg
  else round_units neg (c * 10 ^ Z.max k 0 * 2 ^ 1074) (10 ^ Z.max (- k) 0).

(** [n] as an odd number times a power of two. *)
Fixpoint split2 (n : positive) : positive * Z :=
  match n with
  | xO p => let (o, s) := split2 p in (o, s + 1)
  | _ => (n, 0)
  end.

(** The decimal expansion of [n * 2^-1074], which is finite. *)
Definition exact_decimal (n : positive) : Z * Z :=
  let (o, s) := split2 n in
  if 1074 <=? s then canonical (Z.pos o * 2 ^ (s - 1074)) 0
  else (Z.pos o * 5 ^ (1074 - s), s - 1074).

Definition ndigits (c : Z) : nat := nb_digits (Pos.to_uint (Z.to_pos c)).

(** The two decimals next to [C * 10^K] once the last [t] digits of [C]
    are dropped, the nearer first. *)
Definition candidates (C K t : Z) : list (Z * Z) :=
  let lo := C / 10 ^ t in
  let r := C mod 10 ^ t in
  if 2 * r <? 10 ^ t then [(lo, K + t); (lo + 1, K + t)]
  else if 10 ^ t <? 2 * r then [(lo + 1, K + t); (lo, K + t)]
  else if Z.even lo then [(lo, K + t); (lo + 1, K + t)]
  else [(lo + 1, K + t); (lo, K + t)].

Definition reads_back (n : positive) (ck : Z * Z) : bool :=
  match float_of_decimal false (fst ck) (snd ck) with
  | FFin _ n' => Pos.eqb n n'
  | _ => false
  end.

(** The search for the digits of [repr], from the fewest digits on: [t] is
    the number of digits dropped from the exact expansion. *)
Fixpoint shortest (n : positive) (C K : Z) (t : nat) : Z * Z :=
  match t with
  | O => (C, K)
  | S t' =>
      match List.filter (reads_back n)
              (map (fun ck => canonical (fst ck) (snd ck))
                 (candidates C K (Z.of_nat t))) with
      | ck :: _ => ck
      | [] => shortest n C K t'
      end
  end.

(** The digits of [repr(x)]: the shortest decimal that reads back as [x],
    and of those the one nearest to [x]. *)
Definition repr_decimal (n : positive) : Z * Z :=
  let (C, K) := exact_decimal n in
  shortest n C K (ndigits C - 1).

(** The 15 significant digits SQLite renders a REAL with. *)
Definition real_decimal (n : positive) : Z * Z :=
  let (C, K) := exact_decimal n in
  let t := (Z.of_nat (ndigits C) - 15)%Z in
  if 0 <? t then canonical ((C + 5 * 10 ^ (t - 1)) / 10 ^ t) (K + t)
  else (C, K).

(** ** JSON values and Python dictionaries *)

#[local] Set Warnings "-register-all".

Inductive json : Type :=
| JNull
| JBool (b : bool)
| JNum (n : Z)
| JFloat (x : pyfloat)
| JStr (s : string)
| JArr (items : list json)
| JObj (members : list (string * json)).

(** A Python [dict] with string keys, in insertion order. *)
Definition dict : Type := list (string * json).

(** [d.get(k)] *)
Fixpoint dict_get (k : string) (d : dict) : option json :=
  match d with
  | [] => None
  | (k', v) :: d' => if String.eqb k k' then Some v else dict_get k d'
  end.

(** [d[k] = v]: an existing key keeps its position, a new key goes last. *)
Fixpoint dict_set (k : string) (v : json) (d : dict) : dict :=
  match d with
  | [] => [(k, v)]
  | (k', v') :: d' =>
      if String.eqb k k' then (k', v) :: d' else (k', v') :: dict_set k v d'
  end.

(** [d.get(k, default)] *)
Definition dict_get_default (k : string) (default : json) (d : dict) : json :=
  match dict_get k d with
  | Some v => v
  | None => default
  end.

(** Python truthiness of a JSON-shaped value ([not x] is its negation). *)
Definition truthy (v : json) : bool :=
  match v with
  | JNull => false
  | JBool b => b
  | JNum n => negb (n =? 0)
  | JFloat x => match x with FZero _ => false | _ => true end
  | JStr s => negb (String.eqb s "")
  | JArr l => match l with [] => false | _ => true end
  | JObj m => match m with [] => false | _ => true end
  end.

Definition keys (d : dict) : list string := map fst d.

(** Keys are unique at every level, as in any Python value; a float is a
    binary64 and not a NaN, which is not equal to itself. *)
Fixpoint wf_json (v : json) : Prop :=
  match v with
  | JFloat x => binary64 x /\ x <> FNan
  | JArr l => (fix all (l : list json) : Prop :=
                 match l with [] => True | x :: l' => wf_json x /\ all l' end) l
  | JObj m => NoDup (map fst m) /\
              (fix all (m : list (string * json)) : Prop :=
                 match m with [] => True | kv :: m' => wf_json (snd kv) /\ all m' end) m
  | _ => True
  end.

Definition wf_dict (d : dict) : Prop := wf_json (JObj d).

(** Induction over JSON values that reaches inside arrays and objects. *)
Section json_induction.
Variable P : json -> Prop.
Hypothesis HNull : P JNull.
Hypothesis HBool : forall b, P (JBool b).
Hypothesis HNum : forall n, P (JNum n).
Hypothesis HFloat : forall x, P (JFloat x).
Hypothesis HStr : forall s, P (JStr s).
Hypothesis HArr : forall l, Forall P l -> P (JArr l).
Hypothesis HObj : forall m, Forall (fun kv => P (snd kv)) m -> P (JObj m).

Fixpoint json_nested_ind (v : json) : P v :=
  match v with
  | JNull => HNull
  | JBool b => HBool b
  | JNum n => HNum n
  | JFloat x => HFloat x
  | JStr s => HStr s
  | JArr l =>
      HArr l ((fix go (l : list json) : Forall P l :=
                 match l with
                 | [] => @List.Forall_nil _ _
                 | x :: l' => @List.Forall_cons _ _ x l' (json_nested_ind x) (go l')
                 end) l)
  | JObj m =>
      HObj m ((fix go (m : list (string * json)) : Forall (fun kv => P (snd kv)) m :=
                 match m with
                 | [] => @List.Forall_nil _ _
                 | kv :: m' => @List.Forall_cons _ _ kv m' (json_nested_ind (snd kv)) (go m')
                 end) m)
  end.
End json_induction.

(** ** [json.dumps] *)

Definition chars (s : string) : list ascii := list_ascii_of_string s.

(** The double quote, code point 34. *)
Definition dquote : ascii := ascii_of_N 34.

Definition hex_digit (n : N) : ascii :=
  ascii_of_N (if (n <? 10)%N then 48 + n else 87 + n)%N.

(** [ESCAPE_ASCII]: everything outside the printable ASCII range, the quote
    and the backslash are escaped. *)
Definition escape_char (c : ascii) : list ascii :=
  let n := N_of_ascii c in
  if (n =? 34)%N then ["\"%char; dquote]
  else if (n =? 92)%N then chars "\\"
  else if (n =? 8)%N then chars "\b"
  else if (n =? 9)%N then chars "\t"
  else if (n =? 10)%N then chars "\n"
  else if (n =? 12)%N then chars "\f"
  else if (n =? 13)%N then chars "\r"
  else if ((32 <=? n) && (n <=? 126))%N then [c]
  else chars "\u00" ++ [hex_digit (n / 16); hex_digit (n mod 16)].

Definition encode_string (s : string) : list ascii :=
  dquote :: flat_map escape_char (chars s) ++ [dquote].

Definition digit_char (k : N) : ascii := ascii_of_N (48 + k).

Fixpoint chars_of_uint (d : uint) : list ascii :=
  match d with
  | Nil => []
  | D0 d => digit_char 0 :: chars_of_uint d
  | D1 d => digit_char 1 :: chars_of_uint d
  | D2 d => digit_char 2 :: chars_of_uint d
  | D3 d => digit_char 3 :: chars_of_uint d
  | D4 d => digit_char 4 :: chars_of_uint d
  | D5 d => digit_char 5 :: chars_of_uint d
  | D6 d => digit_char 6 :: chars_of_uint d
  | D7 d => digit_char 7 :: chars_of_uint d
  | D8 d => digit_char 8 :: chars_of_uint d
  | D9 d => digit_char 9 :: chars_of_uint d
  end.

(** Decimal rendering of a Python [int]. *)
Definition encode_int (n : Z) : list ascii :=
  match n with
  | Z0 => chars "0"
  | Zpos p => chars_of_uint (Pos.to_uint p)
  | Zneg p => "-"%char :: chars_of_uint (Pos.to_uint p)
  end.

Fixpoint append_uint (a b : uint) : uint :=
  match a with
  | Nil => b
  | D0 a => D0 (append_uint a b)
  | D1 a => D1 (append_uint a b)
  | D2 a => D2 (append_uint a b)
  | D3 a => D3 (append_uint a b)
  | D4 a => D4 (append_uint a b)
  | D5 a => D5 (append_uint a b)
  | D6 a => D6 (append_uint a b)
  | D7 a => D7 (append_uint a b)
  | D8 a => D8 (append_uint a b)
  | D9 a => D9 (append_uint a b)
  end.

(** The first [j] digits, and the others. *)
Fixpoint split_uint (j : nat) (d : uint) : uint * uint :=
  match j with
  | O => (Nil, d)
  | S j' =>
      match d with
      | Nil => (Nil, Nil)
      | D0 d' => let (h, t) := split_uint j' d' in (D0 h, t)
      | D1 d' => let (h, t) := split_uint j' d' in (D1 h, t)
      | D2 d' => let (h, t) := split_uint j' d' in (D2 h, t)
      | D3 d' => let (h, t) := split_uint j' d' in (D3 h, t)
      | D4 d' => let (h, t) := split_uint j' d' in (D4 h, t)
      | D5 d' => let (h, t) := split_uint j' d' in (D5 h, t)
      | D6 d' => let (h, t) := split_uint j' d' in (D6 h, t)
      | D7 d' => let (h, t) := split_uint j' d' in (D7 h, t)
      | D8 d' => let (h, t) := split_uint j' d' in (D8 h, t)
      | D9 d' => let (h, t) := split_uint j' d' in (D9 h, t)
      end
  end.

Definition zeros (n : nat) : uint := Nat.iter n D0 Nil.

(** The exponent of a float in exponent form: a sign and two digits at
    least. *)
Definition encode_exponent (e : Z) : list ascii :=
  (if e <? 0 then "-"%char else "+"%char)
  :: chars_of_uint
       (let d := Pos.to_uint (Z.to_pos (Z.abs e)) in
        if Z.abs e <? 10 then D0 d else d).

(** The text of the decimal [c * 10^k], [c] without zeros at its end.
    With [decpt] the place of the point after the first digit of [c], the
    exponent form is used when [decpt <= -4] or [decpt > max_plain];
    [dot_zero] puts [.0] after a lone digit in exponent form. *)
Definition format_decimal (max_plain : Z) (dot_zero : bool) (c k : Z) : list ascii :=
  let ds := Pos.to_uint (Z.to_pos c) in
  let nd := Z.of_nat (nb_digits ds) in
  let decpt := nd + k in
  if (decpt <=? -4) || (max_plain <? decpt) then
    let (h, t) := split_uint 1 ds in
    chars_of_uint h
    ++ match t with
       | Nil => if dot_zero then chars ".0" else []
       | _ => "."%char :: chars_of_uint t
       end
    ++ "e"%char :: encode_exponent (decpt - 1)
  else if decpt <=? 0 then
    "0"%char :: "."%char :: chars_of_uint (append_uint (zeros (Z.to_nat (- decpt))) ds)
  else if decpt <? nd then
    let (h, t) := split_uint (Z.to_nat decpt) ds in
    chars_of_uint h ++ "."%char :: chars_of_uint t
  else chars_of_uint (append_uint ds (zeros (Z.to_nat (decpt - nd)))) ++ chars ".0".

Definition sign_chars (neg : bool) : list ascii := if neg then ["-"%char] else [].

(** [float.__repr__], and the three names the encoder has for the values
    that are not finite. *)
Definition encode_float (x : pyfloat) : list ascii :=
  match x with
  | FNan => chars "NaN"
  | FInf neg => sign_chars neg ++ chars "Infinity"
  | FZero neg => sign_chars neg ++ chars "0.0"
  | FFin neg n =>
      sign_chars neg ++ (let (c, k) := repr_decimal n in format_decimal 16 false c k)
  end.

(** Items joined by the default item separator [", "]. *)
Fixpoint join_items (parts : list (list ascii)) : list ascii :=
  match parts with
  | [] => []
  | p :: ps => p ++ match ps with [] => [] | _ => chars ", " ++ join_items ps end
  end.

Fixpoint encode_json (v : json) : list ascii :=
  match v with
  | JNull => chars "null"
  | JBool true => chars "true"
  | JBool false => chars "false"
  | JNum n => encode_int n
  | JFloat x => encode_float x
  | JStr s => encode_string s
  | JArr l => "["%char :: join_items (map encode_json l) ++ ["]"%char]
  | JObj m =>
      "{"%char ::
        join_items (map (fun kv => encode_string (fst kv) ++ chars ": " ++ encode_json (snd kv)) m)
        ++ ["}"%char]
  end.

Definition dumps (v : json) : string := string_of_list_ascii (encode_json v).

(** ** [json.loads]

    The decoder follows the scanner of the [json] module: literals, strings
    in strict mode, numbers without leading zeros (an [int], or a [float]
    when the literal has a fraction or an exponent), the names [NaN],
    [Infinity] and [-Infinity], arrays and objects, with white space allowed
    around the structural characters.  Code points from 256 on are outside
    the values of this embedding and are refused. *)

Definition is_ws (c : ascii) : bool :=
  let n := N_of_ascii c in
  ((n =? 32) || (n =? 9) || (n =? 10) || (n =? 13))%N.

Fixpoint skip_ws (l : list ascii) : list ascii :=
  match l with
  | c :: l' => if is_ws c then skip_ws l' else l
  | [] => []
  end.

Fixpoint strip_prefix (p l : list ascii) : option (list ascii) :=
  match p, l with
  | [], _ => Some l
  | a :: p', b :: l' => if Ascii.eqb a b then strip_prefix p' l' else None
  | _ :: _, [] => None
  end.

Definition hex_value (c : ascii) : option N :=
  let n := N_of_ascii c in
  if ((48 <=? n) && (n <=? 57))%N then Some (n - 48)%N
  else if ((97 <=? n) && (n <=? 102))%N then Some (n - 87)%N
  else if ((65 <=? n) && (n <=? 70))%N then Some (n - 55)%N
  else None.

(** [BACKSLASH]: the one-character escapes. *)
Definition unescape (e : ascii) : option ascii :=
  let n := N_of_ascii e in
  if (n =? 34)%N then Some dquote
  else if (n =? 92)%N then Some "\"%char
  else if (n =? 47)%N then Some "/"%char
  else if (n =? 98)%N then Some (ascii_of_N 8)
  else if (n =? 102)%N then Some (ascii_of_N 12)
  else if (n =? 110)%N then Some (ascii_of_N 10)
  else if (n =? 114)%N then Some (ascii_of_N 13)
  else if (n =? 116)%N then Some (ascii_of_N 9)
  else None.

Definition hex4 (a b c d : ascii) : option N :=
  match hex_value a, hex_value b, hex_value c, hex_value d with
  | Some x, Some y, Some z, Some w => Some (((x * 16 + y) * 16 + z) * 16 + w)%N
  | _, _, _, _ => None
  end.

Definition prepend (c : ascii) (r : option (string * list ascii)) :
  option (string * list ascii) :=
  match r with
  | Some (s, rest) => Some (String c s, rest)
  | None => None
  end.

(** [scanstring], entered after the opening quote. *)
Fixpoint parse_string (l : list ascii) : option (string * list ascii) :=
  match l with
  | [] => None
  | c :: l' =>
      let n := N_of_ascii c in
      if (n =? 34)%N then Some (EmptyString, l')
      else if (n =? 92)%N then
        match l' with
        | [] => None
        | e :: l'' =>
            match unescape e with
            | Some c' => prepend c' (parse_string l'')
            | None =>
                if (N_of_ascii e =? 117)%N then
                  match l'' with
                  | h1 :: h2 :: h3 :: h4 :: l3 =>
                      match hex4 h1 h2 h3 h4 with
                      | Some code =>
                          if (code <? 256)%N
                          then prepend (ascii_of_N code) (parse_string l3)
                          else None
                      | None => None
                      end
                  | _ => None
                  end
                else None
            end
        end
      else if (n <? 32)%N then None
      else prepend c (parse_string l')
  end.

Definition digit_of_char (c : ascii) : option (uint -> uint) :=
  let n := N_of_ascii c in
  if (n =? 48)%N then Some D0 else if (n =? 49)%N then Some D1
  else if (n =? 50)%N then Some D2 else if (n =? 51)%N then Some D3
  else if (n =? 52)%N then Some D4 else if (n =? 53)%N then Some D5
  else if (n =? 54)%N then Some D6 else if (n =? 55)%N then Some D7
  else if (n =? 56)%N then Some D8 else if (n =? 57)%N then Some D9
  else None.

(** The longest run of decimal digits at the head of the input. *)
Fixpoint parse_digits (l : list ascii) : uint * list ascii :=
  match l with
  | [] => (Nil, [])
  | c :: l' =>
      match digit_of_char c with
      | Some D => let (d, rest) := parse_digits l' in (D d, rest)
      | None => (Nil, l)
      end
  end.

(** The digits [d] read on after the number [acc]. *)
Fixpoint append_digits (d : uint) (acc : Z) : Z :=
  match d with
  | Nil => acc
  | D0 d => append_digits d (10 * acc)
  | D1 d => append_digits d (10 * acc + 1)
  | D2 d => append_digits d (10 * acc + 2)
  | D3 d => append_digits d (10 * acc + 3)
  | D4 d => append_digits d (10 * acc + 4)
  | D5 d => append_digits d (10 * acc + 5)
  | D6 d => append_digits d (10 * acc + 6)
  | D7 d => append_digits d (10 * acc + 7)
  | D8 d => append_digits d (10 * acc + 8)
  | D9 d => append_digits d (10 * acc + 9)
  end.

(** The fraction of a number, if any: a point and one digit at least. *)
Definition parse_frac (l : list ascii) : uint * list ascii :=
  match l with
  | c :: l' =>
      if (N_of_ascii c =? 46)%N then
        match parse_digits l' with
        | (Nil, _) => (Nil, l)
        | (f, rest) => (f, rest)
        end
      else (Nil, l)
  | [] => (Nil, l)
  end.

(** The exponent of a number, if any: [e] or [E], a sign or none, and one
    digit at least. *)
Definition parse_exp (l : list ascii) : option Z * list ascii :=
  match l with
  | c :: l' =>
      if ((N_of_ascii c =? 101) || (N_of_ascii c =? 69))%N then
        let (neg, l1) :=
          match l' with
          | s :: l'' =>
              if (N_of_ascii s =? 45)%N then (true, l'')
              else if (N_of_ascii s =? 43)%N then (false, l'')
              else (false, l')
          | [] => (false, l')
          end in
        match parse_digits l1 with
        | (Nil, _) => (None, l)
        | (e, rest) => (Some (if neg then - Z.of_uint e else Z.of_uint e), rest)
        end
      else (None, l)
  | [] => (None, l)
  end.

(** [float(integer + frac + exp)] *)
Definition float_of_literal (neg : bool) (d f : uint) (e : Z) : pyfloat :=
  let (c, k) := canonical (append_digits f (Z.of_uint d)) (e - Z.of_nat (nb_digits f)) in
  float_of_decimal neg c k.

(** [NUMBER_RE]: a literal with a fraction or an exponent is a [float],
    another one an [int]. *)
Definition parse_number (l : list ascii) : option (json * list ascii) :=
  let (neg, l1) :=
    match l with
    | c :: l' => if (N_of_ascii c =? 45)%N then (true, l') else (false, l)
    | [] => (false, l)
    end in
  let (d, rest) := parse_digits l1 in
  match d with
  | Nil => None
  | D0 (D0 _ | D1 _ | D2 _ | D3 _ | D4 _ | D5 _ | D6 _ | D7 _ | D8 _ | D9 _) => None
  | _ =>
      let (f, rest1) := parse_frac rest in
      let (e, rest2) := parse_exp rest1 in
      match f, e with
      | Nil, None => Some (JNum (if neg then - Z.of_uint d else Z.of_uint d), rest)
      | _, _ => Some (JFloat (float_of_literal neg d f (default 0 e)), rest2)
      end
  end.

Definition with_string (r : option (string * list ascii)) :
  option (json * list ascii) :=
  match r with
  | Some (s, rest) => Some (JStr s, rest)
  | None => None
  end.

Definition literal (p : string) (v : json) (l : list ascii) :
  option (json * list ascii) :=
  match strip_prefix (chars p) l with
  | Some rest => Some (v, rest)
  | None => None
  end.

(** The later of two equal keys wins, at the place of the first. *)
Definition dict_of_pairs (pairs : list (string * json)) : dict :=
  fold_left (fun d kv => dict_set (fst kv) (snd kv) d) pairs [].

Fixpoint parse_value (fuel : nat) (l : list ascii) {struct fuel} :
  option (json * list ascii) :=
  match fuel with
  | O => None
  | S f =>
      match l with
      | [] => None
      | c :: r =>
          let n := N_of_ascii c in
          if (n =? 34)%N then with_string (parse_string r)
          else if (n =? 91)%N then
            match skip_ws r with
            | c2 :: r2 =>
                if (N_of_ascii c2 =? 93)%N then Some (JArr [], r2)
                else match parse_elements f (c2 :: r2) with
                     | Some (vs, rest) => Some (JArr vs, rest)
                     | None => None
                     end
            | [] => None
            end
          else if (n =? 123)%N then
            match skip_ws r with
            | c2 :: r2 =>
                if (N_of_ascii c2 =? 125)%N then Some (JObj [], r2)
                else match parse_members f (c2 :: r2) with
                     | Some (pairs, rest) => Some (JObj (dict_of_pairs pairs), rest)
                     | None => None
                     end
            | [] => None
            end
          else if (n =? 110)%N then literal "ull" JNull r
          else if (n =? 116)%N then literal "rue" (JBool true) r
          else if (n =? 102)%N then literal "alse" (JBool false) r
          else if (n =? 78)%N then literal "aN" (JFloat FNan) r
          else if (n =? 73)%N then literal "nfinity" (JFloat (FInf false)) r
          else if (n =? 45)%N then
            match literal "Infinity" (JFloat (FInf true)) r with
            | Some res => Some res
            | None => parse_number l
            end
          else parse_number l
      end
  end
with parse_elements (fuel : nat) (l : list ascii) {struct fuel} :
  option (list json * list ascii) :=
  match fuel with
  | O => None
  | S f =>
      match parse_value f l with
      | Some (v, r) =>
          match skip_ws r with
          | c :: r' =>
              if (N_of_ascii c =? 44)%N then
                match parse_elements f (skip_ws r') with
                | Some (vs, rest) => Some (v :: vs, rest)
                | None => None
                end
              else if (N_of_ascii c =? 93)%N then Some ([v], r')
              else None
          | [] => None
          end
      | None => None
      end
  end
with parse_members (fuel : nat) (l : list ascii) {struct fuel} :
  option (list (string * json) * list ascii) :=
  match fuel with
  | O => None
  | S f =>
      match l with
      | c :: r =>
          if (N_of_ascii c =? 34)%N then
            match parse_string r with
            | Some (k, r1) =>
                match skip_ws r1 with
                | c1 :: r2 =>
                    if (N_of_ascii c1 =? 58)%N then
                      match parse_value f (skip_ws r2) with
                      | Some (v, r3) =>
                          match skip_ws r3 with
                          | c3 :: r4 =>
                              if (N_of_ascii c3 =? 44)%N then
                                match parse_members f (skip_ws r4) with
                                | Some (ps, rest) => Some ((k, v) :: ps, rest)
                                | None => None
                                end
                              else if (N_of_ascii c3 =? 125)%N then Some ([(k, v)], r4)
                              else None
                          | [] => None
                          end
                      | None => None
                      end
                    else None
                | [] => None
                end
            | None => None
            end
          else None
      | [] => None
      end
  end.

(** [json.loads]: one value, white space around it, nothing after it.
    [None] stands for the [JSONDecodeError] the call raises. *)
Definition loads (s : string) : option json :=
  let l := chars s in
  match parse_value (S (List.length l)) (skip_ws l) with
  | Some (v, rest) =>
      match skip_ws rest with
      | [] => Some v
      | _ :: _ => None
      end
  | None => None
  end.

(** Shapes and measures of encoded values, for the analysis of the decoder. *)

(** A float with another sign. *)
Definition set_sign (neg : bool) (x : pyfloat) : pyfloat :=
  match x with
  | FNan => FNan
  | FInf _ => FInf neg
  | FZero _ => FZero neg
  | FFin _ n => FFin neg n
  end.

(** The input does not go on with a digit. *)
Definition stops (rest : list ascii) : Prop := parse_digits rest = (Nil, rest).

Definition delimited (l : list ascii) : bool :=
  match l with
  | [] => true
  | c :: _ => let n := N_of_ascii c in ((n =? 44) || (n =? 93) || (n =? 125))%N
  end.

Definition lead_nonzero (d : uint) : Prop :=
  match d with
  | Nil | D0 _ => False
  | _ => True
  end.

(** An integer part the scanner takes: one zero, or digits that do not
    start with a zero. *)
Definition int_part (d : uint) : Prop := d = D0 Nil \/ lead_nonzero d.

Fixpoint weight (v : json) : nat :=
  match v with
  | JArr l => S (fold_right (fun x a => S (weight x + a)) 0 l)
  | JObj m => S (fold_right (fun kv a => S (weight (snd kv) + a)) 0 m)
  | _ => 1
  end%nat.

Definition value_start (c : ascii) : bool :=
  let n := N_of_ascii c in
  ((n =? 34) || (n =? 91) || (n =? 123) || (n =? 110) || (n =? 116) || (n =? 102)
   || (n =? 78) || (n =? 73) || (n =? 45) || ((48 <=? n) && (n <=? 57)))%N.

Definition number_start (c : ascii) : bool :=
  let n := N_of_ascii c in ((n =? 45) || ((48 <=? n) && (n <=? 57)))%N.

Definition decodes (v : json) : Prop :=
  forall fuel rest, (weight v <= fuel)%nat -> delimited rest = true ->
    parse_value fuel (encode_json v ++ rest) = Some (v, rest).

Definition elems_weight (l : list json) : nat :=
  fold_right (fun x a => S (weight x + a)) 0%nat l.

Definition members_weight (m : list (string * json)) : nat :=
  fold_right (fun kv a => S (weight (snd kv) + a)) 0%nat m.

Definition encode_member (kv : string * json) : list ascii :=
  encode_string (fst kv) ++ chars ": " ++ encode_json (snd kv).

(** ** The SQLite store *)

(** The exceptions the modelled calls raise. *)
Inductive exn : Type :=
| JSONDecodeError
| AttributeError
| TypeError
| OperationalError
| InterfaceError
| OverflowError.

Inductive result (A : Type) : Type :=
| Ok (a : A)
| Raise (e : exn).
Arguments Ok {A} a.
Arguments Raise {A} e.

(** A row of [brainwaves_raw].  The [timestamp] column has TEXT affinity:
    it holds NULL ([None]) or a text. *)
Record row : Type := {
  row_id : Z;
  row_timestamp : option string;
  row_data : string;
  row_user_name : string
}.

(** The entries of [sqlite_master]. *)
Inductive schema_object : Type :=
| Table (name : string) (columns : list (string * string))
| Index (name : string) (table : string) (column : string).

(** A database file: its schema, the rows of [brainwaves_raw] in insertion
    order and the AUTOINCREMENT counter kept for it in [sqlite_sequence].
    No statement of the program writes or reads a row of
    [aggregated_data]. *)
Record database : Type := {
  master : list schema_object;
  rows : list row;
  sqlite_sequence : Z
}.

Definition empty_database : database :=
  {| master := []; rows := []; sqlite_sequence := 0 |}.

Definition is_table (name : string) (o : schema_object) : bool :=
  match o with
  | Table n _ => String.eqb n name
  | Index _ _ _ => false
  end.

Definition is_index (name : string) (o : schema_object) : bool :=
  match o with
  | Table _ _ => false
  | Index n _ _ => String.eqb n name
  end.

Definition has_table (name : string) (d : database) : bool :=
  existsb (is_table name) (master d).

Definition has_index (name : string) (d : database) : bool :=
  existsb (is_index name) (master d).

(** [CREATE TABLE IF NOT EXISTS name (columns)] *)
Definition create_table_if_not_exists (name : string)
  (columns : list (string * string)) (d : database) : database :=
  if has_table name d then d
  else {| master := master d ++ [Table name columns];
          rows := rows d; sqlite_sequence := sqlite_sequence d |}.

(** [CREATE INDEX IF NOT EXISTS name ON table (column)] *)
Definition create_index_if_not_exists (name table column : string)
  (d : database) : result database :=
  if has_index name d then Ok d
  else if has_table table d then
    Ok {| master := master d ++ [Index name table column];
          rows := rows d; sqlite_sequence := sqlite_sequence d |}
  else Raise OperationalError.

Definition brainwaves_raw_columns : list (string * string) :=
  [("id", "INTEGER PRIMARY KEY AUTOINCREMENT"); ("timestamp", "TEXT");
   ("data", "TEXT"); ("user_name", "TEXT")].

Definition aggregated_data_columns : list (string * string) :=
  [("id", "INTEGER PRIMARY KEY AUTOINCREMENT"); ("start_timestamp", "TEXT");
   ("end_timestamp", "TEXT"); ("avg_values", "TEXT");
   ("record_count", "INTEGER"); ("info", "TEXT")].

(** A connection: the durable content of the file and the content as this
    connection sees it, which also holds the inserts of its open
    transaction.  The two agree when no transaction is open. *)
Record connection : Type := {
  durable : database;
  view : database
}.

(** [sqlite3.connect(db_path)]: the file is created when it is missing. *)
Definition connect (db_path : string) (fs : gmap string database) : connection :=
  let d := default empty_database (fs !! db_path) in
  {| durable := d; view := d |}.

(** The file system once the durable content of a connection is on disk. *)
Definition on_disk (db_path : string) (c : connection)
  (fs : gmap string database) : gmap string database :=
  <[db_path := durable c]> fs.

(** [setup_database.py]: [setup_database()].  The schema statements run in
    autocommit mode; the result is the file system after the connection is
    closed. *)
Definition setup_database (db_path : string) (fs : gmap string database) :
  result (gmap string database) :=
  let d := durable (connect db_path fs) in
  let d1 := create_table_if_not_exists "brainwaves_raw" brainwaves_raw_columns d in
  match create_index_if_not_exists "idx_timestamp" "brainwaves_raw" "timestamp" d1 with
  | Raise e => Raise e
  | Ok d2 =>
      let d3 := create_table_if_not_exists "aggregated_data" aggregated_data_columns d2 in
      Ok (<[db_path := d3]> fs)
  end.

(** [app.py]: [NeurosityApp.init_database].  [Raise] is the branch that
    prints the failure and exits the process. *)
Definition init_database (db_path : string) (fs : gmap string database) :
  result connection :=
  let d := durable (connect db_path fs) in
  let d1 := create_table_if_not_exists "brainwaves_raw" brainwaves_raw_columns d in
  match create_index_if_not_exists "idx_timestamp" "brainwaves_raw" "timestamp" d1 with
  | Raise e => Raise e
  | Ok d2 => Ok {| durable := d2; view := d2 |}
  end.

(** The names in [sqlite_master]. *)
Definition object_name (o : schema_object) : string :=
  match o with
  | Table n _ => n
  | Index n _ _ => n
  end.

Definition table_names (d : database) : list string :=
  map object_name (List.filter (fun o => match o with Table _ _ => true | _ => false end) (master d)).

Definition index_names (d : database) : list string :=
  map object_name (List.filter (fun o => match o with Index _ _ _ => true | _ => false end) (master d)).

(** No two tables and no two indexes of the schema share a name. *)
Definition unique_names (d : database) : Prop :=
  NoDup (table_names d) /\ NoDup (index_names d).

(** *** Writing *)

(** What can go wrong in the storage engine during one flush: nothing, the
    cursor cannot be obtained, the [k]-th [execute] of the loop fails, or the
    commit fails. *)
Inductive fault : Type :=
| NoFault
| FailCursor
| FailExecute (k : nat)
| FailCommit.

(** Statements of a connection: they change the connection and return or
    raise.  What a statement changed before a later one raises stays
    changed. *)
Definition sql (A : Type) : Type := connection -> connection * result A.

Definition sql_raise {A} (e : exn) : sql A := fun c => (c, Raise e).

#[export] Instance sql_ret : MRet sql := fun A a c => (c, Ok a).

#[export] Instance sql_bind : MBind sql := fun A B k m c =>
  match m c with
  | (c', Ok a) => k a c'
  | (c', Raise e) => (c', Raise e)
  end.

(** The text a REAL becomes in a TEXT column: its rendering with 15
    significant digits, rounded to nearest; a NaN is stored as NULL. *)
Definition real_text (x : pyfloat) : option string :=
  match x with
  | FNan => None
  | FInf neg => Some (string_of_list_ascii (sign_chars neg ++ chars "Inf"))
  | FZero _ => Some "0.0"
  | FFin neg n =>
      Some (string_of_list_ascii
              (sign_chars neg
               ++ (let (c, k) := real_decimal n in format_decimal 15 true c k)))
  end.

(** Binding a Python value to a parameter that is stored in a TEXT column:
    [None] is NULL, a [str] is stored as it is, an [int] that fits 64 bits
    (a [bool] is one) is stored as its decimal text, a [float] as the text
    of the REAL; other values cannot be bound. *)
Definition bind_text (v : json) : result (option string) :=
  match v with
  | JNull => Ok None
  | JStr s => Ok (Some s)
  | JNum n =>
      if ((- 2 ^ 63 <=? n) && (n <? 2 ^ 63))%Z
      then Ok (Some (string_of_list_ascii (encode_int n)))
      else Raise OverflowError
  | JFloat x => Ok (real_text x)
  | JBool b => Ok (Some (if b then "1" else "0"))
  | JArr _ | JObj _ => Raise InterfaceError
  end.

Definition max_row_id (l : list row) : Z :=
  fold_right (fun r m => Z.max (row_id r) m) 0 l.

(** The rowid AUTOINCREMENT gives to the next row. *)
Definition next_id (d : database) : Z :=
  Z.max (sqlite_sequence d) (max_row_id (rows d)) + 1.

Definition insert_row (timestamp : option string) (data user_name : string)
  (d : database) : database :=
  let i := next_id d in
  {| master := master d;
     rows := rows d ++ [{| row_id := i; row_timestamp := timestamp;
                           row_data := data; row_user_name := user_name |}];
     sqlite_sequence := i |}.

(** [conn.cursor()] *)
Definition cursor (f : fault) : sql unit :=
  match f with
  | FailCursor => sql_raise OperationalError
  | _ => mret tt
  end.

Definition fails_execute (f : fault) (k : nat) : bool :=
  match f with
  | FailExecute j => Nat.eqb j k
  | _ => false
  end.

(** The [k]-th [cursor.execute("INSERT INTO brainwaves_raw (timestamp, data,
    user_name) VALUES (?, ?, ?)", ...)] of a flush: the statement is
    prepared (the table has to exist), the parameters are bound, and the
    statement runs.  The insert joins the open transaction of the
    connection. *)
Definition execute_insert (f : fault) (k : nat) (timestamp : json)
  (data user_name : string) : sql unit :=
  fun c =>
    if has_table "brainwaves_raw" (view c) then
      match bind_text timestamp with
      | Raise e => (c, Raise e)
      | Ok ts =>
          if fails_execute f k then (c, Raise OperationalError)
          else ({| durable := durable c;
                   view := insert_row ts data user_name (view c) |}, Ok tt)
      end
    else (c, Raise OperationalError).

(** [conn.commit()] *)
Definition commit (f : fault) : sql unit :=
  fun c =>
    match f with
    | FailCommit => (c, Raise OperationalError)
    | _ => ({| durable := view c; view := view c |}, Ok tt)
    end.

(** [conn.close()]: an open transaction is rolled back. *)
Definition close (c : connection) : database := durable c.

(** ** The buffered writer ([app.py]) *)

(** The lines the application prints. *)
Inductive event : Type :=
| Received (channels : nat) (timestamp : json)
| Flushed (n : nat)
| ErrorWriting (e : exn)
| TimerTriggered (n : nat).

Record NeurosityApp : Type := {
  user_name : string;
  buffer : list dict;
  buffer_size : Z;
  conn : connection;
  stdout : list event
}.

Definition print (e : event) (st : NeurosityApp) : NeurosityApp :=
  {| user_name := user_name st; buffer := buffer st;
     buffer_size := buffer_size st; conn := conn st;
     stdout := stdout st ++ [e] |}.

(** The body of the loop of [flush_buffer], from the [k]-th item on.
    [clock k] is the reading of [datetime.now().isoformat()] taken for the
    [k]-th item. *)
Fixpoint insert_items (f : fault) (clock : nat -> string) (user : string)
  (k : nat) (items : list dict) : sql unit :=
  match items with
  | [] => mret tt
  | item :: items' =>
      let timestamp := dict_get_default "timestamp" (JStr (clock k)) item in
      execute_insert f k timestamp (dumps (JObj item)) user ;;
      insert_items f clock user (S k) items'
  end.

(** The timestamp column of the row stored for an item whose timestamp can
    be bound. *)
Definition item_timestamp (now : string) (item : dict) : option string :=
  match bind_text (dict_get_default "timestamp" (JStr now) item) with
  | Ok ts => ts
  | Raise _ => None
  end.

(** The rows of a batch, inserted one after the other. *)
Fixpoint insert_all (clock : nat -> string) (user : string) (k : nat)
  (items : list dict) (d : database) : database :=
  match items with
  | [] => d
  | item :: items' =>
      insert_all clock user (S k) items'
        (insert_row (item_timestamp (clock k) item) (dumps (JObj item)) user d)
  end.

(** The timestamp of an item is one the TEXT column takes. *)
Definition storable (item : dict) : bool :=
  match dict_get "timestamp" item with
  | None => true
  | Some v =>
      match bind_text v with
      | Ok _ => true
      | Raise _ => false
      end
  end.

(** The fault does not hit the [n] inserts that start with the [k]-th. *)
Definition spares (f : fault) (k n : nat) : Prop :=
  match f with
  | FailExecute j => (j < k \/ k + n <= j)%nat
  | _ => True
  end.

(** A row without its rowid. *)
Definition contents (r : row) : option string * string * string :=
  (row_timestamp r, row_data r, row_user_name r).

(** [NeurosityApp.flush_buffer] *)
Definition flush_buffer (f : fault) (clock : nat -> string) (st : NeurosityApp) : NeurosityApp :=
  match buffer st with
  | [] => st
  | _ :: _ =>
      match (cursor f ;;
             insert_items f clock (user_name st) 0 (buffer st) ;;
             commit f) (conn st) with
      | (c, Ok _) =>
          {| user_name := user_name st; buffer := [];
             buffer_size := buffer_size st; conn := c;
             stdout := stdout st ++ [Flushed (List.length (buffer st))] |}
      | (c, Raise e) =>
          {| user_name := user_name st; buffer := buffer st;
             buffer_size := buffer_size st; conn := c;
             stdout := stdout st ++ [ErrorWriting e] |}
      end
  end.

(** [NeurosityApp.buffer_data] *)
Definition buffer_data (f : fault) (clock : nat -> string) (data : dict)
  (st : NeurosityApp) : NeurosityApp :=
  let st1 := {| user_name := user_name st; buffer := buffer st ++ [data];
                buffer_size := buffer_size st; conn := conn st;
                stdout := stdout st |} in
  if (buffer_size st1 <=? Z.of_nat (List.length (buffer st1)))%Z
  then flush_buffer f clock st1
  else st1.

(** [len(x)] *)
Definition py_len (v : json) : result nat :=
  match v with
  | JArr l => Ok (List.length l)
  | JObj m => Ok (List.length m)
  | JStr s => Ok (String.length s)
  | JNull | JBool _ | JNum _ | JFloat _ => Raise TypeError
  end.

(** The first statement of [brainwave_callback]:
    [if not data.get('timestamp'): data['timestamp'] = now]. *)
Definition stamp (now : string) (data : dict) : dict :=
  if truthy (dict_get_default "timestamp" JNull data) then data
  else dict_set "timestamp" (JStr now) data.

(** [NeurosityApp.brainwave_callback].  [now] is the wall-clock reading
    at the delivery of the sample; [f] and [clock] are consumed by the flush
    the sample may trigger. *)
Definition brainwave_callback (now : string) (f : fault)
  (clock : nat -> string) (data : dict) (st : NeurosityApp) : result NeurosityApp :=
  let data1 := stamp now data in
  match py_len (dict_get_default "data" (JArr []) data1) with
  | Raise e => Raise e
  | Ok channels =>
      Ok (buffer_data f clock data1
            (print (Received channels (dict_get_default "timestamp" JNull data1)) st))
  end.

(** One round of the loop of [flush_timer], after the sleep. *)
Definition flush_timer (f : fault) (clock : nat -> string) (st : NeurosityApp) : NeurosityApp :=
  match buffer st with
  | [] => st
  | _ :: _ =>
      flush_buffer f clock (print (TimerTriggered (List.length (buffer st))) st)
  end.

(** [NeurosityApp.stop]: the last flush, then the connection is closed.
    The result is the content of the file. *)
Definition stop (f : fault) (clock : nat -> string) (st : NeurosityApp) : database :=
  close (conn (flush_buffer f clock st)).

(** [NeurosityApp.__init__], after the login. *)
Definition new_app (user : string) (size : Z) (db_path : string)
  (fs : gmap string database) : result NeurosityApp :=
  match init_database db_path fs with
  | Raise e => Raise e
  | Ok c => Ok {| user_name := user; buffer := []; buffer_size := size;
                  conn := c; stdout := [] |}
  end.

(** What happens to a running application: the SDK delivers a sample, or
    the timer thread wakes up. *)
Inductive op : Type :=
| Sample (now : string) (f : fault) (clock : nat -> string) (data : dict)
| Timer (f : fault) (clock : nat -> string).

(** A callback that raises leaves the application as it was. *)
Definition step (st : NeurosityApp) (o : op) : NeurosityApp :=
  match o with
  | Sample now f clock data =>
      match brainwave_callback now f clock data st with
      | Ok st' => st'
      | Raise _ => st
      end
  | Timer f clock => flush_timer f clock st
  end.

(** The callback does not raise on the sample. *)
Definition ingestable (now : string) (data : dict) : bool :=
  match py_len (dict_get_default "data" (JArr []) (stamp now data)) with
  | Ok _ => true
  | Raise _ => false
  end.

(** Nothing disturbs the storage engine during the operation, and the
    sample it delivers has a timestamp the store takes. *)
Definition calm (o : op) : Prop :=
  match o with
  | Sample now f _ data => f = NoFault /\ storable (stamp now data) = true
  | Timer f _ => f = NoFault
  end.

Definition is_sample (o : op) : Prop :=
  match o with
  | Sample now _ _ data => ingestable now data = true
  | Timer _ _ => False
  end.

(** The table is there and every buffered item can be stored. *)
Definition ready (st : NeurosityApp) : Prop :=
  has_table "brainwaves_raw" (view (conn st)) = true
  /\ forallb storable (buffer st) = true.

Definition run (ops : list op) (st : NeurosityApp) : NeurosityApp := fold_left step ops st.

Definition is_flushed (e : event) : bool :=
  match e with
  | Flushed _ => true
  | _ => false
  end.

(** The number of flushes that completed, as the output tells. *)
Definition flushes (st : NeurosityApp) : nat :=
  List.length (List.filter is_flushed (stdout st)).

(** ** The reader ([data_viewer.py]) *)

(** NULL sorts before every text; texts are compared byte by byte. *)
Definition timestamp_compare (a b : option string) : comparison :=
  match a, b with
  | None, None => Eq
  | None, Some _ => Lt
  | Some _, None => Gt
  | Some x, Some y => String.compare x y
  end.

Definition timestamp_leb (a b : option string) : bool :=
  match timestamp_compare a b with
  | Gt => false
  | _ => true
  end.

(** The order of the entries of [idx_timestamp]: by timestamp, then by
    rowid.  SQL leaves the order of rows with equal timestamps open; the
    embedding takes the one of the index. *)
Definition index_leb (a b : row) : bool :=
  match timestamp_compare (row_timestamp a) (row_timestamp b) with
  | Lt => true
  | Gt => false
  | Eq => (row_id a <=? row_id b)%Z
  end.

Fixpoint insert_sorted {A} (leb : A -> A -> bool) (x : A) (l : list A) : list A :=
  match l with
  | [] => [x]
  | y :: l' => if leb x y then x :: l else y :: insert_sorted leb x l'
  end.

Definition sort_by {A} (leb : A -> A -> bool) (l : list A) : list A :=
  fold_right (insert_sorted leb) [] l.

(** [ORDER BY timestamp] and [ORDER BY timestamp DESC] *)
Definition order_by_timestamp (l : list row) : list row := sort_by index_leb l.

Definition order_by_timestamp_desc (l : list row) : list row :=
  rev (order_by_timestamp l).

(** Binding a Python [int] to a parameter. *)
Definition bind_int (n : Z) : result Z :=
  if ((- 2 ^ 63 <=? n) && (n <? 2 ^ 63))%Z then Ok n else Raise OverflowError.

(** [LIMIT n]: a negative [n] is no limit. *)
Definition limit_rows {A} (n : Z) (l : list A) : list A :=
  if (n <? 0)%Z then l else firstn (Z.to_nat n) l.

(** [timestamp BETWEEN start AND end]; NULL is not between anything. *)
Definition between (start_time end_time : string) (ts : option string) : bool :=
  match ts with
  | None => false
  | Some t => String.leb start_time t && String.leb t end_time
  end.

(** Timestamps in ascending and in descending order. *)
Definition ascending (a b : option string) : Prop := timestamp_leb a b = true.

Definition descending (a b : option string) : Prop := timestamp_leb b a = true.

(** [SELECT ... FROM brainwaves_raw ORDER BY timestamp DESC LIMIT ?] *)
Definition select_recent (limit : Z) (d : database) : result (list row) :=
  if has_table "brainwaves_raw" d then
    match bind_int limit with
    | Raise e => Raise e
    | Ok n => Ok (limit_rows n (order_by_timestamp_desc (rows d)))
    end
  else Raise OperationalError.

(** [SELECT ... FROM brainwaves_raw ORDER BY timestamp DESC] *)
Definition select_all (d : database) : result (list row) :=
  if has_table "brainwaves_raw" d then Ok (order_by_timestamp_desc (rows d))
  else Raise OperationalError.

Fixpoint map_result {A B} (g : A -> result B) (l : list A) : result (list B) :=
  match l with
  | [] => Ok []
  | x :: l' =>
      match g x with
      | Raise e => Raise e
      | Ok y =>
          match map_result g l' with
          | Raise e => Raise e
          | Ok ys => Ok (y :: ys)
          end
      end
  end.

(** [json.loads(data_str)] followed by a [.get]: the decoded value has to be
    a [dict]. *)
Definition loads_dict (data_str : string) : result dict :=
  match loads data_str with
  | None => Raise JSONDecodeError
  | Some (JObj data) => Ok data
  | Some _ => Raise AttributeError
  end.

Record recent_record : Type := {
  recent_timestamp : option string;
  recent_user_name : string;
  recent_channels : nat;
  recent_deviceId : json
}.

Definition recent_of_row (r : row) : result recent_record :=
  match loads_dict (row_data r) with
  | Raise e => Raise e
  | Ok data =>
      match py_len (dict_get_default "data" (JArr []) data) with
      | Raise e => Raise e
      | Ok channels =>
          Ok {| recent_timestamp := row_timestamp r;
                recent_user_name := row_user_name r;
                recent_channels := channels;
                recent_deviceId := dict_get_default "deviceId" (JStr "unknown") data |}
      end
  end.

(** [NeurosityDataViewer.get_recent_data]: the records of the data frame. *)
Definition get_recent_data (limit : Z) (d : database) : result (list recent_record) :=
  match select_recent limit d with
  | Raise e => Raise e
  | Ok results => map_result recent_of_row results
  end.

(** [NeurosityDataViewer.get_data_by_timerange]: the [(timestamp, data)]
    tuples. *)
Definition get_data_by_timerange (start_time end_time : string) (d : database) :
  result (list (option string * string)) :=
  if has_table "brainwaves_raw" d then
    Ok (map (fun r => (row_timestamp r, row_data r))
          (order_by_timestamp
             (List.filter (fun r => between start_time end_time (row_timestamp r)) (rows d))))
  else Raise OperationalError.

(** [substr(timestamp, 1, 13)] *)
Definition hour_of (ts : string) : string := String.substring 0 13 ts.

Definition group_key (r : row) : string * string :=
  (match row_timestamp r with Some t => hour_of t | None => "" end, row_user_name r).

Definition key_compare (a b : string * string) : comparison :=
  match String.compare (fst a) (fst b) with
  | Eq => String.compare (snd a) (snd b)
  | c => c
  end.

(** One more row in the group of [k]; the groups are kept in the order of
    the GROUP BY terms. *)
Fixpoint bump (k : string * string) (groups : list (string * string * nat)) :
  list (string * string * nat) :=
  match groups with
  | [] => [(k, 1%nat)]
  | (k', n) :: groups' =>
      match key_compare k k' with
      | Eq => (k', S n) :: groups'
      | Lt => (k, 1%nat) :: groups
      | Gt => (k', n) :: bump k groups'
      end
  end.

Definition group_counts (l : list row) : list (string * string * nat) :=
  fold_left (fun groups r => bump (group_key r) groups) l [].

Definition key_lt (a b : string * string) : Prop := key_compare a b = Lt.

Definition key_eqb (a b : string * string) : bool :=
  match key_compare a b with
  | Eq => true
  | _ => false
  end.

(** The count of the group of [k], and the number of rows that belong
    to it. *)
Fixpoint group_count (k : string * string) (groups : list (string * string * nat)) : nat :=
  match groups with
  | [] => 0
  | (k', n) :: groups' => if key_eqb k k' then n else group_count k groups'
  end.

Definition count_key (k : string * string) (l : list row) : nat :=
  List.length (List.filter (fun r => key_eqb k (group_key r)) l).

(** The query of [NeurosityDataViewer.plot_data_volume_by_hour]: the
    [(hour, count, user_name)] tuples that are plotted.  [start_time] and
    [end_time] are the texts of [start_time.isoformat()] and
    [end_time.isoformat()]. *)
Definition plot_data_volume_by_hour (start_time end_time : string) (d : database) :
  result (list (string * nat * string)) :=
  if has_table "brainwaves_raw" d then
    Ok (map (fun g => (fst (fst g), snd g, snd (fst g)))
          (group_counts
             (List.filter (fun r => between start_time end_time (row_timestamp r)) (rows d))))
  else Raise OperationalError.

Record export_record : Type := {
  export_id : Z;
  export_timestamp : option string;
  export_user_name : string;
  export_deviceId : json;
  export_data_json : string
}.

Definition export_of_row (r : row) : result export_record :=
  match loads_dict (row_data r) with
  | Raise e => Raise e
  | Ok data =>
      Ok {| export_id := row_id r;
            export_timestamp := row_timestamp r;
            export_user_name := row_user_name r;
            export_deviceId := dict_get_default "deviceId" (JStr "unknown") data;
            export_data_json := row_data r |}
  end.

(** [if limit:] is false for [None] and for [0]. *)
Definition limit_given (limit : option Z) : bool :=
  match limit with
  | None => false
  | Some n => negb (n =? 0)%Z
  end.

(** [NeurosityDataViewer.export_to_csv]: the records written to the file. *)
Definition export_to_csv (limit : option Z) (d : database) :
  result (list export_record) :=
  match (if limit_given limit
         then select_recent (default 0%Z limit) d
         else select_all d) with
  | Raise e => Raise e
  | Ok results => map_result export_of_row results
  end.

(** ** Notions used to state the properties *)

(** The Python value read back from the timestamp column of a row. *)
Definition column_value (r : row) : json :=
  match row_timestamp r with
  | Some s => JStr s
  | None => JNull
  end.

(** The timestamp field of the decoded data column of a row. *)
Definition payload_timestamp (r : row) : option json :=
  match loads (row_data r) with
  | Some (JObj data) => dict_get "timestamp" data
  | _ => None
  end.

(** The data column of the row decodes to a JSON object. *)
Definition decodable (r : row) : Prop :=
  exists data, loads (row_data r) = Some (JObj data).

(** The data column of the row decodes to a JSON object whose [data] member,
    when it has one, has a length. *)
Definition summarizable (r : row) : Prop :=
  exists data n, loads (row_data r) = Some (JObj data)
    /\ py_len (dict_get_default "data" (JArr []) data) = Ok n.

(** The hour, the count and the owner of a tuple of the hourly query. *)
Definition bucket_hour (t : string * nat * string) : string := fst (fst t).

Definition bucket_key (t : string * nat * string) : string * string :=
  (fst (fst t), snd t).

(** The rows a range query selects. *)
Definition in_range (start_time end_time : string) (d : database) : list row :=
  List.filter (fun r => between start_time end_time (row_timestamp r)) (rows d).

Definition int64 (n : Z) : Prop := (- 2 ^ 63 <= n < 2 ^ 63)%Z.

(** ** A started application and sample inputs *)

(** The database [init_database] leaves when the file was missing. *)
Definition fresh_database : database :=
  {| master := [Table "brainwaves_raw" brainwaves_raw_columns;
                Index "idx_timestamp" "brainwaves_raw" "timestamp"];
     rows := []; sqlite_sequence := 0 |}.

(** The application after [__init__] on a missing file. *)
Definition fresh_app (user : string) (size : Z) : NeurosityApp :=
  {| user_name := user; buffer := []; buffer_size := size;
     conn := {| durable := fresh_database; view := fresh_database |};
     stdout := [] |}.

Definition noon : nat -> string := fun _ => "2024-01-01T12:00:00".

Definition crown_sample : dict :=
  [("data", JArr [JArr [JNum 1; JNum 2]; JArr [JNum 3; JNum 4]]);
   ("deviceId", JStr "crown")].

Definition stamped_sample : dict :=
  [("timestamp", JStr "2023-12-31T23:59:59"); ("deviceId", JStr "crown")].

(** A sample with amplitudes as the device delivers them: floats, written
    here by their decimal literals 1.5, -2.375, 0.1 and 1704099600.5. *)
Definition raw_sample : dict :=
  [("data", JArr [JArr [JFloat (float_of_decimal false 15 (-1));
                        JFloat (float_of_decimal true 2375 (-3))];
                  JArr [JFloat (float_of_decimal false 1 (-1)); JNum 4]]);
   ("info", JObj [("samplingRate", JNum 256);
                  ("startTime", JFloat (float_of_decimal false 17040996005 (-1)))]);
   ("deviceId", JStr "crown")].

Definition alice_row (i : Z) (ts data : string) : row :=
  {| row_id := i; row_timestamp := Some ts; row_data := data;
     row_user_name := "alice" |}.

Definition store_of (l : list row) : database :=
  {| master := master fresh_database; rows := l;
     sqlite_sequence := max_row_id l |}.

(** ** The rest of the application and of the tools *)

(** White space in the sense of [str.strip]: the code points for which
    [str.isspace] holds, below 256. *)
Definition is_space (c : ascii) : bool :=
  let n := N_of_ascii c in
  (((9 <=? n) && (n <=? 13)) || ((28 <=? n) && (n <=? 32))
   || (n =? 133) || (n =? 160))%N.

Fixpoint lstrip (l : list ascii) : list ascii :=
  match l with
  | c :: l' => if is_space c then lstrip l' else l
  | [] => []
  end.

(** [s.strip()] *)
Definition strip (s : string) : string :=
  string_of_list_ascii (rev (lstrip (rev (lstrip (list_ascii_of_string s))))).

(** [NeurosityApp._get_user_name].  [USER_NAME] is the value of the
    environment variable, [None] when it is not set; [line] is what
    [input] returns, read only when the variable gives no name. *)
Definition _get_user_name (USER_NAME : option string) (line : string) : string :=
  match USER_NAME with
  | Some user_name =>
      if negb (String.eqb user_name "") then user_name
      else if negb (String.eqb (strip line) "") then strip line else "Anonymous"
  | None =>
      if negb (String.eqb (strip line) "") then strip line else "Anonymous"
  end.

(** The lines [query_data] prints. *)
Inductive line : Type :=
| TimestampLine (timestamp : option string) (user_name : string)
| ChannelsLine (channels : nat)
| DeviceLine (deviceId : json)
| RuleLine.

(** The loop of [query_data]: the lines printed, and the exception that
    ended the loop, if any.  The first line of a row is printed before its
    data is decoded. *)
Fixpoint print_summaries (results : list row) : list line * option exn :=
  match results with
  | [] => ([], None)
  | r :: results' =>
      let first := TimestampLine (row_timestamp r) (row_user_name r) in
      match loads_dict (row_data r) with
      | Raise e => ([first], Some e)
      | Ok data_obj =>
          match py_len (dict_get_default "data" (JArr []) data_obj) with
          | Raise e => ([first], Some e)
          | Ok channels =>
              let (printed, raised) := print_summaries results' in
              (first :: ChannelsLine channels
                 :: DeviceLine (dict_get_default "deviceId" (JStr "unknown") data_obj)
                 :: RuleLine :: printed, raised)
          end
      end
  end.

(** [NeurosityApp.query_data]: the query runs on the connection of the
    application, which sees the inserts of its open transaction.  The
    result is what was printed and the [(timestamp, data, user_name)] tuples
    returned, or the exception raised. *)
Definition query_data (limit : Z) (st : NeurosityApp) :
  list line * result (list (option string * string * string)) :=
  match select_recent limit (view (conn st)) with
  | Raise e => ([], Raise e)
  | Ok results =>
      match print_summaries results with
      | (printed, Some e) => (printed, Raise e)
      | (printed, None) => (printed, Ok (map contents results))
      end
  end.

(** [NeurosityDataViewer._check_database] *)
Definition _check_database (d : database) : bool :=
  if has_table "brainwaves_raw" d then
    negb (Nat.eqb (List.length (rows d)) 0)
  else false.

(** [setup_database.py]: [query_database()].  The result is the count and
    the timestamp of the most recent record that are printed. *)
Definition query_database (db_path : string) (fs : gmap string database) :
  result (nat * option (option string)) :=
  let d := durable (connect db_path fs) in
  if has_table "brainwaves_raw" d then
    let count := List.length (rows d) in
    if (0 <? count)%nat then
      match limit_rows 1 (order_by_timestamp_desc (rows d)) with
      | r :: _ => Ok (count, Some (row_timestamp r))
      | [] => Raise TypeError
      end
    else Ok (count, None)
  else Raise OperationalError.

(** The [__main__] of [setup_database.py]: [setup_database()], then
    [query_database()]. *)
Definition setup_main (db_path : string) (fs : gmap string database) :
  result (nat * option (option string)) :=
  match setup_database db_path fs with
  | Raise e => Raise e
  | Ok fs' => query_database db_path fs'
  end.

(** ** Notions used to state further properties *)

(** The records the callback accepts among the samples of a run, as they
    are buffered. *)
Fixpoint delivered (ops : list op) : list dict :=
  match ops with
  | [] => []
  | Sample now _ _ data :: ops' =>
      if ingestable now data then stamp now data :: delivered ops'
      else delivered ops'
  | Timer _ _ :: ops' => delivered ops'
  end.

(** The row holds the record, for the owner. *)
Definition stores (user : string) (item : dict) (r : row) : Prop :=
  row_data r = dumps (JObj item) /\ row_user_name r = user.

(** The rowids grow along the table. *)
Definition ids_increasing (d : database) : Prop :=
  StronglySorted Z.lt (map row_id (rows d)).

(** The state of a session against the rows [base] its file held when it
    began and the records [L] handed to it since.  The file holds [base]
    and then the rows committed since; the connection sees the rows that
    wait for a commit after them; each of these rows stores one of the
    records, for the owner; each record is buffered or committed; the
    buffer holds only such records. *)
Definition tracks (base : list row) (user : string) (L : list dict)
  (st : NeurosityApp) : Prop :=
  user_name st = user
  /\ exists new pending,
       rows (durable (conn st)) = base ++ new
       /\ rows (view (conn st)) = base ++ new ++ pending
       /\ Forall (fun r => exists item, In item L /\ stores user item r) (new ++ pending)
       /\ Forall (fun item => In item (buffer st) \/ Exists (stores user item) new) L
       /\ Forall (fun item => In item L) (buffer st).

(** No white space at either end. *)
Definition trimmed (s : string) : Prop :=
  match list_ascii_of_string s with
  | [] => True
  | c :: _ => is_space c = false
  end
  /\ match rev (list_ascii_of_string s) with
     | [] => True
     | c :: _ => is_space c = false
     end.

(** The same operation, with another clock for the flush it may run. *)
Definition with_clock (clock : nat -> string) (o : op) : op :=
  match o with
  | Sample now f _ data => Sample now f clock data
  | Timer f _ => Timer f clock
  end.

(** The record has a timestamp field. *)
Definition has_timestamp (item : dict) : Prop :=
  exists v, dict_get "timestamp" item = Some v.

(** A record the callback lets through and the reader can summarize. *)
Definition sound_item (item : dict) : Prop :=
  wf_dict item
  /\ exists n, py_len (dict_get_default "data" (JArr []) item) = Ok n.

Definition sample_wf (o : op) : Prop :=
  match o with
  | Sample _ _ _ data => wf_dict data
  | Timer _ _ => True
  end.

(** The sum of the counts of the hourly query. *)
Definition total_count (res : list (string * nat * string)) : nat :=
  fold_right (fun t a => (snd (fst t) + a)%nat) 0%nat res.

(** ** Further sample inputs *)

(** A sample whose timestamp is a list: the callback takes it, the store
    cannot bind it. *)
Definition list_stamped_sample : dict :=
  [("timestamp", JArr [JNum 1]); ("data", JArr [])].

(** A session in which the storage engine fails three times. *)
Definition troubled_session : list op :=
  [Sample "2024-01-01T10:00:00" NoFault noon crown_sample;
   Sample "2024-01-01T10:00:01" FailCommit noon crown_sample;
   Timer (FailExecute 1) noon;
   Sample "2024-01-01T10:00:02" FailCursor noon stamped_sample;
   Timer NoFault noon;
   Sample "2024-01-01T10:00:03" NoFault noon crown_sample].

(** ** The threads of the application

    [brainwave_callback] runs on the thread of the SDK, [flush_timer] on the
    thread that [start_flush_timer] starts, and [stop] on the main thread.
    The three share the attributes of the application and take no lock:
    between two accesses of one thread to the buffer, to the connection (it
    is opened with [check_same_thread=False]) or to the output, another
    thread can run.  Each access is one step here.  The list objects that
    [self.buffer] has referred to are kept by address: [self.buffer = []]
    binds the attribute to a new list, and a loop that iterates the old
    list goes on with it, and sees what was appended to it. *)

Inductive thread : Type := SdkThread | TimerThread | MainThread.

(** The statement of [flush_buffer] a thread is about to run. *)
Inductive flush_pc : Type :=
| AtCheck                                (* if not self.buffer: return *)
| AtCursor                               (* cursor = self.conn.cursor() *)
| AtIter                                 (* for item in self.buffer: the iterator *)
| AtNext (o i : nat)                     (* the item at index i of the list at o *)
| AtExecute (o i : nat) (item : dict)    (* cursor.execute(INSERT ...) *)
| AtCommit                               (* self.conn.commit() *)
| AtPrint                                (* print(f"Flushed {len(self.buffer)} ...") *)
| AtClear                                (* self.buffer = [] *)
| AtExcept (e : exn).                    (* print(f"Error writing ...") *)

(** The statement a thread is about to run. *)
Inductive pc : Type :=
| Idle
| AtAppend (data : dict)                 (* self.buffer.append(data) *)
| AtFull                                 (* if len(self.buffer) >= self.buffer_size: *)
| AtTimerPrint                           (* print(f"Timer triggered flush ...") *)
| InFlush (f : flush_pc).

(** What the threads share. *)
Record shared : Type := {
  s_user_name : string;
  s_buffer_size : Z;
  lists : list (list dict);
  self_buffer : nat;
  s_conn : connection;
  s_stdout : list event
}.

(** The list [self.buffer] refers to. *)
Definition current (s : shared) : list dict := nth (self_buffer s) (lists s) [].

(** The attributes, as one thread finds them. *)
Definition app_of (s : shared) : NeurosityApp :=
  {| user_name := s_user_name s; buffer := current s;
     buffer_size := s_buffer_size s; conn := s_conn s; stdout := s_stdout s |}.

Definition shared_of (st : NeurosityApp) : shared :=
  {| s_user_name := user_name st; s_buffer_size := buffer_size st;
     lists := [buffer st]; self_buffer := 0;
     s_conn := conn st; s_stdout := stdout st |}.

Definition set_conn (c : connection) (s : shared) : shared :=
  {| s_user_name := s_user_name s; s_buffer_size := s_buffer_size s;
     lists := lists s; self_buffer := self_buffer s;
     s_conn := c; s_stdout := s_stdout s |}.

Definition s_print (e : event) (s : shared) : shared :=
  {| s_user_name := s_user_name s; s_buffer_size := s_buffer_size s;
     lists := lists s; self_buffer := self_buffer s;
     s_conn := s_conn s; s_stdout := s_stdout s ++ [e] |}.

(** [self.buffer.append(data)]: the list changes in place. *)
Definition append (data : dict) (s : shared) : shared :=
  {| s_user_name := s_user_name s; s_buffer_size := s_buffer_size s;
     lists := <[self_buffer s := current s ++ [data]]> (lists s);
     self_buffer := self_buffer s;
     s_conn := s_conn s; s_stdout := s_stdout s |}.

(** [self.buffer = []]: a new list. *)
Definition rebind (s : shared) : shared :=
  {| s_user_name := s_user_name s; s_buffer_size := s_buffer_size s;
     lists := lists s ++ [[]]; self_buffer := List.length (lists s);
     s_conn := s_conn s; s_stdout := s_stdout s |}.

(** One step of a thread in [flush_buffer].  [fails] tells whether the
    storage engine fails in the step, [now] is the reading of the clock the
    step takes. *)
Definition flush_step (fails : bool) (now : string) (f : flush_pc) (s : shared) :
  shared * pc :=
  match f with
  | AtCheck =>
      match current s with
      | [] => (s, Idle)
      | _ :: _ => (s, InFlush AtCursor)
      end
  | AtCursor =>
      match cursor (if fails then FailCursor else NoFault) (s_conn s) with
      | (c, Ok _) => (set_conn c s, InFlush AtIter)
      | (c, Raise e) => (set_conn c s, InFlush (AtExcept e))
      end
  | AtIter => (s, InFlush (AtNext (self_buffer s) 0))
  | AtNext o i =>
      match nth_error (nth o (lists s) []) i with
      | Some item => (s, InFlush (AtExecute o i item))
      | None => (s, InFlush AtCommit)
      end
  | AtExecute o i item =>
      let timestamp := dict_get_default "timestamp" (JStr now) item in
      match execute_insert (if fails then FailExecute i else NoFault) i
              timestamp (dumps (JObj item)) (s_user_name s) (s_conn s) with
      | (c, Ok _) => (set_conn c s, InFlush (AtNext o (S i)))
      | (c, Raise e) => (set_conn c s, InFlush (AtExcept e))
      end
  | AtCommit =>
      match commit (if fails then FailCommit else NoFault) (s_conn s) with
      | (c, Ok _) => (set_conn c s, InFlush AtPrint)
      | (c, Raise e) => (set_conn c s, InFlush (AtExcept e))
      end
  | AtPrint => (s_print (Flushed (List.length (current s))) s, InFlush AtClear)
  | AtClear => (rebind s, Idle)
  | AtExcept e => (s_print (ErrorWriting e) s, Idle)
  end.

(** One step of a thread that is not idle. *)
Definition thread_step (fails : bool) (now : string) (q : pc) (s : shared) :
  option (shared * pc) :=
  match q with
  | Idle => None
  | AtAppend data => Some (append data s, AtFull)
  | AtFull =>
      Some (s, if (s_buffer_size s <=? Z.of_nat (List.length (current s)))%Z
               then InFlush AtCheck else Idle)
  | AtTimerPrint =>
      Some (s_print (TimerTriggered (List.length (current s))) s, InFlush AtCheck)
  | InFlush f => Some (flush_step fails now f s)
  end.

Record process : Type := {
  mem : shared;
  sdk : pc;
  timer : pc;
  main : pc
}.

Definition pc_of (t : thread) (p : process) : pc :=
  match t with
  | SdkThread => sdk p
  | TimerThread => timer p
  | MainThread => main p
  end.

(** The thread [t] has made a step to [q] and left the shared state [s]. *)
Definition resume (t : thread) (q : pc) (s : shared) (p : process) : process :=
  match t with
  | SdkThread => {| mem := s; sdk := q; timer := timer p; main := main p |}
  | TimerThread => {| mem := s; sdk := sdk p; timer := q; main := main p |}
  | MainThread => {| mem := s; sdk := sdk p; timer := timer p; main := q |}
  end.

(** What the scheduler and the environment do next: the SDK calls
    [brainwave_callback(data)], which runs up to its [print]; the sleep of
    the timer thread ends and the thread tests [if self.buffer]; the main
    thread calls [stop] and enters [flush_buffer]; or a thread that is not
    idle makes its next step. *)
Inductive action : Type :=
| Deliver (now : string) (data : dict)
| Wake
| Stop
| Run (t : thread) (fails : bool) (now : string).

Definition is_idle (q : pc) : bool :=
  match q with
  | Idle => true
  | _ => false
  end.

(** [None]: the action cannot happen in this state. *)
Definition act (a : action) (p : process) : option process :=
  match a with
  | Deliver now data =>
      if is_idle (sdk p) then
        let data1 := stamp now data in
        match py_len (dict_get_default "data" (JArr []) data1) with
        | Raise _ => Some p
        | Ok channels =>
            Some (resume SdkThread (AtAppend data1)
                    (s_print (Received channels (dict_get_default "timestamp" JNull data1))
                       (mem p)) p)
        end
      else None
  | Wake =>
      if is_idle (timer p) then
        match current (mem p) with
        | [] => Some p
        | _ :: _ => Some (resume TimerThread AtTimerPrint (mem p) p)
        end
      else None
  | Stop =>
      if is_idle (main p) then Some (resume MainThread (InFlush AtCheck) (mem p) p)
      else None
  | Run t fails now =>
      match thread_step fails now (pc_of t p) (mem p) with
      | None => None
      | Some (s, q) => Some (resume t q s p)
      end
  end.

(** A schedule: the actions, in the order in which they happen. *)
Fixpoint exec (sched : list action) (p : process) : option process :=
  match sched with
  | [] => Some p
  | a :: sched' =>
      match act a p with
      | None => None
      | Some p' => exec sched' p'
      end
  end.

(** The application with its three threads idle. *)
Definition idle (s : shared) : process :=
  {| mem := s; sdk := Idle; timer := Idle; main := Idle |}.

Definition spawn (st : NeurosityApp) : process := idle (shared_of st).

Definition quiescent (p : process) : bool :=
  is_idle (sdk p) && is_idle (timer p) && is_idle (main p).

(** The actions with which a callback, a timer round or [stop] begins. *)
Definition begins (a : action) : bool :=
  match a with
  | Run _ _ _ => false
  | _ => true
  end.

(** No two threads overlap during the schedule: a callback, a timer round
    or [stop] begins only when every thread is idle. *)
Fixpoint serial (sched : list action) (p : process) : bool :=
  match sched with
  | [] => true
  | a :: sched' =>
      (if begins a then quiescent p else true)
      && match act a p with
         | None => false
         | Some p' => serial sched' p'
         end
  end.

(** The thread [t] is at [q], the other threads are idle. *)
Definition only (t : thread) (q : pc) (s : shared) : process := resume t q s (idle s).

(** The steps of one thread. *)
Definition steps_of (t : thread) (ins : list (bool * string)) : list action :=
  map (fun i => Run t (fst i) (snd i)) ins.

(** [stop] is not called during the schedule. *)
Definition running (sched : list action) : bool :=
  forallb (fun a => match a with Stop => false | _ => true end) sched.

(** The samples the SDK delivers during the schedule, with the clock
    reading of their callback. *)
Fixpoint deliveries (sched : list action) : list (string * dict) :=
  match sched with
  | [] => []
  | Deliver now data :: sched' => (now, data) :: deliveries sched'
  | _ :: sched' => deliveries sched'
  end.

(** The records the callback accepts among delivered samples, as they are
    buffered. *)
Fixpoint accepted_of (l : list (string * dict)) : list dict :=
  match l with
  | [] => []
  | (now, data) :: l' =>
      if ingestable now data then stamp now data :: accepted_of l'
      else accepted_of l'
  end.

Definition accepted (sched : list action) : list dict := accepted_of (deliveries sched).

(** The storage engine fails in no step of the schedule. *)
Definition quiet (sched : list action) : Prop :=
  Forall (fun a => match a with Run _ fails _ => fails = false | _ => True end) sched.

(** A thread on its own: the steps it makes, with what the storage engine
    and the clock give to each, from the statement [q] until it is idle. *)
Fixpoint solo (ins : list (bool * string)) (q : pc) (s : shared) : option shared :=
  match ins with
  | [] => if is_idle q then Some s else None
  | (fails, now) :: ins' =>
      match thread_step fails now q s with
      | None => None
      | Some (s', q') => solo ins' q' s'
      end
  end.

(** The samples of a sequence of operations, and the fault of an
    operation. *)
Fixpoint samples_of (ops : list op) : list (string * dict) :=
  match ops with
  | [] => []
  | Sample now _ _ data :: ops' => (now, data) :: samples_of ops'
  | Timer _ _ :: ops' => samples_of ops'
  end.

Definition fault_of (o : op) : fault :=
  match o with
  | Sample _ f _ _ => f
  | Timer f _ => f
  end.

(** The steps of the main thread in the flush of [stop], when the storage
    engine does not fail; [clocks] are the readings of the clock. *)
Definition stop_steps (clocks : list string) : list action :=
  Stop :: steps_of MainThread (map (fun now => (false, now)) clocks).

(** A timer round that overlaps a callback: the timer thread flushes the
    buffer and commits; the callback appends its sample; the timer thread
    prints and binds [self.buffer] to a new list. *)
Definition late_append (now : string) (data : dict) : list action :=
  [Wake;
   Run TimerThread false now;      (* print: timer triggered *)
   Run TimerThread false now;      (* if not self.buffer *)
   Run TimerThread false now;      (* cursor *)
   Run TimerThread false now;      (* the iterator *)
   Run TimerThread false now;      (* the first item *)
   Run TimerThread false now;      (* execute *)
   Run TimerThread false now;      (* no second item *)
   Run TimerThread false now;      (* commit *)
   Deliver now data;
   Run SdkThread false now;        (* append *)
   Run SdkThread false now;        (* the buffer is not full *)
   Run TimerThread false now;      (* print: flushed *)
   Run TimerThread false now].     (* self.buffer = [] *)

(** A timer round that overlaps the flush of a callback: the timer thread
    has inserted the first record when the callback appends its sample,
    finds the buffer full and flushes it to the end; the timer thread goes
    on with the list it iterates. *)
Definition two_flushes (now : string) (data : dict) : list action :=
  [Wake;
   Run TimerThread false now;      (* print: timer triggered *)
   Run TimerThread false now;      (* if not self.buffer *)
   Run TimerThread false now;      (* cursor *)
   Run TimerThread false now;      (* the iterator *)
   Run TimerThread false now;      (* the first item *)
   Run TimerThread false now;      (* execute *)
   Deliver now data;
   Run SdkThread false now;        (* append *)
   Run SdkThread false now;        (* the buffer is full *)
   Run SdkThread false now;        (* if not self.buffer *)
   Run SdkThread false now;        (* cursor *)
   Run SdkThread false now;        (* the iterator *)
   Run SdkThread false now;        (* the first item *)
   Run SdkThread false now;        (* execute *)
   Run SdkThread false now;        (* the second item *)
   Run SdkThread false now;        (* execute *)
   Run SdkThread false now;        (* no third item *)
   Run SdkThread false now;        (* commit *)
   Run SdkThread false now;        (* print: flushed *)
   Run SdkThread false now;        (* self.buffer = [] *)
   Run TimerThread false now;      (* the second item of the old list *)
   Run TimerThread false now;      (* execute *)
   Run TimerThread false now;      (* no third item *)
   Run TimerThread false now;      (* commit *)
   Run TimerThread false now;      (* print: flushed *)
   Run TimerThread false now].     (* self.buffer = [] *)

(** Nothing disturbs the storage engine during the schedule, and the
    samples it delivers have timestamps the store takes. *)
Definition calm_schedule (sched : list action) : Prop :=
  quiet sched
  /\ Forall (fun d => storable (stamp (fst d) (snd d)) = true) (deliveries sched).

(** The samples the schedule delivers are well-formed JSON objects. *)
Definition wf_deliveries (sched : list action) : Prop :=
  Forall (fun d => wf_dict (snd d)) (deliveries sched).

(** [n] steps of a thread in which the storage engine does not fail. *)
Definition steps (t : thread) (n : nat) : list action :=
  repeat (Run t false "2024-01-01T12:00:00") n.

(** A session without overlap, for a buffer of two records: a sample is
    buffered, the timer flushes it, two more samples arrive and the second
    fills the buffer, the timer finds the buffer empty. *)
Definition serial_session : list action :=
  Deliver "2024-01-01T10:00:00" raw_sample :: steps SdkThread 2
  ++ Wake :: steps TimerThread 10
  ++ Deliver "2024-01-01T10:00:01" stamped_sample :: steps SdkThread 2
  ++ Deliver "2024-01-01T10:00:02" raw_sample :: steps SdkThread 13
  ++ [Wake].

(** A session without overlap, for a buffer of three records, in which the
    commit of the timer round fails. *)
Definition troubled_serial_session : list action :=
  Deliver "2024-01-01T10:00:00" raw_sample :: steps SdkThread 2
  ++ Wake :: steps TimerThread 7
  ++ [Run TimerThread true "2024-01-01T12:00:00";
      Run TimerThread false "2024-01-01T12:00:00"]
  ++ Deliver "2024-01-01T10:00:01" stamped_sample :: steps SdkThread 2.

(** A session without overlap for a buffer of one record. *)
Definition write_through_session : list action :=
  Deliver "2024-01-01T10:00:00" raw_sample :: steps SdkThread 11
  ++ Deliver "2024-01-01T10:00:01" stamped_sample :: steps SdkThread 11.

(** * Properties *)

(** ** The JSON codec round trip *)

Ltac ascii_cases c :=
  destruct c as [[|] [|] [|] [|] [|] [|] [|] [|]].

Lemma parse_string_escape c tl :
  parse_string (escape_char c ++ tl) = prepend c (parse_string tl).
Proof. ascii_cases c; reflexivity. Qed.

Lemma parse_string_encoded cs rest :
  parse_string (flat_map escape_char cs ++ dquote :: rest)
  = Some (string_of_list_ascii cs, rest).
Proof.
  induction cs as [|c cs IH]; [reflexivity|].
  cbn [flat_map]. rewrite <- app_assoc, parse_string_escape, IH. reflexivity.
Qed.

Lemma delimited_digits rest :
  delimited rest = true -> parse_digits rest = (Nil, rest).
Proof.
  destruct rest as [|c r]; [reflexivity|].
  ascii_cases c; cbn; intros H; try discriminate H; reflexivity.
Qed.

Lemma parse_digits_chars d rest :
  delimited rest = true -> parse_digits (chars_of_uint d ++ rest) = (d, rest).
Proof.
  intros H. induction d; cbn [chars_of_uint app];
    [ now apply delimited_digits | .. ];
    cbn [parse_digits]; cbn [digit_of_char digit_char]; cbn; rewrite IHd; reflexivity.
Qed.

Lemma unorm_shape d : unorm d = zero \/ lead_nonzero (unorm d).
Proof. induction d; cbn; auto. Qed.

Lemma to_uint_lead p : lead_nonzero (Pos.to_uint p).
Proof.
  assert (E : Pos.to_uint p = unorm (Pos.to_uint p)).
  { rewrite <- (DecimalPos.Unsigned.to_of (Pos.to_uint p)), DecimalPos.Unsigned.of_to. reflexivity. }
  destruct (unorm_shape (Pos.to_uint p)) as [Hz | Hn].
  - exfalso. apply (DecimalPos.Unsigned.to_uint_nonzero p). congruence.
  - now rewrite E.
Qed.

Lemma of_to_uint p : Z.of_uint (Pos.to_uint p) = Zpos p.
Proof. unfold Z.of_uint. now rewrite DecimalPos.Unsigned.of_to. Qed.

Lemma lead_nonzero_head d :
  lead_nonzero d ->
  exists c tl, chars_of_uint d = c :: tl /\
    (N_of_ascii c =? 45)%N = false /\
    (49 <=? N_of_ascii c)%N && (N_of_ascii c <=? 57)%N = true.
Proof.
  destruct d; cbn; intros H; try contradiction; eexists _, _; repeat split.
Qed.


(** ** Digits and decimals *)

Ltac uint_cases d := destruct d as [|d|d|d|d|d|d|d|d|d|d].

Lemma append_digits_pow d : forall acc,
  append_digits d acc = acc * 10 ^ Z.of_nat (nb_digits d) + append_digits d 0.
Proof.
  induction d; intros acc; cbn [append_digits nb_digits];
    [cbn; lia | rewrite IHd, (IHd (10 * 0 + _)) || rewrite IHd, (IHd (10 * 0)) ..];
    rewrite Nat2Z.inj_succ, Z.pow_succ_r by lia; ring.
Qed.

Lemma pos_of_uint_acc d : forall acc,
  Z.pos (Pos.of_uint_acc d acc) = append_digits d (Z.pos acc).
Proof.
  induction d; intros acc; cbn [Pos.of_uint_acc append_digits];
    [reflexivity | rewrite IHd; f_equal; lia ..].
Qed.

Lemma of_uint_append d : Z.of_uint d = append_digits d 0.
Proof.
  unfold Z.of_uint.
  induction d; cbn [Pos.of_uint append_digits]; try reflexivity;
    try (cbn [Z.of_N]; rewrite pos_of_uint_acc; reflexivity).
  exact IHd.
Qed.

Lemma append_digits_app a b : forall acc,
  append_digits (append_uint a b) acc = append_digits b (append_digits a acc).
Proof. induction a; intros acc; cbn [append_uint append_digits]; auto. Qed.

Lemma append_digits_zeros n acc : append_digits (zeros n) acc = acc * 10 ^ Z.of_nat n.
Proof.
  revert acc. induction n as [|n IH]; intros acc.
  - cbn. lia.
  - change (zeros (S n)) with (D0 (zeros n)). cbn [append_digits].
    rewrite IH, Nat2Z.inj_succ, Z.pow_succ_r by lia. ring.
Qed.

Lemma nb_digits_append a b :
  nb_digits (append_uint a b) = (nb_digits a + nb_digits b)%nat.
Proof. induction a; cbn [append_uint nb_digits Nat.add]; congruence. Qed.

Lemma nb_digits_zeros n : nb_digits (zeros n) = n.
Proof.
  induction n as [|n IH]; [reflexivity|].
  change (zeros (S n)) with (D0 (zeros n)). cbn [nb_digits]. now rewrite IH.
Qed.

Lemma chars_of_uint_append a b :
  chars_of_uint (append_uint a b) = chars_of_uint a ++ chars_of_uint b.
Proof.
  induction a; cbn [append_uint chars_of_uint]; [reflexivity | rewrite IHa; reflexivity ..].
Qed.

Lemma split_uint_append j : forall d h t,
  split_uint j d = (h, t) ->
  append_uint h t = d /\ nb_digits h = Nat.min j (nb_digits d).
Proof.
  induction j as [|j IH]; intros d h t E.
  - cbn in E. inversion E; subst. split; [reflexivity | now cbn].
  - uint_cases d; cbn [split_uint] in E;
      [inversion E; subst; split; reflexivity
      | destruct (split_uint j d) as [h' t'] eqn:E'; inversion E; subst;
        destruct (IH _ _ _ E') as [Ha Hn]; cbn [append_uint nb_digits];
        rewrite Ha, Hn; split; reflexivity ..].
Qed.

Lemma strip10_mul fuel : forall j c k,
  0 < c -> c mod 10 <> 0 -> (j <= fuel)%nat ->
  strip10 fuel (c * 10 ^ Z.of_nat j) (k - Z.of_nat j) = (c, k).
Proof.
  induction fuel as [|fuel IH]; intros j c k Hc Hm Hj.
  - assert (j = 0%nat) by lia. subst j. cbn. f_equal; lia.
  - destruct j as [|j].
    + cbn [strip10]. change (10 ^ Z.of_nat 0) with 1. rewrite Z.mul_1_r, Z.sub_0_r.
      apply Z.eqb_neq in Hm. now rewrite Hm.
    + cbn [strip10]. rewrite Nat2Z.inj_succ, Z.pow_succ_r by lia.
      replace (c * (10 * 10 ^ Z.of_nat j)) with (c * 10 ^ Z.of_nat j * 10) by ring.
      rewrite Z.mod_mul by lia. rewrite Z.div_mul by lia.
      assert (Hpos : 0 < c * 10 ^ Z.of_nat j * 10).
      { assert (0 < 10 ^ Z.of_nat j) by (apply Z.pow_pos_nonneg; lia). nia. }
      assert (Hnz : (c * 10 ^ Z.of_nat j * 10 =? 0) = false) by (apply Z.eqb_neq; lia).
      rewrite Hnz. cbn [Z.eqb andb negb].
      replace (k - Z.succ (Z.of_nat j) + 1) with (k - Z.of_nat j) by lia.
      apply IH; [assumption | assumption | lia].
Qed.

Lemma log2_mul_pow10 c j : 0 < c -> Z.of_nat j <= Z.log2 (c * 10 ^ Z.of_nat j).
Proof.
  intros Hc.
  assert (H2 : 2 ^ Z.of_nat j <= c * 10 ^ Z.of_nat j).
  { assert (2 ^ Z.of_nat j <= 10 ^ Z.of_nat j) by (apply Z.pow_le_mono_l; lia).
    assert (0 < 2 ^ Z.of_nat j) by (apply Z.pow_pos_nonneg; lia). nia. }
  apply Z.log2_le_mono in H2. rewrite Z.log2_pow2 in H2 by lia. exact H2.
Qed.

Lemma canonical_mul c k j :
  0 < c -> c mod 10 <> 0 -> 0 <= j ->
  canonical (c * 10 ^ j) (k - j) = (c, k).
Proof.
  intros Hc Hm Hj. unfold canonical.
  rewrite <- (Z2Nat.id j Hj).
  apply strip10_mul; [assumption | assumption |].
  pose proof (log2_mul_pow10 c (Z.to_nat j) Hc). lia.
Qed.

Lemma canonical_fixed c k : 0 < c -> c mod 10 <> 0 -> canonical c k = (c, k).
Proof.
  intros Hc Hm. pose proof (canonical_mul c k 0 Hc Hm ltac:(lia)) as H.
  now rewrite Z.pow_0_r, Z.mul_1_r, Z.sub_0_r in H.
Qed.

Lemma strip10_spec fuel : forall c k,
  0 < c -> c < 2 ^ Z.of_nat (S fuel) ->
  let (c', k') := strip10 fuel c k in
  0 < c' /\ c' mod 10 <> 0 /\ k <= k' /\ c = c' * 10 ^ (k' - k).
Proof.
  induction fuel as [|fuel IH]; intros c k Hc Hb.
  - cbn [strip10]. change (2 ^ Z.of_nat 1) with 2 in Hb.
    assert (c = 1) by lia. subst c. repeat split; try lia.
    + now cbn.
    + rewrite Z.sub_diag. reflexivity.
  - cbn [strip10]. destruct (c mod 10 =? 0) eqn:Em; cbn [andb].
    + assert (Hnz : (c =? 0) = false) by (apply Z.eqb_neq; lia).
      rewrite Hnz. cbn [negb]. apply Z.eqb_eq in Em.
      assert (Ec : c = 10 * (c / 10)).
      { pose proof (Z.div_mod c 10 ltac:(lia)). lia. }
      specialize (IH (c / 10) (k + 1)).
      destruct (strip10 fuel (c / 10) (k + 1)) as [c' k'].
      destruct IH as (H1 & H2 & H3 & H4).
      * lia.
      * rewrite Nat2Z.inj_succ, Z.pow_succ_r in Hb by lia. lia.
      * repeat split; try lia.
        replace (k' - k) with (Z.succ (k' - (k + 1))) by lia.
        rewrite Z.pow_succ_r by lia. lia.
    + apply Z.eqb_neq in Em. repeat split; try lia.
      rewrite Z.sub_diag. lia.
Qed.

Lemma canonical_spec c k :
  0 < c ->
  let (c', k') := canonical c k in
  0 < c' /\ c' mod 10 <> 0 /\ k <= k' /\ c = c' * 10 ^ (k' - k).
Proof.
  intros Hc. unfold canonical. apply strip10_spec; [exact Hc|].
  rewrite Nat2Z.inj_succ, Z2Nat.id by apply Z.log2_nonneg.
  apply Z.log2_spec. exact Hc.
Qed.

(** ** Floats and their digits *)


Lemma float_of_decimal_sign neg c k :
  float_of_decimal neg c k = set_sign neg (float_of_decimal false c k).
Proof.
  unfold float_of_decimal, round_units. destruct (c =? 0); [reflexivity|].
  cbv zeta. destruct (_ =? 0); [reflexivity|]. destruct (_ <=? _); reflexivity.
Qed.

(** Rounding a value that is a float gives that float. *)
Lemma round_units_exact neg n den :
  binary64 (FFin neg n) -> 0 < den ->
  round_units neg (Z.pos n * den) den = FFin neg n.
Proof.
  intros [Hb Hm] Hd. unfold round_units.
  rewrite Z.div_mul by lia. cbv zeta.
  set (s := shift (Z.pos n)) in *.
  assert (Hs : 0 <= s) by (unfold s, shift; lia).
  assert (Hp : 0 < 2 ^ s) by (apply Z.pow_pos_nonneg; lia).
  assert (En : Z.pos n = 2 ^ s * (Z.pos n / 2 ^ s)).
  { pose proof (Z.div_mod (Z.pos n) (2 ^ s) ltac:(lia)). lia. }
  assert (Er : round_half_even (Z.pos n * den) (den * 2 ^ s) = Z.pos n / 2 ^ s).
  { unfold round_half_even.
    assert (Eq : Z.pos n * den = Z.pos n / 2 ^ s * (den * 2 ^ s)).
    { rewrite En at 1. ring. }
    rewrite Eq, Z.mod_mul, Z.div_mul by nia. cbv zeta.
    assert (H0 : (2 * 0 <? den * 2 ^ s) = true) by (apply Z.ltb_lt; nia).
    now rewrite H0. }
  rewrite Er.
  assert (E : Z.pos n / 2 ^ s * 2 ^ s = Z.pos n) by lia.
  rewrite E.
  assert (H1 : (Z.pos n =? 0) = false) by (apply Z.eqb_neq; lia).
  assert (H2 : (2 ^ 2098 <=? Z.pos n) = false) by (apply Z.leb_gt; exact Hb).
  now rewrite H1, H2.
Qed.

Lemma split2_spec n :
  let (o, s) := split2 n in
  0 <= s /\ Z.pos n = Z.pos o * 2 ^ s /\ Z.odd (Z.pos o) = true.
Proof.
  induction n as [n IH|n IH|]; cbn [split2].
  - repeat split; try lia. 
  - destruct (split2 n) as [o s]. destruct IH as (Hs & E & Ho).
    repeat split; try lia; [|exact Ho].
    rewrite Pos2Z.inj_xO, E, Z.pow_add_r by lia. ring.
  - repeat split; lia.
Qed.

Lemma odd_mod10 c : Z.odd c = true -> c mod 10 <> 0.
Proof.
  intros Ho Hm. rewrite Zodd_mod in Ho.
  assert (c mod 2 = 0).
  { pose proof (Z.div_mod c 10 ltac:(lia)) as E. rewrite Hm in E.
    replace c with (0 + (5 * (c / 10)) * 2) by lia. now rewrite Z.mod_add by lia. }
  rewrite H in Ho. discriminate.
Qed.

Lemma odd_pow5 j : 0 <= j -> Z.odd (5 ^ j) = true.
Proof.
  intros Hj. pattern j. apply natlike_ind; [reflexivity | | exact Hj].
  intros x Hx IH. rewrite Z.pow_succ_r, Z.odd_mul, IH by lia. reflexivity.
Qed.

(** The exact expansion denotes the float. *)
Lemma exact_decimal_spec n :
  let (C, K) := exact_decimal n in
  0 < C /\ C mod 10 <> 0
  /\ C * 10 ^ Z.max K 0 * 2 ^ 1074 = Z.pos n * 10 ^ Z.max (- K) 0.
Proof.
  unfold exact_decimal. pose proof (split2_spec n) as H.
  destruct (split2 n) as [o s]. destruct H as (Hs & E & Ho).
  destruct (1074 <=? s) eqn:Es.
  - apply Z.leb_le in Es.
    assert (Hpos : 0 < Z.pos o * 2 ^ (s - 1074)).
    { assert (0 < 2 ^ (s - 1074)) by (apply Z.pow_pos_nonneg; lia). nia. }
    pose proof (canonical_spec (Z.pos o * 2 ^ (s - 1074)) 0 Hpos) as Hc.
    destruct (canonical (Z.pos o * 2 ^ (s - 1074)) 0) as [C K].
    destruct Hc as (H1 & H2 & H3 & H4).
    split; [exact H1|]. split; [exact H2|].
    rewrite Z.sub_0_r in H4.
    rewrite (Z.max_l K 0), (Z.max_r (- K) 0) by lia.
    rewrite <- H4, E. rewrite Z.pow_0_r, Z.mul_1_r, <- Z.mul_assoc, <- Z.pow_add_r by lia.
    do 2 f_equal. lia.
  - apply Z.leb_gt in Es.
    assert (H5 : 0 < 5 ^ (1074 - s)) by (apply Z.pow_pos_nonneg; lia).
    split; [nia|]. split.
    + apply odd_mod10. rewrite Z.odd_mul, Ho, odd_pow5 by lia. reflexivity.
    + rewrite (Z.max_r (s - 1074) 0), (Z.max_l (- (s - 1074)) 0) by lia.
      rewrite Z.pow_0_r, Z.mul_1_r, E.
      replace (- (s - 1074)) with (1074 - s) by lia.
      replace (10 ^ (1074 - s)) with (5 ^ (1074 - s) * 2 ^ (1074 - s))
        by (rewrite <- Z.pow_mul_l; reflexivity).
      replace (2 ^ 1074) with (2 ^ s * 2 ^ (1074 - s))
        by (rewrite <- Z.pow_add_r by lia; f_equal; lia).
      ring.
Qed.

Lemma float_of_exact_decimal neg n :
  binary64 (FFin neg n) ->
  let (C, K) := exact_decimal n in float_of_decimal neg C K = FFin neg n.
Proof.
  intros Hb. pose proof (exact_decimal_spec n) as H.
  destruct (exact_decimal n) as [C K]. destruct H as (H1 & H2 & H3).
  unfold float_of_decimal.
  assert (Hz : (C =? 0) = false) by (apply Z.eqb_neq; lia).
  rewrite Hz, H3. apply round_units_exact; [exact Hb|].
  apply Z.pow_pos_nonneg; lia.
Qed.

Lemma reads_back_spec n c k :
  reads_back n (c, k) = true -> float_of_decimal false c k = FFin false n.
Proof.
  unfold reads_back. cbn [fst snd].
  pose proof (float_of_decimal_sign false c k) as S.
  destruct (float_of_decimal false c k) as [| | |b n'] eqn:E; try discriminate.
  intros H. apply Pos.eqb_eq in H. subst n'. cbn [set_sign] in S. exact S.
Qed.

Lemma candidates_nonneg C K t c k :
  0 < C -> 0 <= t -> In (c, k) (candidates C K t) -> 0 <= c.
Proof.
  intros HC Ht. unfold candidates.
  assert (H10 : 0 < 10 ^ t) by (apply Z.pow_pos_nonneg; lia).
  assert (Hlo : 0 <= C / 10 ^ t) by (apply Z.div_pos; lia).
  repeat match goal with |- context [if ?b then _ else _] => destruct b end;
    cbn [In]; intros [E|[E|[]]]; inversion E; subst; lia.
Qed.

Lemma shortest_spec n C K t :
  0 < C -> C mod 10 <> 0 -> float_of_decimal false C K = FFin false n ->
  let (c, k) := shortest n C K t in
  0 < c /\ c mod 10 <> 0 /\ float_of_decimal false c k = FFin false n.
Proof.
  intros HC Hm HE. induction t as [|t IH]; cbn [shortest]; [now repeat split|].
  destruct (List.filter (reads_back n) _) as [|[c k] l] eqn:Ef; [exact IH|].
  assert (Hin : In (c, k) (List.filter (reads_back n)
                   (map (fun ck => canonical (fst ck) (snd ck))
                      (candidates C K (Z.of_nat (S t)))))).
  { rewrite Ef. now left. }
  apply List.filter_In in Hin. destruct Hin as [Hin Hr].
  apply reads_back_spec in Hr.
  apply in_map_iff in Hin. destruct Hin as ([c0 k0] & Ec & Hc0). cbn [fst snd] in Ec.
  apply candidates_nonneg in Hc0; [|exact HC|lia].
  assert (H0 : c0 = 0 \/ 0 < c0) by lia. destruct H0 as [-> | Hpos].
  - cbn in Ec. inversion Ec; subst. discriminate Hr.
  - pose proof (canonical_spec c0 k0 Hpos) as Hs. rewrite Ec in Hs.
    destruct Hs as (H1 & H2 & _). now repeat split.
Qed.

(** The digits of [repr] read back as the float. *)
Lemma repr_decimal_spec n :
  binary64 (FFin false n) ->
  let (c, k) := repr_decimal n in
  0 < c /\ c mod 10 <> 0 /\ float_of_decimal false c k = FFin false n.
Proof.
  intros Hb. unfold repr_decimal.
  pose proof (exact_decimal_spec n) as Hs.
  pose proof (float_of_exact_decimal false n Hb) as He.
  destruct (exact_decimal n) as [C K]. destruct Hs as (H1 & H2 & _).
  now apply shortest_spec.
Qed.

Lemma shortest_pos n C K t : 0 < C -> 0 < fst (shortest n C K t).
Proof.
  intros HC. induction t as [|t IH]; cbn [shortest]; [exact HC|].
  destruct (List.filter (reads_back n) _) as [|[c k] l] eqn:Ef; [exact IH|].
  assert (Hin : In (c, k) (List.filter (reads_back n)
                   (map (fun ck => canonical (fst ck) (snd ck))
                      (candidates C K (Z.of_nat (S t)))))).
  { rewrite Ef. now left. }
  apply List.filter_In in Hin. destruct Hin as [Hin Hr].
  apply reads_back_spec in Hr.
  apply in_map_iff in Hin. destruct Hin as ([c0 k0] & Ec & Hc0). cbn [fst snd] in Ec.
  apply candidates_nonneg in Hc0; [|exact HC|lia].
  assert (H0 : c0 = 0 \/ 0 < c0) by lia. destruct H0 as [-> | Hpos].
  - cbn in Ec. inversion Ec; subst. discriminate Hr.
  - pose proof (canonical_spec c0 k0 Hpos) as Hs. rewrite Ec in Hs.
    cbn [fst]. apply Hs.
Qed.

Lemma repr_decimal_pos n : 0 < fst (repr_decimal n).
Proof.
  unfold repr_decimal. pose proof (exact_decimal_spec n) as Hs.
  destruct (exact_decimal n) as [C K]. apply shortest_pos. apply Hs.
Qed.


(** ** The text of a float *)


Lemma delimited_stops rest : delimited rest = true -> stops rest.
Proof.
  unfold stops. destruct rest as [|c r]; [reflexivity|].
  ascii_cases c; cbn; intros H; try discriminate H; reflexivity.
Qed.

Lemma parse_digits_stop d rest :
  stops rest -> parse_digits (chars_of_uint d ++ rest) = (d, rest).
Proof.
  intros H. induction d; cbn [chars_of_uint app];
    [ exact H | .. ];
    cbn [parse_digits]; cbn [digit_of_char digit_char]; cbn; rewrite IHd; reflexivity.
Qed.

Lemma stops_point r : stops ("."%char :: r).
Proof. reflexivity. Qed.

Lemma stops_e r : stops ("e"%char :: r).
Proof. reflexivity. Qed.


Lemma parse_number_parts neg d tail :
  int_part d -> stops tail ->
  parse_number (sign_chars neg ++ chars_of_uint d ++ tail)
  = (let (f, rest1) := parse_frac tail in
     let (e, rest2) := parse_exp rest1 in
     match f, e with
     | Nil, None => Some (JNum (if neg then - Z.of_uint d else Z.of_uint d), tail)
     | _, _ => Some (JFloat (float_of_literal neg d f (default 0 e)), rest2)
     end).
Proof.
  intros Hd Ht. pose proof (parse_digits_stop d tail Ht) as P.
  assert (Hhead : forall r, exists c tl, chars_of_uint d ++ r = c :: tl
                              /\ (N_of_ascii c =? 45)%N = false).
  { intros r. destruct Hd as [-> | Hd]; [eexists _, _; split; reflexivity|].
    destruct d; cbn in Hd; try contradiction; eexists _, _; split; reflexivity. }
  unfold parse_number. destruct neg; cbn [sign_chars app].
  - change (N_of_ascii "-" =? 45)%N with true. cbv iota. rewrite P.
    destruct Hd as [-> | Hd]; [reflexivity|].
    destruct d; cbn in Hd; try contradiction; reflexivity.
  - destruct (Hhead tail) as (c & tl & E & Hm). rewrite E, Hm. cbv iota.
    rewrite <- E, P.
    destruct Hd as [-> | Hd]; [reflexivity|].
    destruct d; cbn in Hd; try contradiction; reflexivity.
Qed.

Lemma parse_frac_digits f rest :
  f <> Nil -> stops rest ->
  parse_frac ("."%char :: chars_of_uint f ++ rest) = (f, rest).
Proof.
  intros Hf Hr. unfold parse_frac.
  change (N_of_ascii "." =? 46)%N with true. cbv iota.
  rewrite (parse_digits_stop f rest Hr). destruct f; [contradiction | reflexivity ..].
Qed.

Lemma parse_frac_none rest :
  delimited rest = true \/ (exists r, rest = "e"%char :: r) -> parse_frac rest = (Nil, rest).
Proof.
  intros [H | [r ->]]; [|reflexivity].
  destruct rest as [|c r]; [reflexivity|].
  ascii_cases c; cbn; try discriminate H; reflexivity.
Qed.

Lemma parse_exp_none rest : delimited rest = true -> parse_exp rest = (None, rest).
Proof.
  intros H. destruct rest as [|c r]; [reflexivity|].
  ascii_cases c; cbn; try discriminate H; reflexivity.
Qed.


Lemma parse_exp_encoded e rest :
  e <> 0 -> stops rest ->
  parse_exp ("e"%char :: encode_exponent e ++ rest) = (Some e, rest).
Proof.
  intros He Hr. unfold parse_exp, encode_exponent.
  change ((N_of_ascii "e" =? 101)%N || (N_of_ascii "e" =? 69)%N) with true. cbv iota.
  set (d := Pos.to_uint (Z.to_pos (Z.abs e))).
  set (D := if Z.abs e <? 10 then D0 d else d).
  assert (Hv : Z.of_uint D = Z.abs e).
  { assert (Z.of_uint d = Z.abs e).
    { unfold d. rewrite of_to_uint, Z2Pos.id by lia. reflexivity. }
    unfold D. destruct (Z.abs e <? 10); [|assumption].
    unfold Z.of_uint in *. cbn [Pos.of_uint]. assumption. }
  assert (Hn : D <> Nil).
  { unfold D. destruct (Z.abs e <? 10); [discriminate|].
    unfold d. apply DecimalPos.Unsigned.to_uint_nonnil. }
  destruct (e <? 0) eqn:Es; cbn [app].
  - change (N_of_ascii "-" =? 45)%N with true. cbv iota.
    rewrite (parse_digits_stop D rest Hr).
    apply Z.ltb_lt in Es.
    destruct D; [contradiction | rewrite Hv; do 2 f_equal; lia ..].
  - change (N_of_ascii "+" =? 45)%N with false.
    change (N_of_ascii "+" =? 43)%N with true. cbv iota.
    rewrite (parse_digits_stop D rest Hr).
    apply Z.ltb_ge in Es.
    destruct D; [contradiction | rewrite Hv; do 2 f_equal; lia ..].
Qed.

Lemma float_of_literal_canonical neg d f e c k :
  0 < c -> c mod 10 <> 0 ->
  append_digits f (Z.of_uint d) = c -> e - Z.of_nat (nb_digits f) = k ->
  float_of_literal neg d f e = float_of_decimal neg c k.
Proof.
  intros Hc Hm Ec Ek. unfold float_of_literal. rewrite Ec, Ek.
  now rewrite (canonical_fixed c k Hc Hm).
Qed.

Lemma lead_nonzero_split j d h t :
  lead_nonzero d -> (0 < j)%nat -> split_uint j d = (h, t) -> lead_nonzero h.
Proof.
  intros Hd Hj E. destruct j as [|j]; [lia|].
  destruct d; cbn in Hd; try contradiction; cbn [split_uint] in E;
    destruct (split_uint j d) as [h' t']; inversion E; subst; exact I.
Qed.


Lemma lead_nonzero_append a b : lead_nonzero a -> lead_nonzero (append_uint a b).
Proof. destruct a; cbn [append_uint lead_nonzero]; auto; contradiction. Qed.

Lemma lead_nonzero_nonnil d : lead_nonzero d -> d <> Nil.
Proof. destruct d; cbn; [contradiction | discriminate ..]. Qed.

Lemma nb_digits_nonnil d : d <> Nil -> (0 < nb_digits d)%nat.
Proof. destruct d; cbn; [contradiction | lia ..]. Qed.

Lemma nb_digits_pos_nonnil d : (0 < nb_digits d)%nat -> d <> Nil.
Proof. destruct d; cbn; [lia | discriminate ..]. Qed.

Lemma tail_match (t : uint) (a b : list ascii) :
  t <> Nil ->
  match t with
  | Nil => a
  | _ => b
  end = b.
Proof. destruct t; [contradiction | reflexivity ..]. Qed.

Lemma parse_number_float neg d tail f rest1 e rest2 :
  int_part d -> stops tail ->
  parse_frac tail = (f, rest1) -> parse_exp rest1 = (e, rest2) ->
  f <> Nil \/ e <> None ->
  parse_number (sign_chars neg ++ chars_of_uint d ++ tail)
  = Some (JFloat (float_of_literal neg d f (default 0 e)), rest2).
Proof.
  intros Hd Ht Ef Ee H. rewrite parse_number_parts by assumption.
  rewrite Ef, Ee. destruct H as [H|H]; destruct f, e; try reflexivity; contradiction.
Qed.

(** The scanner reads the text of a decimal back as the float it
    denotes. *)
Lemma parse_number_format neg c k rest :
  0 < c -> c mod 10 <> 0 -> delimited rest = true ->
  parse_number (sign_chars neg ++ format_decimal 16 false c k ++ rest)
  = Some (JFloat (float_of_decimal neg c k), rest).
Proof.
  intros Hc Hm Hr. unfold format_decimal.
  set (ds := Pos.to_uint (Z.to_pos c)).
  assert (Hv : append_digits ds 0 = c).
  { unfold ds. rewrite <- of_uint_append, of_to_uint, Z2Pos.id by lia. reflexivity. }
  assert (Hl : lead_nonzero ds) by apply to_uint_lead.
  pose proof (nb_digits_nonnil ds (lead_nonzero_nonnil _ Hl)) as Hnd.
  pose proof (delimited_stops rest Hr) as Hs.
  cbv zeta.
  set (nd := Z.of_nat (nb_digits ds)) in *.
  assert (Pe : parse_exp rest = (None, rest)) by now apply parse_exp_none.
  destruct ((nd + k <=? -4) || (16 <? nd + k)) eqn:Eexp.
  - (* exponent form *)
    destruct (split_uint 1 ds) as [h t] eqn:Esp.
    destruct (split_uint_append _ _ _ _ Esp) as [Eapp Enb].
    assert (Hh : lead_nonzero h) by (apply (lead_nonzero_split 1 ds h t); auto; lia).
    assert (Enb1 : nb_digits h = 1%nat) by lia.
    assert (Ent : nd = 1 + Z.of_nat (nb_digits t)).
    { unfold nd. rewrite <- Eapp, nb_digits_append. lia. }
    assert (He : nd + k - 1 <> 0).
    { apply orb_true_iff in Eexp. destruct Eexp as [H|H];
        [apply Z.leb_le in H | apply Z.ltb_lt in H]; lia. }
    assert (Htcase : t = Nil \/ t <> Nil) by (destruct t; auto; right; discriminate).
    destruct Htcase as [-> | Ht].
    + cbn [nb_digits] in Ent. rewrite <- !app_assoc.
      change ([] ++ ("e"%char :: encode_exponent (nd + k - 1)) ++ rest)
        with ("e"%char :: encode_exponent (nd + k - 1) ++ rest).
      rewrite (parse_number_float neg h ("e"%char :: encode_exponent (nd + k - 1) ++ rest) Nil ("e"%char :: encode_exponent (nd + k - 1) ++ rest) (Some (nd + k - 1)) rest);
        [|now right|apply stops_e
         |apply parse_frac_none; right; eexists; reflexivity
         |now apply parse_exp_encoded
         |right; discriminate].
      f_equal. f_equal. f_equal.
      apply float_of_literal_canonical; auto.
      * cbn [append_digits]. rewrite of_uint_append.
        rewrite <- Hv, <- Eapp, append_digits_app. reflexivity.
      * cbn [nb_digits from_option]. unfold id. lia.
    + rewrite (tail_match t _ _ Ht). rewrite <- !app_assoc.
      change (("."%char :: chars_of_uint t) ++ ("e"%char :: encode_exponent (nd + k - 1)) ++ rest)
        with ("."%char :: chars_of_uint t ++ "e"%char :: encode_exponent (nd + k - 1) ++ rest).
      rewrite (parse_number_float neg h ("."%char :: chars_of_uint t ++ "e"%char :: encode_exponent (nd + k - 1) ++ rest) t ("e"%char :: encode_exponent (nd + k - 1) ++ rest) (Some (nd + k - 1)) rest);
        [|now right|apply stops_point
         |apply parse_frac_digits; [assumption | apply stops_e]
         |now apply parse_exp_encoded
         |now left].
      f_equal. f_equal. f_equal.
      apply float_of_literal_canonical; auto.
      * rewrite of_uint_append, <- append_digits_app, Eapp. exact Hv.
      * cbn [from_option]. unfold id. lia.
  - apply orb_false_iff in Eexp. destruct Eexp as [E1 E2].
    apply Z.leb_gt in E1. apply Z.ltb_ge in E2.
    destruct (nd + k <=? 0) eqn:E0.
    + (* a fraction below one *)
      apply Z.leb_le in E0.
      set (F := append_uint (zeros (Z.to_nat (- (nd + k)))) ds).
      assert (HF : F <> Nil).
      { apply nb_digits_pos_nonnil. unfold F. rewrite nb_digits_append. lia. }
      change (("0"%char :: "."%char :: chars_of_uint F) ++ rest)
        with (chars_of_uint (D0 Nil) ++ "."%char :: chars_of_uint F ++ rest).
      rewrite (parse_number_float neg (D0 Nil) ("."%char :: chars_of_uint F ++ rest) F rest None rest);
        [|now left|apply stops_point|now apply parse_frac_digits|exact Pe|now left].
      f_equal. f_equal. f_equal.
      apply float_of_literal_canonical; auto.
      * unfold F. rewrite append_digits_app, append_digits_zeros. cbn. exact Hv.
      * unfold F. rewrite nb_digits_append, nb_digits_zeros. cbn [from_option]. unfold id. lia.
    + apply Z.leb_gt in E0. destruct (nd + k <? nd) eqn:E3.
      * (* the point inside the digits *)
        apply Z.ltb_lt in E3.
        destruct (split_uint (Z.to_nat (nd + k)) ds) as [h t] eqn:Esp.
        destruct (split_uint_append _ _ _ _ Esp) as [Eapp Enb].
        assert (Hh : lead_nonzero h).
        { apply (lead_nonzero_split (Z.to_nat (nd + k)) ds h t); auto. lia. }
        assert (Ent : nd = nd + k + Z.of_nat (nb_digits t)).
        { unfold nd at 1. rewrite <- Eapp, nb_digits_append. unfold nd in *. lia. }
        assert (Ht : t <> Nil) by (apply nb_digits_pos_nonnil; lia).
        rewrite <- !app_assoc.
        change (("."%char :: chars_of_uint t) ++ rest) with ("."%char :: chars_of_uint t ++ rest).
        rewrite (parse_number_float neg h ("."%char :: chars_of_uint t ++ rest) t rest None rest);
          [|now right|apply stops_point|now apply parse_frac_digits|exact Pe|now left].
        f_equal. f_equal. f_equal.
        apply float_of_literal_canonical; auto.
        -- rewrite of_uint_append, <- append_digits_app, Eapp. exact Hv.
        -- cbn [from_option]. unfold id. lia.
      * (* an integer value *)
        apply Z.ltb_ge in E3.
        set (j := Z.to_nat (nd + k - nd)).
        set (I := append_uint ds (zeros j)).
        rewrite <- !app_assoc.
        change (chars ".0" ++ rest) with ("."%char :: chars_of_uint (D0 Nil) ++ rest).
        rewrite (parse_number_float neg I ("."%char :: chars_of_uint (D0 Nil) ++ rest) (D0 Nil) rest None rest);
          [|right; now apply lead_nonzero_append|apply stops_point
           |apply parse_frac_digits; [discriminate | exact Hs]|exact Pe|left; discriminate].
        f_equal. f_equal. f_equal.
        unfold float_of_literal. cbn [append_digits nb_digits from_option]. unfold id.
        assert (EI : Z.of_uint I = c * 10 ^ Z.of_nat j).
        { rewrite of_uint_append. unfold I.
          rewrite append_digits_app, append_digits_zeros, Hv. reflexivity. }
        rewrite EI.
        replace (10 * (c * 10 ^ Z.of_nat j)) with (c * 10 ^ (Z.of_nat j + 1))
          by (rewrite Z.pow_add_r by lia; ring).
        replace (0 - Z.of_nat 1) with (k - (Z.of_nat j + 1)) by (unfold j; lia).
        rewrite canonical_mul by lia. reflexivity.
Qed.

Lemma parse_value_minus f r :
  (forall r', r <> "I"%char :: r') ->
  parse_value (S f) ("-"%char :: r) = parse_number ("-"%char :: r).
Proof.
  intros H. cbn [parse_value].
  change (N_of_ascii "-") with 45%N. cbn [N.eqb Pos.eqb].
  unfold literal. destruct r as [|c r']; [reflexivity|].
  cbn [strip_prefix chars list_ascii_of_string].
  destruct (Ascii.eqb "I" c) eqn:E; [|reflexivity].
  apply Ascii.eqb_eq in E. subst c. exfalso. now apply (H r').
Qed.

Lemma parse_value_digit f c r :
  (48 <=? N_of_ascii c)%N && (N_of_ascii c <=? 57)%N = true ->
  parse_value (S f) (c :: r) = parse_number (c :: r).
Proof. ascii_cases c; intros H; try discriminate H; reflexivity. Qed.

Lemma chars_of_uint_head d :
  d <> Nil ->
  exists c tl, chars_of_uint d = c :: tl
    /\ (48 <=? N_of_ascii c)%N && (N_of_ascii c <=? 57)%N = true.
Proof. destruct d; [contradiction | intros _; eexists _, _; split; reflexivity ..]. Qed.

(** The text of a decimal starts with a digit. *)
Lemma format_decimal_head m z c k :
  0 < c ->
  exists a tl, format_decimal m z c k = a :: tl
    /\ (48 <=? N_of_ascii a)%N && (N_of_ascii a <=? 57)%N = true.
Proof.
  intros Hc. unfold format_decimal. cbv zeta.
  set (ds := Pos.to_uint (Z.to_pos c)).
  assert (Hl : lead_nonzero ds) by apply to_uint_lead.
  pose proof (lead_nonzero_nonnil _ Hl) as Hn.
  destruct (_ || _).
  - destruct (split_uint 1 ds) as [h t] eqn:Esp.
    assert (Hh : lead_nonzero h) by (apply (lead_nonzero_split 1 ds h t); auto; lia).
    destruct (chars_of_uint_head h (lead_nonzero_nonnil _ Hh)) as (a & tl & E & Ha).
    rewrite E. eexists _, _; split; [reflexivity | exact Ha].
  - destruct (_ <=? 0) eqn:E0; [eexists _, _; split; reflexivity|].
    apply Z.leb_gt in E0.
    destruct (_ <? _).
    + destruct (split_uint _ ds) as [h t] eqn:Esp.
      assert (Hh : lead_nonzero h).
      { apply (lead_nonzero_split _ ds h t Hl) in Esp; [exact Esp | lia]. }
      destruct (chars_of_uint_head h (lead_nonzero_nonnil _ Hh)) as (a & tl & E & Ha).
      rewrite E. eexists _, _; split; [reflexivity | exact Ha].
    + rewrite chars_of_uint_append.
      destruct (chars_of_uint_head ds Hn) as (a & tl & E & Ha).
      rewrite E. eexists _, _; split; [reflexivity | exact Ha].
Qed.

Lemma encode_float_head x :
  exists c tl, encode_float x = c :: tl /\ value_start c = true.
Proof.
  destruct x as [|[|]|[|]|[|] n]; cbn [encode_float sign_chars app];
    try (eexists _, _; split; reflexivity).
  pose proof (repr_decimal_pos n) as Hc.
  destruct (repr_decimal n) as [c k]. cbn [fst] in Hc.
  destruct (format_decimal_head 16 false c k Hc) as (a & tl & Ef & Ha).
  rewrite Ef. exists a, tl. split; [reflexivity|].
  unfold value_start. rewrite Ha. now rewrite !orb_true_r.
Qed.

Lemma parse_value_float x :
  binary64 x ->
  forall f rest, delimited rest = true ->
    parse_value (S f) (encode_float x ++ rest) = Some (JFloat x, rest).
Proof.
  intros Hb f rest Hr. destruct x as [|neg|neg|neg n]; cbn [encode_float].
  - reflexivity.
  - destruct neg; reflexivity.
  - assert (Hn : forall b,
               parse_number (sign_chars b ++ chars_of_uint (D0 Nil)
                             ++ "."%char :: chars_of_uint (D0 Nil) ++ rest)
               = Some (JFloat (FZero b), rest)).
    { intros b.
      rewrite (parse_number_float b (D0 Nil)
                 ("."%char :: chars_of_uint (D0 Nil) ++ rest) (D0 Nil) rest None rest);
        [destruct b; reflexivity|now left|apply stops_point
        |apply parse_frac_digits; [discriminate | now apply delimited_stops]
        |now apply parse_exp_none|left; discriminate]. }
    destruct neg.
    + change ((sign_chars true ++ chars "0.0") ++ rest)
        with ("-"%char :: "0"%char :: "."%char :: "0"%char :: rest).
      rewrite parse_value_minus by discriminate. exact (Hn true).
    + change ((sign_chars false ++ chars "0.0") ++ rest)
        with ("0"%char :: "."%char :: "0"%char :: rest).
      rewrite parse_value_digit by reflexivity. exact (Hn false).
  - assert (Hb' : binary64 (FFin false n)) by exact Hb.
    pose proof (repr_decimal_spec n Hb') as Hs.
    destruct (repr_decimal n) as [c k]. destruct Hs as (Hc & Hm & Hf).
    pose proof (parse_number_format neg c k rest Hc Hm Hr) as P.
    rewrite float_of_decimal_sign, Hf in P. cbn [set_sign] in P.
    destruct (format_decimal_head 16 false c k Hc) as (a & tl & Ef & Ha).
    rewrite <- app_assoc. destruct neg; cbn [sign_chars app] in *.
    + rewrite parse_value_minus; [exact P|].
      intros r' E. rewrite Ef in E. inversion E; subst. discriminate Ha.
    + rewrite Ef in *. cbn [app] in *. rewrite parse_value_digit by exact Ha. exact P.
Qed.

Lemma parse_number_encode_int n rest :
  delimited rest = true ->
  parse_number (encode_int n ++ rest) = Some (JNum n, rest).
Proof.
  intros Hr.
  assert (P : forall neg d, int_part d ->
            parse_number (sign_chars neg ++ chars_of_uint d ++ rest)
            = Some (JNum (if neg then - Z.of_uint d else Z.of_uint d), rest)).
  { intros neg d Hd. rewrite parse_number_parts; [|exact Hd|now apply delimited_stops].
    rewrite parse_frac_none by now left. now rewrite parse_exp_none. }
  destruct n as [|p|p]; cbn [encode_int].
  - exact (P false (D0 Nil) (or_introl eq_refl)).
  - pose proof (P false (Pos.to_uint p) (or_intror (to_uint_lead p))) as H.
    cbn [sign_chars app] in H. now rewrite H, of_to_uint.
  - pose proof (P true (Pos.to_uint p) (or_intror (to_uint_lead p))) as H.
    cbn [sign_chars] in H.
    change (("-"%char :: chars_of_uint (Pos.to_uint p)) ++ rest)
      with (["-"%char] ++ chars_of_uint (Pos.to_uint p) ++ rest).
    now rewrite H, of_to_uint.
Qed.

Lemma parse_value_encode_int n f rest :
  delimited rest = true ->
  parse_value (S f) (encode_int n ++ rest) = Some (JNum n, rest).
Proof.
  intros Hr. rewrite <- (parse_number_encode_int n rest Hr).
  destruct n as [|p|p]; cbn [encode_int].
  - now apply parse_value_digit.
  - destruct (chars_of_uint_head (Pos.to_uint p) (DecimalPos.Unsigned.to_uint_nonnil p))
      as (c & tl & E & Hc).
    rewrite E. now apply parse_value_digit.
  - change (("-"%char :: chars_of_uint (Pos.to_uint p)) ++ rest)
      with ("-"%char :: chars_of_uint (Pos.to_uint p) ++ rest).
    apply parse_value_minus. intros r' E.
    destruct (chars_of_uint_head (Pos.to_uint p) (DecimalPos.Unsigned.to_uint_nonnil p))
      as (c & tl & E' & Hc).
    rewrite E' in E. inversion E; subst. discriminate Hc.
Qed.

Lemma value_start_skip c r : value_start c = true -> skip_ws (c :: r) = c :: r.
Proof. ascii_cases c; intros H; try discriminate H; reflexivity. Qed.

Lemma value_start_not_close c :
  value_start c = true ->
  (N_of_ascii c =? 93)%N = false /\ (N_of_ascii c =? 125)%N = false.
Proof. ascii_cases c; intros H; try discriminate H; split; reflexivity. Qed.

Lemma encode_int_head n :
  exists c tl, encode_int n = c :: tl /\ number_start c = true.
Proof.
  destruct n as [|p|p]; cbn [encode_int].
  - eexists _, _; split; reflexivity.
  - destruct (lead_nonzero_head _ (to_uint_lead p)) as (c & tl & E & Hm & Hd).
    exists c, tl. split; [exact E|]. unfold number_start.
    apply orb_true_iff. right.
    apply andb_true_iff in Hd as [H1 H2]. rewrite H2, andb_true_r.
    apply N.leb_le. apply N.leb_le in H1. lia.
  - eexists _, _; split; reflexivity.
Qed.

Lemma encode_head v :
  exists c tl, encode_json v = c :: tl /\ value_start c = true.
Proof.
  destruct v as [|[|]|n|x|s|l|m]; try (eexists _, _; split; reflexivity).
  - destruct (encode_int_head n) as (c & tl & E & H).
    exists c, tl. split; [exact E|].
    unfold number_start in H. unfold value_start.
    apply orb_true_iff in H as [H|H]; rewrite H; rewrite ?orb_true_r; reflexivity.
  - apply encode_float_head.
Qed.

Lemma skip_ws_encode v r : skip_ws (encode_json v ++ r) = encode_json v ++ r.
Proof.
  destruct (encode_head v) as (c & tl & E & H). rewrite E.
  apply (value_start_skip c (tl ++ r) H).
Qed.

Lemma join_items_cons p q ps :
  join_items (p :: q :: ps) = p ++ ","%char :: " "%char :: join_items (q :: ps).
Proof. reflexivity. Qed.

Lemma parse_elements_encoded x l :
  Forall decodes (x :: l) ->
  forall fuel rest, (elems_weight (x :: l) <= fuel)%nat ->
    parse_elements fuel (join_items (map encode_json (x :: l)) ++ "]"%char :: rest)
    = Some (x :: l, rest).
Proof.
  revert x. induction l as [|y l IH]; intros x HF fuel rest Hw;
    inversion HF as [|? ? Hx Hl]; subst;
    destruct fuel as [|f]; cbn [elems_weight fold_right] in Hw; try lia;
    cbn [parse_elements].
  - cbn [map join_items]. rewrite app_nil_r.
    rewrite (Hx f ("]"%char :: rest)) by (reflexivity || lia). reflexivity.
  - cbn [map]. rewrite join_items_cons, <- app_assoc.
    rewrite (Hx f) by (reflexivity || lia).
    change ((","%char :: " "%char :: join_items (encode_json y :: map encode_json l)) ++ "]"%char :: rest)
      with (","%char :: " "%char :: (join_items (map encode_json (y :: l)) ++ "]"%char :: rest)).
    cbv beta iota.
    assert (S : forall t, skip_ws (","%char :: t) = ","%char :: t) by reflexivity.
    rewrite S. cbv beta iota.
    change (N_of_ascii "," =? 44)%N with true. cbv beta iota.
    assert (S2 : forall t, skip_ws (" "%char :: t) = skip_ws t) by reflexivity.
    rewrite S2.
    assert (S3 : skip_ws (join_items (map encode_json (y :: l)) ++ "]"%char :: rest)
                 = join_items (map encode_json (y :: l)) ++ "]"%char :: rest).
    { cbn [map]. destruct l as [|z l'].
      - cbn [map join_items]. rewrite app_nil_r. apply skip_ws_encode.
      - cbn [map]. rewrite join_items_cons, <- app_assoc. apply skip_ws_encode. }
    rewrite S3, (IH y Hl f rest) by (unfold elems_weight in *; cbn [fold_right] in *; lia).
    reflexivity.
Qed.

Lemma encode_member_app k v tail :
  encode_member (k, v) ++ tail
  = dquote :: flat_map escape_char (chars k)
      ++ dquote :: ":"%char :: " "%char :: encode_json v ++ tail.
Proof.
  unfold encode_member, encode_string. cbn [fst snd].
  change (chars ": ") with [":"%char; " "%char].
  repeat (rewrite <- app_assoc || rewrite <- app_comm_cons). reflexivity.
Qed.

Lemma parse_members_step f k v tail :
  decodes v -> (weight v <= f)%nat -> delimited tail = true ->
  parse_members (S f) (encode_member (k, v) ++ tail)
  = match skip_ws tail with
    | c3 :: r4 =>
        if (N_of_ascii c3 =? 44)%N then
          match parse_members f (skip_ws r4) with
          | Some (ps, rest) => Some ((k, v) :: ps, rest)
          | None => None
          end
        else if (N_of_ascii c3 =? 125)%N then Some ([(k, v)], r4)
        else None
    | [] => None
    end.
Proof.
  intros Hv Hw Ht. rewrite encode_member_app. cbn [parse_members].
  change (N_of_ascii dquote =? 34)%N with true. cbv beta iota.
  rewrite parse_string_encoded. unfold chars.
  rewrite string_of_list_ascii_of_string.
  assert (S1 : forall t, skip_ws (":"%char :: t) = ":"%char :: t) by reflexivity.
  assert (S2 : forall t, skip_ws (" "%char :: t) = skip_ws t) by reflexivity.
  rewrite S1. cbv beta iota. change (N_of_ascii ":" =? 58)%N with true. cbv beta iota.
  rewrite S2, skip_ws_encode, (Hv f tail Hw Ht). reflexivity.
Qed.

Lemma encode_member_skip kv r : skip_ws (encode_member kv ++ r) = encode_member kv ++ r.
Proof. destruct kv as [k v]. rewrite encode_member_app. reflexivity. Qed.

Lemma parse_members_encoded kv m :
  Forall (fun kv => decodes (snd kv)) (kv :: m) ->
  forall fuel rest, (members_weight (kv :: m) <= fuel)%nat ->
    parse_members fuel (join_items (map encode_member (kv :: m)) ++ "}"%char :: rest)
    = Some (kv :: m, rest).
Proof.
  revert kv. induction m as [|kv' m IH]; intros [k v] HF fuel rest Hw;
    inversion HF as [|? ? Hx Hl]; subst; cbn [snd] in Hx;
    destruct fuel as [|f]; unfold members_weight in Hw;
    cbn [fold_right snd] in Hw; try lia.
  - cbn [map join_items]. rewrite app_nil_r.
    rewrite parse_members_step by (assumption || reflexivity || lia). reflexivity.
  - cbn [map]. rewrite join_items_cons, <- app_assoc.
    rewrite parse_members_step by (assumption || reflexivity || lia).
    change ((","%char :: " "%char :: join_items (encode_member kv' :: map encode_member m))
              ++ "}"%char :: rest)
      with (","%char :: " "%char :: (join_items (map encode_member (kv' :: m)) ++ "}"%char :: rest)).
    assert (S1 : forall t, skip_ws (","%char :: t) = ","%char :: t) by reflexivity.
    assert (S2 : forall t, skip_ws (" "%char :: t) = skip_ws t) by reflexivity.
    rewrite S1. cbv beta iota. change (N_of_ascii "," =? 44)%N with true. cbv beta iota.
    rewrite S2.
    assert (S3 : skip_ws (join_items (map encode_member (kv' :: m)) ++ "}"%char :: rest)
                 = join_items (map encode_member (kv' :: m)) ++ "}"%char :: rest).
    { cbn [map]. destruct m as [|z m'].
      - cbn [map join_items]. rewrite app_nil_r. apply encode_member_skip.
      - cbn [map]. rewrite join_items_cons, <- app_assoc. apply encode_member_skip. }
    rewrite S3, (IH kv' Hl f rest)
      by (unfold members_weight in *; cbn [fold_right] in *; lia).
    reflexivity.
Qed.

Lemma dict_set_fresh k v d :
  k ∉ map fst d -> dict_set k v d = d ++ [(k, v)].
Proof.
  induction d as [|[k' v'] d IH]; intros H; [reflexivity|]. cbn [dict_set].
  cbn [map fst] in H. apply not_elem_of_cons in H as [Hne H].
  destruct (String.eqb_spec k k') as [->|_]; [congruence|].
  now rewrite IH.
Qed.

Lemma fold_dict_set_nodup m acc :
  NoDup (map fst (acc ++ m)) ->
  fold_left (fun d kv => dict_set (fst kv) (snd kv) d) m acc = acc ++ m.
Proof.
  revert acc. induction m as [|[k v] m IH]; intros acc H; cbn [fold_left].
  - now rewrite app_nil_r.
  - cbn [fst snd]. rewrite dict_set_fresh.
    + rewrite IH; now rewrite <- app_assoc.
    + rewrite map_app in H. apply NoDup_app in H as (_ & H & _).
      intros Hin. apply (H k Hin). cbn [map fst]. apply elem_of_cons. now left.
Qed.

Lemma dict_of_pairs_nodup m : NoDup (map fst m) -> dict_of_pairs m = m.
Proof. intros H. apply (fold_dict_set_nodup m []). exact H. Qed.

Lemma wf_json_arr l : wf_json (JArr l) <-> Forall wf_json l.
Proof.
  induction l as [|x l IH]; cbn.
  - split; auto.
  - split.
    + intros [Hx Hl]. constructor; [exact Hx | now apply IH].
    + intros H. inversion H; subst. split; [assumption | now apply IH].
Qed.

Lemma wf_json_obj m :
  wf_json (JObj m) <-> NoDup (map fst m) /\ Forall (fun kv => wf_json (snd kv)) m.
Proof.
  cbn [wf_json]. apply and_iff_compat_l.
  induction m as [|x m IH].
  - split; auto.
  - split.
    + intros [Hx Hl]. constructor; [exact Hx | now apply IH].
    + intros H. inversion H; subst. split; [assumption | now apply IH].
Qed.

Lemma parse_value_encode v : wf_json v -> decodes v.
Proof.
  induction v as [| b | n | x | s | l IH | m IH] using json_nested_ind;
    intros Hwf fuel rest Hw Hr; (destruct fuel as [|f]; [cbn in Hw; lia|]).
  - reflexivity.
  - destruct b; reflexivity.
  - cbn [encode_json]. now apply parse_value_encode_int.
  - cbn [encode_json]. apply parse_value_float; [apply Hwf | exact Hr].
  - cbn [encode_json]. unfold encode_string.
    change ((dquote :: flat_map escape_char (chars s) ++ [dquote]) ++ rest)
      with (dquote :: (flat_map escape_char (chars s) ++ [dquote]) ++ rest).
    rewrite <- app_assoc. cbn [app parse_value].
    change (N_of_ascii dquote =? 34)%N with true. cbv beta iota.
    rewrite parse_string_encoded. unfold chars.
    now rewrite string_of_list_ascii_of_string.
  - cbn [encode_json].
    change (("["%char :: join_items (map encode_json l) ++ ["]"%char]) ++ rest)
      with ("["%char :: (join_items (map encode_json l) ++ ["]"%char]) ++ rest).
    rewrite <- app_assoc.
    change (["]"%char] ++ rest) with ("]"%char :: rest).
    apply wf_json_arr in Hwf.
    destruct l as [|x l]; [reflexivity|].
    assert (HF : Forall decodes (x :: l)).
    { clear - IH Hwf. induction IH as [|y l' Hy Hl IHl]; [constructor|].
      inversion Hwf; subst. constructor; auto. }
    pose proof (parse_elements_encoded x l HF f rest) as PE.
    cbn [weight] in Hw. fold (elems_weight (x :: l)) in Hw.
    specialize (PE ltac:(lia)).
    remember (join_items (map encode_json (x :: l)) ++ "]"%char :: rest) as body eqn:Eb.
    assert (Hs : skip_ws body = body).
    { subst body. cbn [map]. destruct l as [|z l'].
      - cbn [map join_items]. rewrite app_nil_r. apply skip_ws_encode.
      - cbn [map]. rewrite join_items_cons, <- app_assoc. apply skip_ws_encode. }
    assert (Hh : exists c tl, body = c :: tl /\ value_start c = true).
    { subst body. cbn [map]. destruct (encode_head x) as (c & tl & E & Hc).
      destruct l as [|z l'].
      - cbn [map join_items]. rewrite E. eexists _, _; split; [reflexivity|exact Hc].
      - cbn [map]. rewrite join_items_cons, E. eexists _, _; split; [reflexivity|exact Hc]. }
    destruct Hh as (c & tl & E & Hc).
    destruct (value_start_not_close c Hc) as [H93 _].
    cbn [parse_value]. change (N_of_ascii "[" =? 34)%N with false.
    change (N_of_ascii "[" =? 91)%N with true. cbv beta iota.
    rewrite Hs, E, H93. rewrite <- E, PE. reflexivity.
  - cbn [encode_json].
    change (map (fun kv => encode_string (fst kv) ++ chars ": " ++ encode_json (snd kv)) m)
      with (map encode_member m).
    change (("{"%char :: join_items (map encode_member m) ++ ["}"%char]) ++ rest)
      with ("{"%char :: (join_items (map encode_member m) ++ ["}"%char]) ++ rest).
    rewrite <- app_assoc.
    change (["}"%char] ++ rest) with ("}"%char :: rest).
    apply wf_json_obj in Hwf. destruct Hwf as [Hnd Hwf].
    destruct m as [|kv m]; [reflexivity|].
    assert (HF : Forall (fun kv => decodes (snd kv)) (kv :: m)).
    { clear - IH Hwf. induction IH as [|y l' Hy Hl IHl]; [constructor|].
      inversion Hwf; subst. constructor; auto. }
    pose proof (parse_members_encoded kv m HF f rest) as PE.
    cbn [weight] in Hw. fold (members_weight (kv :: m)) in Hw.
    specialize (PE ltac:(lia)).
    remember (join_items (map encode_member (kv :: m)) ++ "}"%char :: rest) as body eqn:Eb.
    assert (Hh : exists tl, body = dquote :: tl).
    { subst body. cbn [map]. destruct kv as [k v]. destruct m as [|z m'].
      - cbn [map join_items]. rewrite app_nil_r, encode_member_app. eexists; reflexivity.
      - cbn [map]. rewrite join_items_cons, <- app_assoc, encode_member_app.
        eexists; reflexivity. }
    destruct Hh as (tl & E).
    cbn [parse_value]. change (N_of_ascii "{" =? 34)%N with false.
    change (N_of_ascii "{" =? 91)%N with false.
    change (N_of_ascii "{" =? 123)%N with true. cbv beta iota.
    rewrite E.
    change (skip_ws (dquote :: tl)) with (dquote :: tl). cbv beta iota.
    change (N_of_ascii dquote =? 125)%N with false. cbv beta iota.
    rewrite <- E, PE, (dict_of_pairs_nodup _ Hnd). reflexivity.
Qed.

Lemma join_items_length_cons p q ps :
  List.length (join_items (p :: q :: ps))
  = (List.length p + 2 + List.length (join_items (q :: ps)))%nat.
Proof. rewrite join_items_cons, length_app. cbn [List.length]. lia. Qed.

Lemma elems_weight_le (parts : list (nat * list ascii)) :
  Forall (fun wp => (fst wp <= List.length (snd wp))%nat) parts ->
  (fold_right (fun wp a => S (fst wp + a)) 0%nat parts
   <= S (List.length (join_items (map snd parts))))%nat.
Proof.
  induction 1 as [|[w p] ps Hx Hl IH]; cbn [fold_right map fst snd] in *; [lia|].
  destruct ps as [|q ps].
  - cbn [fold_right map join_items]. rewrite app_nil_r. lia.
  - cbn [map] in *. rewrite join_items_length_cons. cbn [fold_right] in *. lia.
Qed.

Lemma weight_le_length v : (weight v <= List.length (encode_json v))%nat.
Proof.
  induction v as [| b | n | x | s | l IH | m IH] using json_nested_ind.
  - cbn. lia.
  - destruct b; cbn; lia.
  - destruct (encode_int_head n) as (c & tl & E & _). cbn [encode_json weight].
    rewrite E. cbn [List.length]. lia.
  - destruct (encode_float_head x) as (c & tl & E & _). cbn [encode_json weight].
    rewrite E. cbn [List.length]. lia.
  - cbn [encode_json weight]. unfold encode_string. cbn [List.length]. lia.
  - cbn [encode_json weight List.length]. rewrite length_app. cbn [List.length].
    pose proof (elems_weight_le (map (fun x => (weight x, encode_json x)) l)) as H.
    rewrite map_map in H. cbn [snd] in H.
    assert (E : fold_right (fun wp a => S (fst wp + a)) 0%nat
                  (map (fun x => (weight x, encode_json x)) l)
                = fold_right (fun x a => S (weight x + a)) 0%nat l).
    { clear. induction l as [|x l IHl]; cbn [map fold_right fst]; congruence. }
    rewrite E in H. specialize (H ltac:(now apply Forall_map)).
    change (map (fun x => encode_json x) l) with (map encode_json l) in H. lia.
  - cbn [encode_json weight List.length]. rewrite length_app. cbn [List.length].
    pose proof (elems_weight_le
                  (map (fun kv => (weight (snd kv), encode_member kv)) m)) as H.
    rewrite map_map in H. cbn [snd] in H.
    assert (E : fold_right (fun wp a => S (fst wp + a)) 0%nat
                  (map (fun kv => (weight (snd kv), encode_member kv)) m)
                = fold_right (fun kv a => S (weight (snd kv) + a)) 0%nat m).
    { clear. induction m as [|x l IHl]; cbn [map fold_right fst]; congruence. }
    rewrite E in H.
    assert (HF : Forall (fun wp : nat * list ascii => (fst wp <= List.length (snd wp))%nat)
                   (map (fun kv => (weight (snd kv), encode_member kv)) m)).
    { apply Forall_map. eapply Forall_impl; [exact IH|].
      intros [k v] Hkv. cbn [fst snd] in *. unfold encode_member.
      rewrite !length_app. cbn [snd]. lia. }
    specialize (H HF).
    change (map (fun kv => encode_member kv) m) with (map encode_member m) in H.
    change (map (fun kv => encode_string (fst kv) ++ chars ": " ++ encode_json (snd kv)) m)
      with (map encode_member m).
    lia.
Qed.

Theorem loads_dumps v : wf_json v -> loads (dumps v) = Some v.
Proof.
  intros Hwf. unfold loads, dumps, chars.
  rewrite list_ascii_of_string_of_list_ascii.
  pose proof (skip_ws_encode v []) as Hs. rewrite app_nil_r in Hs. rewrite Hs.
  pose proof (parse_value_encode v Hwf (S (List.length (encode_json v))) []) as P.
  rewrite app_nil_r in P. rewrite P; [reflexivity | | reflexivity].
  pose proof (weight_le_length v). lia.
Qed.

(** ** Store initialization *)

Lemma has_table_create name cols d :
  has_table name (create_table_if_not_exists name cols d) = true.
Proof.
  unfold create_table_if_not_exists. destruct (has_table name d) eqn:E; [exact E|].
  unfold has_table. cbn [master]. rewrite existsb_app. cbn.
  rewrite String.eqb_refl. now rewrite orb_true_r.
Qed.

Lemma create_table_fixed name cols d :
  has_table name d = true -> create_table_if_not_exists name cols d = d.
Proof. intros H. unfold create_table_if_not_exists. now rewrite H. Qed.

Lemma has_table_grows name o d rs s :
  has_table name d = true ->
  has_table name {| master := master d ++ [o]; rows := rs; sqlite_sequence := s |} = true.
Proof. unfold has_table. cbn [master]. rewrite existsb_app. now intros ->. Qed.

Lemma has_index_grows name o d rs s :
  has_index name d = true ->
  has_index name {| master := master d ++ [o]; rows := rs; sqlite_sequence := s |} = true.
Proof. unfold has_index. cbn [master]. rewrite existsb_app. now intros ->. Qed.

Lemma has_table_create_other name name' cols d :
  has_table name d = true ->
  has_table name (create_table_if_not_exists name' cols d) = true.
Proof.
  intros H. unfold create_table_if_not_exists.
  destruct (has_table name' d); [exact H | now apply has_table_grows].
Qed.

Lemma has_index_create_table name name' cols d :
  has_index name d = true ->
  has_index name (create_table_if_not_exists name' cols d) = true.
Proof.
  intros H. unfold create_table_if_not_exists.
  destruct (has_table name' d); [exact H | now apply has_index_grows].
Qed.

Lemma create_index_ok name table column d :
  has_table table d = true ->
  exists d', create_index_if_not_exists name table column d = Ok d'
    /\ has_index name d' = true /\ has_table table d' = true
    /\ rows d' = rows d /\ sqlite_sequence d' = sqlite_sequence d
    /\ (forall t, has_table t d = true -> has_table t d' = true)
    /\ (has_index name d = true -> d' = d).
Proof.
  intros Ht. unfold create_index_if_not_exists.
  destruct (has_index name d) eqn:Hi.
  - exists d. repeat apply conj; auto.
  - rewrite Ht. eexists. split; [reflexivity|]. repeat apply conj; try reflexivity.
    + unfold has_index. cbn [master]. rewrite existsb_app. cbn.
      rewrite String.eqb_refl. now rewrite orb_true_r.
    + now apply has_table_grows.
    + intros t. apply has_table_grows.
    + discriminate.
Qed.

Lemma rows_create_table name cols d :
  rows (create_table_if_not_exists name cols d) = rows d
  /\ sqlite_sequence (create_table_if_not_exists name cols d) = sqlite_sequence d.
Proof. unfold create_table_if_not_exists. destruct (has_table name d); split; reflexivity. Qed.

Lemma has_table_names name d :
  has_table name d = false -> name ∉ table_names d.
Proof.
  unfold has_table, table_names. induction (master d) as [|o m IH]; cbn.
  - intros _ H. inversion H.
  - destruct o as [n c | n t c]; cbn.
    + intros H. apply orb_false_iff in H as [Hn Hm].
      apply not_elem_of_cons. split; [|now apply IH].
      apply String.eqb_neq in Hn. congruence.
    + exact IH.
Qed.

Lemma has_index_names name d :
  has_index name d = false -> name ∉ index_names d.
Proof.
  unfold has_index, index_names. induction (master d) as [|o m IH]; cbn.
  - intros _ H. inversion H.
  - destruct o as [n c | n t c]; cbn.
    + exact IH.
    + intros H. apply orb_false_iff in H as [Hn Hm].
      apply not_elem_of_cons. split; [|now apply IH].
      apply String.eqb_neq in Hn. congruence.
Qed.

Lemma unique_names_create_table name cols d :
  unique_names d -> unique_names (create_table_if_not_exists name cols d).
Proof.
  intros [Ht Hi]. unfold create_table_if_not_exists.
  destruct (has_table name d) eqn:E; [now split|].
  unfold unique_names, table_names, index_names. cbn [master].
  rewrite !List.filter_app, !map_app. cbn. rewrite app_nil_r. split; [|exact Hi].
  apply NoDup_app. repeat split; [exact Ht | | apply NoDup_singleton].
  intros x Hx Hx'. apply list_elem_of_singleton in Hx'. subst x.
  now apply (has_table_names name d E).
Qed.

Lemma unique_names_create_index name table column d d' :
  create_index_if_not_exists name table column d = Ok d' ->
  unique_names d -> unique_names d'.
Proof.
  unfold create_index_if_not_exists. intros H [Ht Hi].
  destruct (has_index name d) eqn:E; [injection H as <-; now split|].
  destruct (has_table table d); [|discriminate]. injection H as <-.
  unfold unique_names, table_names, index_names. cbn [master].
  rewrite !List.filter_app, !map_app. cbn. rewrite app_nil_r. split; [exact Ht|].
  apply NoDup_app. repeat split; [exact Hi | | apply NoDup_singleton].
  intros x Hx Hx'. apply list_elem_of_singleton in Hx'. subst x.
  now apply (has_index_names name d E).
Qed.

(** What the schema statements of [setup_database] do to a database. *)
Lemma setup_database_schema db_path fs :
  let d := durable (connect db_path fs) in
  exists d', setup_database db_path fs = Ok (<[db_path := d']> fs)
    /\ has_table "brainwaves_raw" d' = true
    /\ has_index "idx_timestamp" d' = true
    /\ has_table "aggregated_data" d' = true
    /\ rows d' = rows d /\ sqlite_sequence d' = sqlite_sequence d
    /\ (unique_names d -> unique_names d')
    /\ (has_table "brainwaves_raw" d = true -> has_index "idx_timestamp" d = true ->
        has_table "aggregated_data" d = true -> d' = d).
Proof.
  intros d. unfold setup_database. fold d.
  set (d1 := create_table_if_not_exists "brainwaves_raw" brainwaves_raw_columns d).
  destruct (create_index_ok "idx_timestamp" "brainwaves_raw" "timestamp" d1)
    as (d2 & E & Hi & Ht & Hr & Hs & Hmono & Hfix); [apply has_table_create|].
  rewrite E. eexists. split; [reflexivity|].
  destruct (rows_create_table "brainwaves_raw" brainwaves_raw_columns d) as [R1 S1].
  destruct (rows_create_table "aggregated_data" aggregated_data_columns d2) as [R3 S3].
  repeat apply conj.
  - now apply has_table_create_other.
  - now apply has_index_create_table.
  - apply has_table_create.
  - now rewrite R3, Hr.
  - now rewrite S3, Hs.
  - intros U. apply unique_names_create_table.
    eapply unique_names_create_index; [exact E|].
    now apply unique_names_create_table.
  - intros H1 H2 H3. subst d1. rewrite (create_table_fixed _ _ _ H1) in *.
    rewrite (Hfix H2). now apply create_table_fixed.
Qed.

(** What the schema statements of [init_database] do to a database. *)
Lemma init_database_schema db_path fs :
  let d := durable (connect db_path fs) in
  exists d', init_database db_path fs = Ok {| durable := d'; view := d' |}
    /\ has_table "brainwaves_raw" d' = true
    /\ has_index "idx_timestamp" d' = true
    /\ rows d' = rows d /\ sqlite_sequence d' = sqlite_sequence d
    /\ (unique_names d -> unique_names d')
    /\ (forall t, has_table t d = true -> has_table t d' = true)
    /\ (has_table "aggregated_data" d = false -> has_table "aggregated_data" d' = false)
    /\ (has_table "brainwaves_raw" d = true -> has_index "idx_timestamp" d = true -> d' = d).
Proof.
  intros d. unfold init_database. fold d.
  set (d1 := create_table_if_not_exists "brainwaves_raw" brainwaves_raw_columns d).
  destruct (create_index_ok "idx_timestamp" "brainwaves_raw" "timestamp" d1)
    as (d2 & E & Hi & Ht & Hr & Hs & Hmono & Hfix); [apply has_table_create|].
  rewrite E. eexists. split; [reflexivity|].
  destruct (rows_create_table "brainwaves_raw" brainwaves_raw_columns d) as [R1 S1].
  repeat apply conj; auto.
  - now rewrite Hr.
  - now rewrite Hs.
  - intros U. eapply unique_names_create_index; [exact E|].
    now apply unique_names_create_table.
  - intros t H. apply Hmono. now apply has_table_create_other.
  - intros Hn. revert E. unfold create_index_if_not_exists.
    assert (H1 : has_table "aggregated_data" d1 = false).
    { subst d1. unfold create_table_if_not_exists.
      destruct (has_table "brainwaves_raw" d); [exact Hn|].
      unfold has_table in *. cbn [master]. rewrite existsb_app, Hn. reflexivity. }
    destruct (has_index "idx_timestamp" d1); [now intros [= <-]|].
    destruct (has_table "brainwaves_raw" d1); [|discriminate].
    intros [= <-]. unfold has_table in *. cbn [master]. rewrite existsb_app, H1. reflexivity.
  - intros H1 H2. subst d1. rewrite (create_table_fixed _ _ _ H1) in *. now apply Hfix.
Qed.

(** ** Flushing *)

Lemma has_table_insert_all name clock user items : forall k d,
  has_table name (insert_all clock user k items d) = has_table name d.
Proof.
  induction items as [|item items IH]; intros k d; cbn [insert_all]; [reflexivity|].
  now rewrite IH.
Qed.

Lemma contents_insert_all clock user items : forall k d,
  map contents (rows (insert_all clock user k items d))
  = map contents (rows d)
    ++ map (fun ki => (item_timestamp (clock (fst ki)) (snd ki), dumps (JObj (snd ki)), user))
         (combine (List.seq k (List.length items)) items).
Proof.
  induction items as [|item items IH]; intros k d; cbn [insert_all].
  - cbn. now rewrite app_nil_r.
  - rewrite IH. cbn [insert_row rows]. rewrite map_app, <- app_assoc. reflexivity.
Qed.

Lemma storable_bind now item :
  storable item = true ->
  bind_text (dict_get_default "timestamp" (JStr now) item)
  = Ok (item_timestamp now item).
Proof.
  unfold storable, item_timestamp, dict_get_default.
  destruct (dict_get "timestamp" item) as [v|]; [|reflexivity].
  destruct (bind_text v); [reflexivity | discriminate].
Qed.

Lemma insert_items_ok f clock user items : forall k c,
  has_table "brainwaves_raw" (view c) = true ->
  forallb storable items = true ->
  spares f k (List.length items) ->
  insert_items f clock user k items c
  = ({| durable := durable c; view := insert_all clock user k items (view c) |}, Ok tt).
Proof.
  induction items as [|item items IH]; intros k c Ht Hs Hf.
  - destruct c. reflexivity.
  - cbn [forallb] in Hs. apply andb_true_iff in Hs as [Hi Hs].
    cbn [insert_items insert_all]. unfold mbind, sql_bind, execute_insert.
    rewrite Ht, (storable_bind _ _ Hi).
    assert (Hk : fails_execute f k = false).
    { destruct f as [| |j|]; try reflexivity. cbn in *. apply Nat.eqb_neq. lia. }
    rewrite Hk. rewrite IH; [reflexivity | exact Ht | exact Hs |].
    destruct f as [| |j|]; cbn in *; try exact I. lia.
Qed.

(** The statements of a flush that nothing disturbs: every item becomes a
    row and the rows are committed together. *)
Lemma flush_statements_ok clock user items c :
  has_table "brainwaves_raw" (view c) = true ->
  forallb storable items = true ->
  (cursor NoFault ;; insert_items NoFault clock user 0 items ;; commit NoFault) c
  = (let v := insert_all clock user 0 items (view c) in
     {| durable := v; view := v |}, Ok tt).
Proof.
  intros Ht Hs. unfold mbind, sql_bind. cbn [cursor mret sql_ret].
  rewrite insert_items_ok by (assumption || exact I). reflexivity.
Qed.

Lemma flush_buffer_ok clock st :
  buffer st <> [] ->
  has_table "brainwaves_raw" (view (conn st)) = true ->
  forallb storable (buffer st) = true ->
  flush_buffer NoFault clock st
  = (let v := insert_all clock (user_name st) 0 (buffer st) (view (conn st)) in
     {| user_name := user_name st; buffer := []; buffer_size := buffer_size st;
        conn := {| durable := v; view := v |};
        stdout := stdout st ++ [Flushed (List.length (buffer st))] |}).
Proof.
  intros Hb Ht Hs. unfold flush_buffer.
  destruct (buffer st) as [|x b] eqn:E; [congruence|]. rewrite <- E in *.
  rewrite flush_statements_ok by assumption. reflexivity.
Qed.

(** A flush that nothing disturbs stores each buffered record once, after
    what the connection held before. *)
Lemma flush_buffer_contents clock st :
  buffer st <> [] ->
  has_table "brainwaves_raw" (view (conn st)) = true ->
  forallb storable (buffer st) = true ->
  map contents (rows (durable (conn (flush_buffer NoFault clock st))))
  = map contents (rows (view (conn st)))
    ++ map (fun ki => (item_timestamp (clock (fst ki)) (snd ki),
                       dumps (JObj (snd ki)), user_name st))
         (combine (List.seq 0 (List.length (buffer st))) (buffer st)).
Proof.
  intros Hb Ht Hs. rewrite flush_buffer_ok by assumption.
  cbn [conn durable]. apply contents_insert_all.
Qed.

(** A flush clears the buffer or leaves it as it was, and tells which. *)
Lemma flush_buffer_outcome f clock st :
  buffer st <> [] ->
  (buffer (flush_buffer f clock st) = []
   /\ stdout (flush_buffer f clock st)
      = stdout st ++ [Flushed (List.length (buffer st))])
  \/ (buffer (flush_buffer f clock st) = buffer st
      /\ exists e, stdout (flush_buffer f clock st) = stdout st ++ [ErrorWriting e]).
Proof.
  intros Hb. unfold flush_buffer.
  destruct (buffer st) as [|x b] eqn:E; [congruence|].
  destruct ((cursor f ;; insert_items f clock (user_name st) 0 (x :: b) ;; commit f) (conn st))
    as [c [[]|e]]; cbn.
  - left. split; reflexivity.
  - right. split; [reflexivity | now exists e].
Qed.


(** ** Ingestion *)

Lemma flushes_print_flushed st n :
  List.length (List.filter is_flushed (stdout st ++ [Flushed n])) = S (flushes st).
Proof. unfold flushes. rewrite List.filter_app, length_app. cbn. lia. Qed.

Lemma buffer_data_below clock f data st :
  (Z.of_nat (List.length (buffer st)) + 1 < buffer_size st)%Z ->
  buffer_data f clock data st
  = {| user_name := user_name st; buffer := buffer st ++ [data];
       buffer_size := buffer_size st; conn := conn st; stdout := stdout st |}.
Proof.
  intros H. unfold buffer_data. cbn [buffer buffer_size].
  rewrite length_app. cbn [List.length].
  destruct (Z.leb_spec (buffer_size st) (Z.of_nat (List.length (buffer st) + 1))); [lia|].
  reflexivity.
Qed.

Lemma buffer_data_reaches clock f data st :
  (buffer_size st <= Z.of_nat (List.length (buffer st)) + 1)%Z ->
  buffer_data f clock data st
  = flush_buffer f clock
      {| user_name := user_name st; buffer := buffer st ++ [data];
         buffer_size := buffer_size st; conn := conn st; stdout := stdout st |}.
Proof.
  intros H. unfold buffer_data. cbn [buffer buffer_size].
  rewrite length_app. cbn [List.length].
  destruct (Z.leb_spec (buffer_size st) (Z.of_nat (List.length (buffer st) + 1))); [|lia].
  reflexivity.
Qed.

(** One sample that is buffered, or flushed with the buffer, without a
    disturbance. *)
Lemma buffer_data_calm clock data st :
  ready st -> storable data = true ->
  let st' := buffer_data NoFault clock data st in
  ready st' /\ buffer_size st' = buffer_size st /\ user_name st' = user_name st
  /\ ((buffer_size st <= Z.of_nat (List.length (buffer st)) + 1)%Z ->
      buffer st' = [] /\ flushes st' = S (flushes st))
  /\ ((Z.of_nat (List.length (buffer st)) + 1 < buffer_size st)%Z ->
      buffer st' = buffer st ++ [data] /\ flushes st' = flushes st
      /\ conn st' = conn st).
Proof.
  intros [Ht Hs] Hd st'. subst st'.
  assert (Hs' : forallb storable (buffer st ++ [data]) = true).
  { rewrite forallb_app, Hs. cbn. now rewrite Hd. }
  destruct (Z.le_gt_cases (buffer_size st) (Z.of_nat (List.length (buffer st)) + 1)) as [H|H].
  - rewrite buffer_data_reaches by exact H.
    rewrite flush_buffer_ok; cbn [buffer conn view user_name buffer_size stdout];
      try assumption; [|now destruct (buffer st)].
    split; [|split; [|split; [|split]]]; try reflexivity.
    + unfold ready. cbn [conn view buffer]. now rewrite has_table_insert_all.
    + intros _. split; [reflexivity|].
      unfold flushes at 1. cbn [stdout]. apply flushes_print_flushed.
    + lia.
  - rewrite buffer_data_below by lia. cbn [buffer conn buffer_size user_name].
    split; [|split; [|split; [|split]]]; try reflexivity.
    + now split.
    + lia.
    + intros _. repeat apply conj; reflexivity.
Qed.

Lemma ready_print e st : ready (print e st) <-> ready st.
Proof. reflexivity. Qed.

Lemma flushes_print e st :
  is_flushed e = false -> flushes (print e st) = flushes st.
Proof.
  intros H. unfold flushes, print. cbn [stdout].
  rewrite List.filter_app, length_app. cbn. rewrite H. cbn. lia.
Qed.

Lemma flush_timer_calm clock st :
  ready st ->
  let st' := flush_timer NoFault clock st in
  ready st' /\ buffer_size st' = buffer_size st /\ buffer st' = [].
Proof.
  intros [Ht Hs]. unfold flush_timer.
  destruct (buffer st) as [|x b] eqn:E.
  - cbv zeta. split; [split; [exact Ht | now rewrite E] | split; [reflexivity | exact E]].
  - rewrite flush_buffer_ok; cbn [print buffer conn view user_name buffer_size stdout];
      rewrite ?E; try assumption; [|discriminate].
    split; [|now split]. split; [|reflexivity].
    cbn [conn view]. now rewrite has_table_insert_all.
Qed.

Lemma step_sample_calm now clock data st :
  ingestable now data = true ->
  exists ch,
    step st (Sample now NoFault clock data)
    = buffer_data NoFault clock (stamp now data)
        (print (Received ch (dict_get_default "timestamp" JNull (stamp now data))) st).
Proof.
  unfold ingestable, step, brainwave_callback.
  destruct (py_len _) as [ch|e]; [|discriminate]. intros _. now exists ch.
Qed.

Lemma step_calm_bound st o :
  ready st -> calm o ->
  let B := Z.max (buffer_size st - 1) 0 in
  (Z.of_nat (List.length (buffer st)) <= B)%Z ->
  ready (step st o) /\ buffer_size (step st o) = buffer_size st
  /\ (Z.of_nat (List.length (buffer (step st o))) <= B)%Z.
Proof.
  intros Hr Hc B Hb. destruct o as [now f clock data | f clock].
  - destruct Hc as [-> Hs]. cbn [step]. unfold brainwave_callback.
    destruct (py_len _) as [ch|e];
      [|split; [exact Hr | split; [reflexivity | exact Hb]]].
    set (ev := Received ch _). set (st1 := print ev st).
    destruct (buffer_data_calm clock (stamp now data) st1 (proj2 (ready_print ev st) Hr) Hs)
      as (R & S & _ & Hge & Hlt).
    split; [exact R|]. split; [exact S|].
    change (buffer_size st1) with (buffer_size st) in *.
    change (buffer st1) with (buffer st) in *.
    destruct (Z.le_gt_cases (buffer_size st) (Z.of_nat (List.length (buffer st)) + 1)) as [H|H].
    + destruct (Hge H) as [-> _]. cbn [List.length]. lia.
    + destruct (Hlt ltac:(lia)) as (-> & _). rewrite length_app. cbn [List.length]. lia.
  - cbn in Hc. subst f. cbn [step].
    destruct (flush_timer_calm clock st Hr) as (R & S & E).
    split; [exact R|]. split; [exact S|]. rewrite E. cbn [List.length]. lia.
Qed.

Lemma run_calm_bound ops : forall st,
  ready st -> Forall calm ops ->
  (Z.of_nat (List.length (buffer st)) <= Z.max (buffer_size st - 1) 0)%Z ->
  ready (run ops st) /\ buffer_size (run ops st) = buffer_size st
  /\ (Z.of_nat (List.length (buffer (run ops st))) <= Z.max (buffer_size st - 1) 0)%Z.
Proof.
  induction ops as [|o ops IH]; intros st Hr Hc Hb;
    [split; [exact Hr | split; [reflexivity | exact Hb]]|].
  inversion Hc as [|? ? Ho Hops]; subst.
  destruct (step_calm_bound st o Hr Ho Hb) as (R & S & B).
  cbn [run fold_left]. fold (run ops (step st o)).
  destruct (IH (step st o) R Hops) as (R' & S' & B'); [now rewrite S|].
  rewrite S in *. split; [exact R' | split; [exact S' | exact B']].
Qed.

Lemma step_sample_count st o :
  ready st -> calm o -> is_sample o ->
  (1 <= buffer_size st)%Z ->
  (Z.of_nat (List.length (buffer st)) < buffer_size st)%Z ->
  let st' := step st o in
  ready st' /\ buffer_size st' = buffer_size st
  /\ (Z.of_nat (List.length (buffer st')) < buffer_size st)%Z
  /\ (Z.of_nat (flushes st') * buffer_size st + Z.of_nat (List.length (buffer st'))
      = Z.of_nat (flushes st) * buffer_size st + Z.of_nat (List.length (buffer st)) + 1)%Z.
Proof.
  intros Hr Hc Hi HT Hb. destruct o as [now f clock data | f clock]; [|contradiction].
  destruct Hc as [-> Hs]. cbn in Hi.
  destruct (step_sample_calm now clock data st Hi) as [ch E].
  cbv zeta. rewrite E. set (ev := Received ch _). set (st1 := print ev st).
  destruct (buffer_data_calm clock (stamp now data) st1 (proj2 (ready_print ev st) Hr) Hs)
    as (R & S & _ & Hge & Hlt).
  assert (F : flushes st1 = flushes st) by now apply flushes_print.
  change (buffer_size st1) with (buffer_size st) in *.
  change (buffer st1) with (buffer st) in *.
  split; [exact R|]. split; [exact S|].
  destruct (Z.le_gt_cases (buffer_size st) (Z.of_nat (List.length (buffer st)) + 1)) as [H|H].
  + destruct (Hge H) as [-> ->]. cbn [List.length]. rewrite F. split; lia.
  + destruct (Hlt ltac:(lia)) as (-> & -> & _). rewrite F, length_app.
    cbn [List.length]. split; lia.
Qed.

Lemma run_samples_count ops : forall st,
  ready st -> Forall calm ops -> Forall is_sample ops ->
  (1 <= buffer_size st)%Z ->
  (Z.of_nat (List.length (buffer st)) < buffer_size st)%Z ->
  (Z.of_nat (List.length (buffer (run ops st))) < buffer_size st)%Z
  /\ (Z.of_nat (flushes (run ops st)) * buffer_size st
      + Z.of_nat (List.length (buffer (run ops st)))
      = Z.of_nat (flushes st) * buffer_size st + Z.of_nat (List.length (buffer st))
        + Z.of_nat (List.length ops))%Z.
Proof.
  induction ops as [|o ops IH]; intros st Hr Hc Hi HT Hb.
  - cbn. split; lia.
  - inversion Hc as [|? ? Ho Hops]; subst. inversion Hi as [|? ? Hio Hiops]; subst.
    destruct (step_sample_count st o Hr Ho Hio HT Hb) as (R & S & B & C).
    cbn [run fold_left]. fold (run ops (step st o)).
    destruct (IH (step st o) R Hops Hiops) as (B' & C'); [now rewrite S | now rewrite S |].
    rewrite S in *. split; [exact B'|]. cbn [List.length]. lia.
Qed.

(** ** Stamping and the stored row *)

Lemma dict_get_None k d : dict_get k d = None <-> k ∉ map fst d.
Proof.
  induction d as [|[k' v'] d IH]; cbn [dict_get map fst].
  - split; [intros _ H; inversion H | reflexivity].
  - rewrite not_elem_of_cons. destruct (String.eqb_spec k k') as [->|Hne].
    + split; [discriminate | intros [H _]; congruence].
    + rewrite IH. tauto.
Qed.

Lemma dict_get_set_eq k v d : dict_get k (dict_set k v d) = Some v.
Proof.
  induction d as [|[k' v'] d IH]; cbn [dict_set dict_get].
  - now rewrite String.eqb_refl.
  - destruct (String.eqb_spec k k') as [->|Hne]; cbn [dict_get].
    + now rewrite String.eqb_refl.
    + destruct (String.eqb_spec k k'); [congruence | exact IH].
Qed.

Lemma dict_set_keys k v d x :
  x ∈ map fst (dict_set k v d) -> x = k \/ x ∈ map fst d.
Proof.
  induction d as [|[k' v'] d IH]; cbn [dict_set map fst].
  - intros H. apply list_elem_of_singleton in H. now left.
  - destruct (String.eqb_spec k k') as [->|Hne]; cbn [map fst].
    + intros H. now right.
    + rewrite !elem_of_cons. intros [H|H]; [right; now left|].
      destruct (IH H); [now left | right; now right].
Qed.

Lemma wf_dict_set k v d :
  wf_dict d -> wf_json v -> wf_dict (dict_set k v d).
Proof.
  unfold wf_dict. rewrite !wf_json_obj. intros [Hn Hw] Hv.
  induction d as [|[k' v'] d IH]; cbn [dict_set].
  - cbn [map fst]. split; [apply NoDup_singleton | repeat constructor; exact Hv].
  - cbn [map fst] in Hn. apply NoDup_cons in Hn as [Hk Hn].
    inversion Hw as [|? ? Hv' Hw']; subst.
    destruct (String.eqb_spec k k') as [->|Hne].
    + cbn [map fst]. split; [now apply NoDup_cons | now constructor].
    + destruct (IH Hn Hw') as [Hn2 Hw2]. cbn [map fst]. split.
      * apply NoDup_cons. split; [|exact Hn2].
        intros H. destruct (dict_set_keys _ _ _ _ H); congruence.
      * now constructor.
Qed.

Lemma stamp_missing now P :
  dict_get "timestamp" P = None -> stamp now P = P ++ [("timestamp", JStr now)].
Proof.
  intros H. unfold stamp, dict_get_default. rewrite H. cbn [truthy].
  apply dict_set_fresh. now apply dict_get_None.
Qed.

Lemma stamp_truthy now P v :
  dict_get "timestamp" P = Some v -> truthy v = true -> stamp now P = P.
Proof. intros H T. unfold stamp, dict_get_default. now rewrite H, T. Qed.

(** After the first statement of the callback the sample has a timestamp. *)
Lemma stamp_timestamp now P :
  exists v, dict_get "timestamp" (stamp now P) = Some v
    /\ (v = JStr now \/ (dict_get "timestamp" P = Some v /\ truthy v = true)).
Proof.
  unfold stamp, dict_get_default.
  destruct (dict_get "timestamp" P) as [v|] eqn:E.
  - destruct (truthy v) eqn:T.
    + exists v. rewrite E. auto.
    + exists (JStr now). rewrite dict_get_set_eq. auto.
  - cbn [truthy]. exists (JStr now). rewrite dict_get_set_eq. auto.
Qed.

Lemma wf_dict_stamp now P : wf_dict P -> wf_dict (stamp now P).
Proof.
  intros H. unfold stamp. destruct (truthy _); [exact H|].
  now apply wf_dict_set.
Qed.

Lemma item_timestamp_present n item v :
  dict_get "timestamp" item = Some v ->
  item_timestamp n item = match bind_text v with Ok ts => ts | Raise _ => None end.
Proof. intros H. unfold item_timestamp, dict_get_default. now rewrite H. Qed.

Lemma insert_all_snoc clock user b x : forall k d,
  insert_all clock user k (b ++ [x]) d
  = insert_row (item_timestamp (clock (k + List.length b)%nat) x) (dumps (JObj x)) user
      (insert_all clock user k b d).
Proof.
  induction b as [|y b IH]; intros k d; cbn [List.app insert_all List.length].
  - now rewrite Nat.add_0_r.
  - rewrite IH. now rewrite Nat.add_succ_comm.
Qed.

Lemma rows_insert_all clock user b : forall k d,
  exists new, rows (insert_all clock user k b d) = rows d ++ new
    /\ List.length new = List.length b.
Proof.
  induction b as [|y b IH]; intros k d; cbn [insert_all].
  - exists []. now rewrite app_nil_r.
  - destruct (IH (S k) (insert_row (item_timestamp (clock k) y) (dumps (JObj y)) user d))
      as (new & E & L).
    rewrite E. cbn [insert_row rows]. rewrite <- app_assoc.
    eexists. split; [reflexivity|]. cbn [List.app List.length]. now rewrite L.
Qed.

(** A sample delivered to an application that is ready, followed by a flush
    when the sample did not trigger one: the buffered records and the
    sample become rows, the sample the last one. *)
Lemma callback_then_flush now clock1 clock2 P st st1 v :
  ready st ->
  dict_get "timestamp" (stamp now P) = Some v ->
  storable (stamp now P) = true ->
  brainwave_callback now NoFault clock1 P st = Ok st1 ->
  let st2 := flush_buffer NoFault clock2 st1 in
  buffer st2 = []
  /\ exists mid earlier,
       rows mid = rows (view (conn st)) ++ earlier
       /\ List.length earlier = List.length (buffer st)
       /\ let d := insert_row (match bind_text v with Ok ts => ts | Raise _ => None end)
                     (dumps (JObj (stamp now P))) (user_name st) mid in
          conn st2 = {| durable := d; view := d |}.
Proof.
  intros [Ht Hs] Hv Hst Hcb. unfold brainwave_callback in Hcb.
  destruct (py_len _) as [ch|e]; [|discriminate]. injection Hcb as <-.
  set (P' := stamp now P) in *. set (ev := Received ch _).
  set (st0 := print ev st).
  assert (Hs' : forallb storable (buffer st0 ++ [P']) = true).
  { rewrite forallb_app. cbn [forallb]. change (buffer st0) with (buffer st).
    now rewrite Hs, Hst. }
  assert (Hne : buffer st0 ++ [P'] <> []) by now destruct (buffer st0).
  destruct (Z.le_gt_cases (buffer_size st0) (Z.of_nat (List.length (buffer st0)) + 1)) as [H|H].
  - rewrite buffer_data_reaches by exact H.
    rewrite (flush_buffer_ok clock1); cbn [buffer conn view user_name];
      [| exact Hne | exact Ht | exact Hs'].
    cbv zeta. rewrite insert_all_snoc, (item_timestamp_present _ _ _ Hv).
    unfold flush_buffer. cbn [buffer conn]. split; [reflexivity|].
    destruct (rows_insert_all clock1 (user_name st) (buffer st) 0 (view (conn st)))
      as (earlier & E & L).
    eexists _, earlier. split; [exact E|]. split; [exact L | reflexivity].
  - rewrite buffer_data_below by exact H.
    rewrite (flush_buffer_ok clock2); cbn [buffer conn view user_name];
      [| exact Hne | exact Ht | exact Hs'].
    cbv zeta. rewrite insert_all_snoc, (item_timestamp_present _ _ _ Hv).
    cbn [buffer conn]. split; [reflexivity|].
    destruct (rows_insert_all clock2 (user_name st) (buffer st) 0 (view (conn st)))
      as (earlier & E & L).
    eexists _, earlier. split; [exact E|]. split; [exact L | reflexivity].
Qed.

(** ** The order of timestamps *)

Lemma ascii_compare_refl c : Ascii.compare c c = Eq.
Proof. apply N.compare_refl. Qed.

Lemma ascii_compare_lt_trans a b c :
  Ascii.compare a b = Lt -> Ascii.compare b c = Lt -> Ascii.compare a c = Lt.
Proof.
  unfold Ascii.compare. rewrite !N.compare_lt_iff. apply N.lt_trans.
Qed.

Lemma string_compare_refl s : String.compare s s = Eq.
Proof. induction s as [|c s IH]; cbn; [reflexivity|]. now rewrite ascii_compare_refl. Qed.

Lemma string_compare_eq a b : String.compare a b = Eq <-> a = b.
Proof. split; [apply String.compare_eq_iff | intros ->; apply string_compare_refl]. Qed.

Lemma string_compare_lt_trans a : forall b c,
  String.compare a b = Lt -> String.compare b c = Lt -> String.compare a c = Lt.
Proof.
  induction a as [|x a IH]; intros [|y b] [|z c]; cbn; try congruence.
  destruct (Ascii.compare x y) eqn:Exy; try discriminate;
    destruct (Ascii.compare y z) eqn:Eyz; try discriminate; intros H1 H2.
  - apply Ascii.compare_eq_iff in Exy, Eyz. subst. rewrite ascii_compare_refl. eauto.
  - apply Ascii.compare_eq_iff in Exy. subst. now rewrite Eyz.
  - apply Ascii.compare_eq_iff in Eyz. subst. now rewrite Exy.
  - now rewrite (ascii_compare_lt_trans _ _ _ Exy Eyz).
Qed.

Lemma string_compare_gt a b : String.compare a b = Gt <-> String.compare b a = Lt.
Proof.
  rewrite (String.compare_antisym a b). destruct (String.compare b a); cbn;
    split; congruence.
Qed.

Lemma timestamp_compare_refl a : timestamp_compare a a = Eq.
Proof. destruct a; cbn; [apply string_compare_refl | reflexivity]. Qed.

Lemma timestamp_compare_eq a b : timestamp_compare a b = Eq -> a = b.
Proof.
  destruct a, b; cbn; try discriminate; [|reflexivity].
  intros H. f_equal. now apply string_compare_eq.
Qed.

Lemma timestamp_compare_lt_trans a b c :
  timestamp_compare a b = Lt -> timestamp_compare b c = Lt ->
  timestamp_compare a c = Lt.
Proof.
  destruct a, b, c; cbn; try congruence. apply string_compare_lt_trans.
Qed.

Lemma timestamp_compare_gt a b :
  timestamp_compare a b = Gt <-> timestamp_compare b a = Lt.
Proof.
  destruct a, b; cbn; try (split; congruence). apply string_compare_gt.
Qed.

Lemma index_leb_total a b : index_leb a b = false -> index_leb b a = true.
Proof.
  unfold index_leb.
  destruct (timestamp_compare (row_timestamp a) (row_timestamp b)) eqn:E.
  - apply timestamp_compare_eq in E. rewrite E, timestamp_compare_refl.
    intros H. apply Z.leb_gt in H. apply Z.leb_le. lia.
  - discriminate.
  - apply timestamp_compare_gt in E. now rewrite E.
Qed.

Lemma index_leb_trans a b c :
  index_leb a b = true -> index_leb b c = true -> index_leb a c = true.
Proof.
  unfold index_leb.
  destruct (timestamp_compare (row_timestamp a) (row_timestamp b)) eqn:Eab;
    try discriminate;
    destruct (timestamp_compare (row_timestamp b) (row_timestamp c)) eqn:Ebc;
    try discriminate; intros H1 H2.
  - apply timestamp_compare_eq in Eab, Ebc. rewrite Eab, Ebc, timestamp_compare_refl.
    apply Z.leb_le. apply Z.leb_le in H1, H2. lia.
  - apply timestamp_compare_eq in Eab. now rewrite Eab, Ebc.
  - apply timestamp_compare_eq in Ebc. now rewrite <- Ebc, Eab.
  - now rewrite (timestamp_compare_lt_trans _ _ _ Eab Ebc).
Qed.

Lemma index_leb_timestamp a b :
  index_leb a b = true -> timestamp_leb (row_timestamp a) (row_timestamp b) = true.
Proof.
  unfold index_leb, timestamp_leb.
  now destruct (timestamp_compare (row_timestamp a) (row_timestamp b)).
Qed.

(** ** Sorting *)

Section sorting.
Context {A : Type} (leb : A -> A -> bool).
Hypothesis leb_total : forall x y, leb x y = false -> leb y x = true.
Hypothesis leb_trans : forall x y z, leb x y = true -> leb y z = true -> leb x z = true.

Lemma insert_sorted_perm x l : Permutation (insert_sorted leb x l) (x :: l).
Proof.
  induction l as [|y l IH]; cbn; [reflexivity|].
  destruct (leb x y); [reflexivity|].
  rewrite IH. apply perm_swap.
Qed.

Lemma sort_by_perm l : Permutation (sort_by leb l) l.
Proof.
  induction l as [|x l IH]; cbn; [reflexivity|].
  unfold sort_by in *. cbn. rewrite insert_sorted_perm. now constructor.
Qed.

Lemma insert_sorted_strongly x l :
  StronglySorted (fun a b => leb a b = true) l ->
  StronglySorted (fun a b => leb a b = true) (insert_sorted leb x l).
Proof.
  induction 1 as [|y l Hl IH Hy]; cbn; [repeat constructor|].
  destruct (leb x y) eqn:E.
  - constructor; [now constructor|]. constructor; [exact E|].
    eapply Forall_impl; [exact Hy|]. intros z Hz. cbn in *. eauto.
  - constructor; [exact IH|].
    eapply Permutation_Forall; [symmetry; apply insert_sorted_perm|].
    constructor; [now apply leb_total | exact Hy].
Qed.

Lemma sort_by_strongly l :
  StronglySorted (fun a b => leb a b = true) (sort_by leb l).
Proof.
  induction l as [|x l IH]; [constructor|].
  unfold sort_by in *. cbn. now apply insert_sorted_strongly.
Qed.
End sorting.

Lemma strongly_sorted_rev {A} (R : A -> A -> Prop) l :
  StronglySorted R l -> StronglySorted (fun a b => R b a) (rev l).
Proof.
  induction 1 as [|x l Hl IH Hx]; cbn [rev]; [constructor|].
  apply StronglySorted_app_2; [|exact IH|repeat constructor].
  intros a b Ha Hb. apply list_elem_of_singleton in Hb. subst b.
  rewrite Forall_forall in Hx. apply Hx. apply list_elem_of_In, in_rev, list_elem_of_In, Ha.
Qed.

Lemma strongly_sorted_firstn {A} (R : A -> A -> Prop) n l :
  StronglySorted R l -> StronglySorted R (firstn n l).
Proof.
  intros H. revert n. induction H as [|x l Hl IH Hx]; intros [|n]; cbn [firstn];
    try constructor; [apply IH|].
  rewrite Forall_forall in Hx. apply Forall_forall. intros y Hy. apply Hx.
  now apply (subseteq_take n l).
Qed.

Lemma strongly_sorted_map {A B} (g : A -> B) (R : B -> B -> Prop) l :
  StronglySorted (fun a b => R (g a) (g b)) l -> StronglySorted R (map g l).
Proof.
  induction 1 as [|x l Hl IH Hx]; cbn [map]; constructor; [exact IH|].
  rewrite Forall_forall in Hx. apply Forall_forall. intros y Hy.
  apply list_elem_of_In, in_map_iff in Hy as (z & <- & Hz). apply Hx. now apply list_elem_of_In.
Qed.

Lemma strongly_sorted_impl {A} (R S : A -> A -> Prop) l :
  (forall a b, R a b -> S a b) -> StronglySorted R l -> StronglySorted S l.
Proof.
  intros HRS. induction 1 as [|x l Hl IH Hx]; constructor; [exact IH|].
  eapply Forall_impl; [exact Hx|]. intros; now apply HRS.
Qed.

Lemma limit_rows_sorted {A} (R : A -> A -> Prop) n l :
  StronglySorted R l -> StronglySorted R (limit_rows n l).
Proof.
  intros H. unfold limit_rows. destruct (n <? 0)%Z; [exact H|].
  now apply strongly_sorted_firstn.
Qed.

Lemma limit_rows_length {A} n (l : list A) :
  (0 <= n)%Z -> (Z.of_nat (List.length (limit_rows n l)) <= n)%Z.
Proof.
  intros H. unfold limit_rows. destruct (Z.ltb_spec n 0); [lia|].
  rewrite length_firstn. lia.
Qed.

Lemma order_by_timestamp_sorted l :
  StronglySorted (fun a b => ascending (row_timestamp a) (row_timestamp b))
    (order_by_timestamp l).
Proof.
  eapply strongly_sorted_impl; [|apply (sort_by_strongly index_leb index_leb_total index_leb_trans)].
  intros a b. apply index_leb_timestamp.
Qed.

Lemma order_by_timestamp_desc_sorted l :
  StronglySorted (fun a b => descending (row_timestamp a) (row_timestamp b))
    (order_by_timestamp_desc l).
Proof. apply (strongly_sorted_rev _ _ (order_by_timestamp_sorted l)). Qed.

Lemma order_by_timestamp_desc_perm l : Permutation (order_by_timestamp_desc l) l.
Proof.
  unfold order_by_timestamp_desc, order_by_timestamp.
  rewrite <- Permutation_rev. apply sort_by_perm.
Qed.

(** ** Mapping a conversion that may raise *)

Lemma map_result_map {A B C} (g : A -> result B) (p : B -> C) (q : A -> C) l : forall l',
  (forall x y, g x = Ok y -> p y = q x) ->
  map_result g l = Ok l' -> map p l' = map q l.
Proof.
  induction l as [|x l IH]; intros l' Hpq; cbn [map_result].
  - now intros [= <-].
  - destruct (g x) as [y|e] eqn:E; [|discriminate].
    destruct (map_result g l) as [ys|e]; [|discriminate].
    intros [= <-]. cbn [map]. f_equal; [now apply Hpq | now apply IH].
Qed.

Lemma map_result_length {A B} (g : A -> result B) l l' :
  map_result g l = Ok l' -> List.length l' = List.length l.
Proof.
  intros H. rewrite <- (length_map (fun _ => tt) l'), <- (length_map (fun _ => tt) l).
  f_equal. eapply map_result_map; [|exact H]. reflexivity.
Qed.


Lemma strongly_sorted_head {A} (R : A -> A -> Prop) x l y :
  StronglySorted R (x :: l) -> In y l -> R x y.
Proof.
  intros H Hy. inversion H as [|? ? _ Hx]; subst.
  rewrite List.Forall_forall in Hx. now apply Hx.
Qed.

Lemma strongly_sorted_app_cross {A} (R : A -> A -> Prop) l1 l2 x y :
  StronglySorted R (l1 ++ l2) -> In x l1 -> In y l2 -> R x y.
Proof.
  induction l1 as [|a l1 IH]; [contradiction|].
  change ((a :: l1) ++ l2) with (a :: (l1 ++ l2)).
  intros H [-> | Hx] Hy.
  - apply (strongly_sorted_head _ _ _ _ H). apply in_or_app. now right.
  - inversion H; subst. now apply IH.
Qed.

Lemma limit_rows_split {A} n (l : list A) :
  exists rest, l = limit_rows n l ++ rest
    /\ ((0 <= n)%Z ->
        List.length (limit_rows n l) = Nat.min (Z.to_nat n) (List.length l)).
Proof.
  unfold limit_rows. destruct (n <? 0)%Z eqn:En.
  - exists []. split; [now rewrite app_nil_r | lia].
  - exists (skipn (Z.to_nat n) l). split; [now rewrite firstn_skipn|].
    intros _. apply length_firstn.
Qed.



Lemma map_result_related {A B} (g : A -> result B) (Q : A -> B -> Prop) l :
  (forall x y, g x = Ok y -> Q x y) ->
  forall l', map_result g l = Ok l' -> Forall2 Q l l'.
Proof.
  intros HQ. induction l as [|x l IH]; intros l'; cbn [map_result].
  - intros [= <-]. constructor.
  - destruct (g x) as [y|e] eqn:E; [|discriminate].
    destruct (map_result g l) as [ys|e]; [|discriminate].
    intros [= <-]. constructor; [now apply HQ | now apply IH].
Qed.



(** ** Grouping by hour and owner *)

Lemma key_compare_refl k : key_compare k k = Eq.
Proof. unfold key_compare. now rewrite !string_compare_refl. Qed.

Lemma key_compare_eq a b : key_compare a b = Eq <-> a = b.
Proof.
  split; [|intros ->; apply key_compare_refl].
  destruct a as [a1 a2], b as [b1 b2]. unfold key_compare. cbn [fst snd].
  destruct (String.compare a1 b1) eqn:E; try discriminate.
  intros H. apply string_compare_eq in E, H. congruence.
Qed.

Lemma key_compare_gt a b : key_compare a b = Gt <-> key_compare b a = Lt.
Proof.
  unfold key_compare.
  destruct (String.compare (fst a) (fst b)) eqn:E.
  - apply string_compare_eq in E. rewrite E, string_compare_refl. apply string_compare_gt.
  - assert (E' : String.compare (fst b) (fst a) = Gt) by now apply string_compare_gt.
    rewrite E'. split; discriminate.
  - apply string_compare_gt in E. rewrite E. split; reflexivity.
Qed.

Lemma key_lt_trans a b c : key_lt a b -> key_lt b c -> key_lt a c.
Proof.
  unfold key_lt, key_compare.
  destruct (String.compare (fst a) (fst b)) eqn:Eab; try discriminate;
    destruct (String.compare (fst b) (fst c)) eqn:Ebc; try discriminate; intros H1 H2.
  - apply string_compare_eq in Eab, Ebc. rewrite Eab, Ebc, string_compare_refl.
    eapply string_compare_lt_trans; eauto.
  - apply string_compare_eq in Eab. now rewrite Eab, Ebc.
  - apply string_compare_eq in Ebc. now rewrite <- Ebc, Eab.
  - now rewrite (string_compare_lt_trans _ _ _ Eab Ebc).
Qed.

Lemma key_lt_hour a b : key_lt a b -> String.leb (fst a) (fst b) = true.
Proof.
  unfold key_lt, key_compare, String.leb.
  destruct (String.compare (fst a) (fst b)); congruence.
Qed.

Lemma key_eqb_eq a b : key_eqb a b = true <-> a = b.
Proof.
  unfold key_eqb. rewrite <- key_compare_eq.
  destruct (key_compare a b); split; congruence.
Qed.

Lemma key_eqb_lt a b : key_lt a b -> key_eqb a b = false.
Proof. unfold key_lt, key_eqb. now intros ->. Qed.

Lemma group_count_above k g :
  Forall (key_lt k) (map fst g) -> group_count k g = 0%nat.
Proof.
  induction g as [|[k' n] g IH]; cbn [map fst group_count]; [reflexivity|].
  intros H. inversion H as [|? ? Hk Hg]; subst.
  rewrite (key_eqb_lt _ _ Hk). now apply IH.
Qed.

Lemma bump_keys k g x :
  In x (map fst (bump k g)) -> x = k \/ In x (map fst g).
Proof.
  induction g as [|[k' n] g IH]; cbn [bump map fst].
  - intros [<-|[]]. now left.
  - destruct (key_compare k k'); cbn [map fst In]; intros H.
    + now right.
    + destruct H as [<-|H]; [now left | now right].
    + destruct H as [<-|H]; [right; now left|].
      destruct (IH H); [now left | right; now right].
Qed.

Lemma bump_sorted k g :
  StronglySorted key_lt (map fst g) -> StronglySorted key_lt (map fst (bump k g)).
Proof.
  induction g as [|[k' n] g IH]; cbn [bump map fst]; [repeat constructor|].
  intros H. apply StronglySorted_inv in H as [Hg Hk'].
  destruct (key_compare k k') eqn:E; cbn [map fst].
  - now constructor.
  - constructor; [now constructor|]. constructor; [exact E|].
    eapply Forall_impl; [exact Hk'|]. intros z Hz. eapply key_lt_trans; eauto.
  - constructor; [now apply IH|].
    apply Forall_forall. intros z Hz. apply list_elem_of_In in Hz.
    destruct (bump_keys _ _ _ Hz) as [->|Hin].
    + now apply key_compare_gt.
    + rewrite Forall_forall in Hk'. apply Hk'. now apply list_elem_of_In.
Qed.

Lemma bump_count k k0 g :
  StronglySorted key_lt (map fst g) ->
  group_count k (bump k0 g)
  = if key_eqb k k0 then S (group_count k g) else group_count k g.
Proof.
  induction g as [|[k' n] g IH]; cbn [bump map fst group_count].
  - intros _. now destruct (key_eqb k k0).
  - intros H. apply StronglySorted_inv in H as [Hg Hk'].
    destruct (key_compare k0 k') eqn:E; cbn [group_count].
    + apply key_compare_eq in E. subst k'. now destruct (key_eqb k k0).
    + destruct (key_eqb k k0) eqn:Ek; [|reflexivity].
      apply key_eqb_eq in Ek. subst k0.
      rewrite (key_eqb_lt _ _ E). f_equal. symmetry. apply group_count_above.
      eapply Forall_impl; [exact Hk'|]. intros z Hz. eapply key_lt_trans; eauto.
    + destruct (key_eqb k k') eqn:Ek'.
      * apply key_eqb_eq in Ek'. subst k'.
        assert (Hne : key_eqb k k0 = false).
        { unfold key_eqb. apply key_compare_gt in E. now rewrite E. }
        now rewrite Hne.
      * now apply IH.
Qed.

Lemma bump_positive k g :
  Forall (fun kn => (0 < snd kn)%nat) g -> Forall (fun kn => (0 < snd kn)%nat) (bump k g).
Proof.
  induction 1 as [|[k' n] g Hn Hg IH]; cbn [bump]; [repeat constructor|].
  cbn [snd] in Hn. destruct (key_compare k k'); repeat constructor; cbn [snd]; auto; lia.
Qed.

Lemma count_key_snoc k l r :
  count_key k (l ++ [r])
  = (count_key k l + if key_eqb k (group_key r) then 1 else 0)%nat.
Proof.
  unfold count_key. rewrite List.filter_app, length_app. cbn.
  now destruct (key_eqb k (group_key r)).
Qed.

Lemma fold_bump l : forall g seen,
  StronglySorted key_lt (map fst g) ->
  Forall (fun kn => (0 < snd kn)%nat) g ->
  (forall k, group_count k g = count_key k seen) ->
  let g' := fold_left (fun groups r => bump (group_key r) groups) l g in
  StronglySorted key_lt (map fst g')
  /\ Forall (fun kn => (0 < snd kn)%nat) g'
  /\ (forall k, group_count k g' = count_key k (seen ++ l)).
Proof.
  induction l as [|r l IH]; intros g seen Hs Hp Hc; cbn [fold_left].
  - rewrite app_nil_r. auto.
  - replace (seen ++ r :: l) with ((seen ++ [r]) ++ l) by now rewrite <- app_assoc.
    apply IH; [now apply bump_sorted | now apply bump_positive |].
    intros k. rewrite bump_count, count_key_snoc, Hc by exact Hs.
    destruct (key_eqb k (group_key r)); lia.
Qed.

Lemma group_counts_spec l :
  StronglySorted key_lt (map fst (group_counts l))
  /\ Forall (fun kn => (0 < snd kn)%nat) (group_counts l)
  /\ (forall k, group_count k (group_counts l) = count_key k l).
Proof.
  apply (fold_bump l [] []); [constructor | constructor | reflexivity].
Qed.

Lemma group_count_in k n g :
  StronglySorted key_lt (map fst g) -> In (k, n) g -> group_count k g = n.
Proof.
  induction g as [|[k' m] g IH]; cbn [map fst group_count]; [intros _ []|].
  intros H. apply StronglySorted_inv in H as [Hg Hk']. intros [[= -> ->]|Hin].
  - assert (E : key_eqb k k = true) by now apply key_eqb_eq. now rewrite E.
  - assert (Hlt : key_lt k' k).
    { rewrite Forall_forall in Hk'. apply Hk'. apply list_elem_of_In.
      apply in_map_iff. now exists (k, n). }
    assert (E : key_eqb k k' = false).
    { unfold key_eqb. apply key_compare_gt in Hlt. now rewrite Hlt. }
    rewrite E. now apply IH.
Qed.

Lemma group_count_found k g :
  (0 < group_count k g)%nat -> In (k, group_count k g) g.
Proof.
  induction g as [|[k' m] g IH]; cbn [group_count]; [lia|].
  destruct (key_eqb k k') eqn:E.
  - apply key_eqb_eq in E. subst. now left.
  - intros H. right. now apply IH.
Qed.

(** ** The properties of the specification *)

Lemma new_app_fresh user size db_path :
  new_app user size db_path ∅ = Ok (fresh_app user size).
Proof.
  unfold new_app, init_database, connect. rewrite lookup_empty. reflexivity.
Qed.

Lemma ready_fresh user size : ready (fresh_app user size).
Proof. split; reflexivity. Qed.

(** C1, evaluated on the code: a flush that fails keeps the buffer, as the
    claim says, but the inserts it ran before the failure stay in the open
    transaction of the connection; the next flush inserts the same records
    again and commits both copies.  After a commit that fails, the store
    holds the record twice; after a second insert that fails, it holds the
    first record twice. *)
Theorem failed_flush_retry_stores_twice :
  let first := "2024-01-01T10:00:00" in
  let second := "2024-01-01T10:00:01" in
  let stored ts := (Some ts, dumps (JObj (crown_sample ++ [("timestamp", JStr ts)])),
                    "alice") in
  (let st1 := step (fresh_app "alice" 10) (Sample first NoFault noon crown_sample) in
   let st2 := flush_timer FailCommit noon st1 in
   let st3 := flush_timer NoFault noon st2 in
   List.length (buffer st1) = 1%nat
   /\ buffer st2 = buffer st1
   /\ rows (durable (conn st2)) = []
   /\ buffer st3 = []
   /\ map contents (rows (durable (conn st3))) = [stored first; stored first])
  /\ (let st1 := run [Sample first NoFault noon crown_sample;
                      Sample second NoFault noon crown_sample] (fresh_app "alice" 10) in
      let st2 := flush_timer (FailExecute 1) noon st1 in
      let st3 := flush_timer NoFault noon st2 in
      List.length (buffer st1) = 2%nat
      /\ buffer st2 = buffer st1
      /\ rows (durable (conn st2)) = []
      /\ buffer st3 = []
      /\ map contents (rows (durable (conn st3)))
         = [stored first; stored first; stored second]).
Proof. vm_compute. repeat split. Qed.

(** C2, counterexample: a record that has a timestamp field holding the
    empty string loses that value; the row stores the wall-clock reading in
    the timestamp column and in the payload. *)
Lemma empty_timestamp_is_overwritten :
  let P := [("timestamp", JStr ""); ("deviceId", JStr "crown")] in
  exists st1,
    brainwave_callback "2024-01-01T10:00:00" NoFault noon P (fresh_app "alice" 10) = Ok st1
    /\ map (fun r => (row_timestamp r, loads (row_data r)))
         (rows (durable (conn (flush_buffer NoFault noon st1))))
       = [(Some "2024-01-01T10:00:00",
           Some (JObj [("timestamp", JStr "2024-01-01T10:00:00");
                       ("deviceId", JStr "crown")]))].
Proof. eexists. split; [reflexivity|]. vm_compute. reflexivity. Qed.

(** C2, amended: a payload [P] delivered without a timestamp field and then
    flushed, with no failure of the store, produces exactly one row, after
    the rows of the records buffered before it; its data column decodes to
    [P] with the field [timestamp] added, holding the wall-clock reading,
    which is also the timestamp column.  A payload whose timestamp field
    is a non-empty string produces exactly one row whose timestamp column
    is that string and whose data column decodes to the payload
    unchanged. *)
Theorem ingest_flush_roundtrip (now : string) (clock1 clock2 : nat -> string)
  (P : dict) (st st1 : NeurosityApp) :
  ready st -> wf_dict P ->
  brainwave_callback now NoFault clock1 P st = Ok st1 ->
  let st2 := flush_buffer NoFault clock2 st1 in
  (dict_get "timestamp" P = None ->
   exists earlier r,
     rows (durable (conn st2)) = rows (view (conn st)) ++ earlier ++ [r]
     /\ List.length earlier = List.length (buffer st)
     /\ row_timestamp r = Some now
     /\ loads (row_data r) = Some (JObj (P ++ [("timestamp", JStr now)])))
  /\ (forall ts, dict_get "timestamp" P = Some (JStr ts) -> ts <> "" ->
      exists earlier r,
        rows (durable (conn st2)) = rows (view (conn st)) ++ earlier ++ [r]
        /\ List.length earlier = List.length (buffer st)
        /\ row_timestamp r = Some ts
        /\ loads (row_data r) = Some (JObj P)
        /\ dict_get "timestamp" P = Some (JStr ts)).
Proof.
  intros Hr Hwf Hcb st2. split.
  - intros Hnone.
    pose proof (stamp_missing now P Hnone) as Es.
    assert (Hg : dict_get "timestamp" (stamp now P) = Some (JStr now)).
    { unfold stamp, dict_get_default. rewrite Hnone. cbn [truthy]. apply dict_get_set_eq. }
    assert (Hs : storable (stamp now P) = true).
    { unfold storable. now rewrite Hg. }
    destruct (callback_then_flush now clock1 clock2 P st st1 _ Hr Hg Hs Hcb)
      as [_ (mid & earlier & Em & Hl & Hc)].
    fold st2 in Hc. cbv zeta in Hc. rewrite Hc.
    cbn [durable insert_row rows bind_text]. rewrite Em, <- app_assoc.
    eexists earlier, _. split; [reflexivity|]. split; [exact Hl|].
    cbn [row_timestamp row_data]. split; [reflexivity|].
    rewrite <- Es. apply loads_dumps. now apply wf_dict_stamp.
  - intros ts Hts Hne.
    assert (Ht : truthy (JStr ts) = true).
    { cbn. destruct (String.eqb_spec ts ""); [contradiction | reflexivity]. }
    pose proof (stamp_truthy now P _ Hts Ht) as Es.
    assert (Hg : dict_get "timestamp" (stamp now P) = Some (JStr ts)) by now rewrite Es.
    assert (Hs : storable (stamp now P) = true).
    { unfold storable. now rewrite Hg. }
    destruct (callback_then_flush now clock1 clock2 P st st1 _ Hr Hg Hs Hcb)
      as [_ (mid & earlier & Em & Hl & Hc)].
    fold st2 in Hc. cbv zeta in Hc. rewrite Hc, Es.
    cbn [durable insert_row rows bind_text]. rewrite Em, <- app_assoc.
    eexists earlier, _. split; [reflexivity|]. split; [exact Hl|].
    cbn [row_timestamp row_data].
    repeat apply conj; [reflexivity | now apply loads_dumps | exact Hts].
Qed.

Lemma ingest_flush_roundtrip_witness :
  (exists earlier r,
      rows (durable (conn (flush_buffer NoFault noon
              (buffer_data NoFault noon
                 (stamp "2024-01-01T10:00:00" raw_sample)
                 (print (Received 2 (JStr "2024-01-01T10:00:00")) (fresh_app "alice" 10))))))
      = rows (view (conn (fresh_app "alice" 10))) ++ earlier ++ [r]
      /\ List.length earlier = List.length (buffer (fresh_app "alice" 10))
      /\ row_timestamp r = Some "2024-01-01T10:00:00"
      /\ loads (row_data r)
         = Some (JObj (raw_sample ++ [("timestamp", JStr "2024-01-01T10:00:00")])))
  /\ (exists earlier r,
         rows (durable (conn (flush_buffer NoFault noon
                 (buffer_data NoFault noon
                    (stamp "2024-01-01T10:00:00" stamped_sample)
                    (print (Received 0 (JStr "2023-12-31T23:59:59")) (fresh_app "alice" 1))))))
         = rows (view (conn (fresh_app "alice" 1))) ++ earlier ++ [r]
         /\ List.length earlier = List.length (buffer (fresh_app "alice" 1))
         /\ row_timestamp r = Some "2023-12-31T23:59:59"
         /\ loads (row_data r) = Some (JObj stamped_sample)
         /\ dict_get "timestamp" stamped_sample = Some (JStr "2023-12-31T23:59:59")).
Proof.
  split.
  - apply (ingest_flush_roundtrip "2024-01-01T10:00:00" noon noon raw_sample
             (fresh_app "alice" 10)).
    + split; reflexivity.
    + split; [compute_done|].
      vm_compute. repeat split; try discriminate; compute_done.
    + reflexivity.
    + reflexivity.
  - apply (ingest_flush_roundtrip "2024-01-01T10:00:00" noon noon stamped_sample
             (fresh_app "alice" 1)).
    + split; reflexivity.
    + split; [compute_done | repeat split].
    + reflexivity.
    + reflexivity.
    + discriminate.
Defined.

(** C3, counterexample: the initialization the application runs at start-up
    creates the primary table and its index, and no aggregate table. *)
Lemma init_database_creates_no_aggregate_table :
  exists c, init_database "neurosity_data.db" ∅ = Ok c
    /\ has_table "brainwaves_raw" (durable c) = true
    /\ has_table "aggregated_data" (durable c) = false.
Proof. eexists. split; [reflexivity|]. split; reflexivity. Qed.

(** C3, amended: [setup_database] creates the primary table, its
    timestamp index and the aggregate table when they are absent;
    [init_database] of the application creates the primary table and its
    timestamp index, and no aggregate table.  Both are idempotent: on every
    path and every content of the file they keep the rows, introduce no
    second table or index of a name, and a second call changes nothing. *)
Theorem initialization_idempotent (db_path : string) (fs : gmap string database) :
  let d := durable (connect db_path fs) in
  (exists fs1 d1,
      setup_database db_path fs = Ok fs1
      /\ fs1 !! db_path = Some d1
      /\ has_table "brainwaves_raw" d1 = true
      /\ has_index "idx_timestamp" d1 = true
      /\ has_table "aggregated_data" d1 = true
      /\ rows d1 = rows d
      /\ (unique_names d -> unique_names d1)
      /\ setup_database db_path fs1 = Ok fs1)
  /\ (exists c,
         init_database db_path fs = Ok c
         /\ view c = durable c
         /\ has_table "brainwaves_raw" (durable c) = true
         /\ has_index "idx_timestamp" (durable c) = true
         /\ (has_table "aggregated_data" d = false ->
             has_table "aggregated_data" (durable c) = false)
         /\ rows (durable c) = rows d
         /\ (unique_names d -> unique_names (durable c))
         /\ init_database db_path (on_disk db_path c fs) = Ok c).
Proof.
  intros d. split.
  - destruct (setup_database_schema db_path fs)
      as (d1 & E & H1 & H2 & H3 & Hr & _ & Hu & _). fold d in Hr, Hu.
    exists (<[db_path := d1]> fs), d1.
    repeat apply conj; try assumption; [apply lookup_insert_eq|].
    destruct (setup_database_schema db_path (<[db_path := d1]> fs))
      as (d2 & E2 & _ & _ & _ & _ & _ & _ & Hfix).
    unfold connect in Hfix. rewrite lookup_insert_eq in Hfix. cbn in Hfix.
    rewrite E2, (Hfix H1 H2 H3), insert_insert_eq. reflexivity.
  - destruct (init_database_schema db_path fs)
      as (d1 & E & H1 & H2 & Hr & _ & Hu & _ & Hn & _). fold d in Hr, Hu, Hn.
    exists {| durable := d1; view := d1 |}. cbn [durable view].
    repeat apply conj; try assumption; [reflexivity|].
    destruct (init_database_schema db_path (on_disk db_path {| durable := d1; view := d1 |} fs))
      as (d2 & E2 & _ & _ & _ & _ & _ & _ & _ & Hfix).
    unfold connect, on_disk in Hfix. rewrite lookup_insert_eq in Hfix. cbn in Hfix.
    rewrite E2, (Hfix H1 H2). reflexivity.
Qed.

Lemma initialization_idempotent_witness :
  exists c,
    init_database "neurosity_data.db"
      {["neurosity_data.db" := store_of [alice_row 1 "2024-01-01T10:00:00" "{}"]]} = Ok c
    /\ rows (durable c) = [alice_row 1 "2024-01-01T10:00:00" "{}"]
    /\ unique_names (durable c).
Proof.
  destruct (initialization_idempotent "neurosity_data.db"
              {["neurosity_data.db" := store_of [alice_row 1 "2024-01-01T10:00:00" "{}"]]})
    as [_ (c & E & _ & _ & _ & _ & Hr & Hu & _)].
  exists c. split; [exact E|]. split; [exact Hr|]. apply Hu.
  split; vm_compute; repeat constructor; compute_done.
Defined.

(** C4, counterexample: with a buffer size of 1, two samples whose flushes
    fail leave two records in the buffer; and with a negative buffer size
    the empty buffer already exceeds the size. *)
Lemma buffer_outgrows_size_when_flushes_fail :
  let st := run [Sample "2024-01-01T10:00:00" FailCommit noon crown_sample;
                 Sample "2024-01-01T10:00:01" FailCommit noon crown_sample]
              (fresh_app "alice" 1) in
  let st' := run [Sample "2024-01-01T10:00:00" NoFault noon crown_sample]
               (fresh_app "alice" (-1)) in
  ~ (Z.of_nat (List.length (buffer st)) <= buffer_size st)%Z
  /\ ~ (Z.of_nat (List.length (buffer st')) <= buffer_size st')%Z.
Proof. vm_compute. split; intros H; apply H; reflexivity. Qed.

(** C4, amended: when the buffer size is not negative and no flush fails
    (nothing disturbs the store and every sample has a timestamp the store
    takes), then after every sequence of samples and timer flushes, so after
    each ingest, the buffer holds at most [buffer_size] records; and a flush
    that reports success has cleared the buffer. *)
Theorem buffer_bounded_when_flushes_succeed (ops : list op) (st : NeurosityApp) :
  (0 <= buffer_size st)%Z -> ready st -> buffer st = [] -> Forall calm ops ->
  (Z.of_nat (List.length (buffer (run ops st))) <= buffer_size st)%Z
  /\ (forall f clock st' n,
        stdout (flush_buffer f clock st') = stdout st' ++ [Flushed n] ->
        buffer (flush_buffer f clock st') = []).
Proof.
  intros HT Hr Hb Hc. split.
  - destruct (run_calm_bound ops st Hr Hc) as (_ & _ & B).
    + rewrite Hb. cbn [List.length]. lia.
    + lia.
  - intros f clock st' n Hout.
    destruct (buffer st') as [|x b] eqn:E.
    + unfold flush_buffer. now rewrite E.
    + destruct (flush_buffer_outcome f clock st') as [[H _]|[_ [e He]]];
        [now rewrite E | exact H |].
      rewrite He in Hout. apply app_inj_tail in Hout as [_ Hout]. discriminate.
Qed.

Lemma buffer_bounded_when_flushes_succeed_witness :
  (Z.of_nat (List.length (buffer
      (run [Sample "2024-01-01T10:00:00" NoFault noon crown_sample;
            Sample "2024-01-01T10:00:01" NoFault noon crown_sample;
            Timer NoFault noon;
            Sample "2024-01-01T10:00:02" NoFault noon crown_sample]
         (fresh_app "alice" 2)))) <= 2)%Z.
Proof.
  apply (buffer_bounded_when_flushes_succeed
           [Sample "2024-01-01T10:00:00" NoFault noon crown_sample;
            Sample "2024-01-01T10:00:01" NoFault noon crown_sample;
            Timer NoFault noon;
            Sample "2024-01-01T10:00:02" NoFault noon crown_sample]
           (fresh_app "alice" 2)).
  - cbn. lia.
  - split; reflexivity.
  - reflexivity.
  - repeat constructor.
Defined.

(** C6, counterexample: with threshold 1, one sample whose flush fails
    leaves one record in the buffer and no completed flush, where the claim
    has one flush and an empty buffer; with threshold -1 one sample is
    flushed once, where [floor (1 / -1)] is [-1]. *)
Lemma failed_flush_breaks_flush_count :
  let st := run [Sample "2024-01-01T10:00:00" FailCommit noon crown_sample]
              (fresh_app "alice" 1) in
  let st' := run [Sample "2024-01-01T10:00:00" NoFault noon crown_sample]
               (fresh_app "alice" (-1)) in
  ~ (Z.of_nat (flushes st) = 1 / 1 /\ Z.of_nat (List.length (buffer st)) = 1 mod 1)%Z
  /\ ~ (Z.of_nat (flushes st') = 1 / -1)%Z.
Proof. vm_compute. split; [intros [H _] | intros H]; discriminate H. Qed.

(** C6, amended: for a threshold [T >= 1] and [N] samples delivered one by
    one to a started application, with no timer flush in between and no
    flush that fails, the number of completed flushes is [floor (N / T)] and
    the buffer holds [N mod T] records afterwards; and an ingest that brings
    the buffer length to the threshold is a flush of the buffer with the
    record in it, run before the ingest returns. *)
Theorem size_triggered_flushes (ops : list op) (st : NeurosityApp) :
  (1 <= buffer_size st)%Z -> ready st -> buffer st = [] -> flushes st = 0%nat ->
  Forall calm ops -> Forall is_sample ops ->
  let N := Z.of_nat (List.length ops) in
  let T := buffer_size st in
  (Z.of_nat (flushes (run ops st)) = N / T)%Z
  /\ (Z.of_nat (List.length (buffer (run ops st))) = N mod T)%Z
  /\ (forall f clock data st',
        (buffer_size st' <= Z.of_nat (List.length (buffer st')) + 1)%Z ->
        buffer_data f clock data st'
        = flush_buffer f clock
            {| user_name := user_name st'; buffer := buffer st' ++ [data];
               buffer_size := buffer_size st'; conn := conn st';
               stdout := stdout st' |}).
Proof.
  intros HT Hr Hb Hf Hc Hs N T.
  destruct (run_samples_count ops st Hr Hc Hs HT) as [B C].
  { rewrite Hb. cbn [List.length]. lia. }
  rewrite Hb, Hf in C. cbn [List.length] in C. fold N T in B, C.
  split; [|split].
  - apply (Z.div_unique_pos N T _ (Z.of_nat (List.length (buffer (run ops st))))); lia.
  - apply (Z.mod_unique_pos N T (Z.of_nat (flushes (run ops st)))); lia.
  - intros f clock data st'. apply buffer_data_reaches.
Qed.

Lemma size_triggered_flushes_witness :
  let ops := [Sample "2024-01-01T10:00:00" NoFault noon crown_sample;
              Sample "2024-01-01T10:00:01" NoFault noon crown_sample;
              Sample "2024-01-01T10:00:02" NoFault noon crown_sample;
              Sample "2024-01-01T10:00:03" NoFault noon crown_sample;
              Sample "2024-01-01T10:00:04" NoFault noon crown_sample] in
  (Z.of_nat (flushes (run ops (fresh_app "alice" 2))) = 5 / 2)%Z
  /\ (Z.of_nat (List.length (buffer (run ops (fresh_app "alice" 2)))) = 5 mod 2)%Z.
Proof.
  intros ops.
  destruct (size_triggered_flushes ops (fresh_app "alice" 2)) as (H1 & H2 & _).
  - cbn. lia.
  - split; reflexivity.
  - reflexivity.
  - reflexivity.
  - repeat constructor.
  - repeat constructor.
  - split; [exact H1 | exact H2].
Defined.

(** C9, counterexample: a sample whose timestamp is the number 5 is stored
    with the text "5" in the timestamp column (the column has TEXT
    affinity), while the timestamp field of the decoded data column is the
    number 5. *)
Lemma numeric_timestamp_column_differs :
  exists st1,
    brainwave_callback "2024-01-01T10:00:00" NoFault noon
      [("timestamp", JNum 5)] (fresh_app "alice" 10) = Ok st1
    /\ map (fun r => (column_value r, payload_timestamp r))
         (rows (durable (conn (flush_buffer NoFault noon st1))))
       = [(JStr "5", Some (JNum 5))].
Proof. eexists. split; [reflexivity|]. vm_compute. reflexivity. Qed.

(** C9, amended: for every record whose timestamp field is absent, falsy or
    a string, delivered to the application and then flushed with no failure
    of the store, the timestamp column of the stored row is a text and
    equals the timestamp field of the decoded data column of that row. *)
Theorem timestamp_column_matches_payload (now : string)
  (clock1 clock2 : nat -> string) (P : dict) (st st1 : NeurosityApp) :
  ready st -> wf_dict P ->
  (forall v, dict_get "timestamp" P = Some v -> truthy v = true -> exists s, v = JStr s) ->
  brainwave_callback now NoFault clock1 P st = Ok st1 ->
  let st2 := flush_buffer NoFault clock2 st1 in
  exists earlier r ts,
    rows (durable (conn st2)) = rows (view (conn st)) ++ earlier ++ [r]
    /\ List.length earlier = List.length (buffer st)
    /\ row_data r = dumps (JObj (stamp now P))
    /\ row_timestamp r = Some ts
    /\ payload_timestamp r = Some (column_value r).
Proof.
  intros Hr Hwf Hstr Hcb st2.
  destruct (stamp_timestamp now P) as (v & Hg & Hcase).
  assert (Hs : exists s, v = JStr s).
  { destruct Hcase as [->|[H1 H2]]; [now exists now | eauto]. }
  destruct Hs as [s ->].
  assert (Hst : storable (stamp now P) = true).
  { unfold storable. now rewrite Hg. }
  destruct (callback_then_flush now clock1 clock2 P st st1 _ Hr Hg Hst Hcb)
    as [_ (mid & earlier & Em & Hl & Hc)].
  fold st2 in Hc. cbv zeta in Hc. rewrite Hc.
  cbn [durable insert_row rows bind_text]. rewrite Em, <- app_assoc.
  eexists earlier, _, s. split; [reflexivity|]. split; [exact Hl|].
  split; [reflexivity|]. split; [reflexivity|].
  unfold payload_timestamp, column_value. cbn [row_data row_timestamp].
  rewrite (loads_dumps (JObj (stamp now P))) by now apply wf_dict_stamp.
  exact Hg.
Qed.

Lemma timestamp_column_matches_payload_witness :
  exists earlier r ts,
    rows (durable (conn (flush_buffer NoFault noon
            (buffer_data NoFault noon
               (stamp "2024-01-01T10:00:00" raw_sample)
               (print (Received 2 (JStr "2024-01-01T10:00:00")) (fresh_app "alice" 10))))))
    = rows (view (conn (fresh_app "alice" 10))) ++ earlier ++ [r]
    /\ List.length earlier = List.length (buffer (fresh_app "alice" 10))
    /\ row_data r = dumps (JObj (stamp "2024-01-01T10:00:00" raw_sample))
    /\ row_timestamp r = Some ts
    /\ payload_timestamp r = Some (column_value r).
Proof.
  apply (timestamp_column_matches_payload "2024-01-01T10:00:00" noon noon
           raw_sample (fresh_app "alice" 10)).
  - split; reflexivity.
  - split; [compute_done|].
    vm_compute. repeat split; try discriminate; compute_done.
  - intros v H. vm_compute in H. discriminate H.
  - reflexivity.
Defined.

Lemma map_result_forall {A B} (g : A -> result B) (Q : A -> B -> Prop) l :
  Forall (fun x => exists y, g x = Ok y /\ Q x y) l ->
  exists l', map_result g l = Ok l'
    /\ Forall (fun y => exists x, In x l /\ Q x y) l'.
Proof.
  induction 1 as [|x l (y & Hy & HQ) Hl (l' & E & IH)]; cbn [map_result].
  - exists []. split; [reflexivity | constructor].
  - rewrite Hy, E. exists (y :: l'). split; [reflexivity|]. constructor.
    + exists x. split; [now left | exact HQ].
    + eapply Forall_impl; [exact IH|]. intros z (x' & Hin & Hq).
      exists x'. split; [now right | exact Hq].
Qed.

Lemma limit_rows_in {A} n (l : list A) x : In x (limit_rows n l) -> In x l.
Proof.
  unfold limit_rows. destruct (n <? 0)%Z; [auto|].
  intros H. apply list_elem_of_In. apply list_elem_of_In in H.
  now apply (subseteq_take (Z.to_nat n) l).
Qed.

Lemma order_by_timestamp_desc_in l x : In x (order_by_timestamp_desc l) <-> In x l.
Proof.
  split; apply Permutation_in; [|symmetry]; apply order_by_timestamp_desc_perm.
Qed.

Lemma bind_int_ok n : int64 n -> bind_int n = Ok n.
Proof.
  unfold int64, bind_int. intros [H1 H2].
  destruct (Z.leb_spec (- 2 ^ 63) n); [|lia].
  destruct (Z.ltb_spec n (2 ^ 63)); [reflexivity | lia].
Qed.

Lemma recent_of_row_ok r :
  summarizable r ->
  exists rec, recent_of_row r = Ok rec
    /\ exists data, loads (row_data r) = Some (JObj data)
         /\ recent_timestamp rec = row_timestamp r
         /\ recent_user_name rec = row_user_name r
         /\ (dict_get "deviceId" data = None -> recent_deviceId rec = JStr "unknown")
         /\ (dict_get "data" data = None -> recent_channels rec = 0%nat).
Proof.
  intros (data & n & Hl & Hn). unfold recent_of_row, loads_dict. rewrite Hl, Hn.
  eexists. split; [reflexivity|]. exists data. cbn.
  repeat apply conj; try reflexivity.
  - unfold dict_get_default. now intros ->.
  - intros Hd. unfold dict_get_default in Hn. rewrite Hd in Hn. cbn in Hn. congruence.
Qed.

Lemma export_of_row_ok r :
  decodable r ->
  exists rec, export_of_row r = Ok rec
    /\ exists data, loads (row_data r) = Some (JObj data)
         /\ export_id rec = row_id r
         /\ export_timestamp rec = row_timestamp r
         /\ export_user_name rec = row_user_name r
         /\ export_data_json rec = row_data r
         /\ (dict_get "deviceId" data = None -> export_deviceId rec = JStr "unknown").
Proof.
  intros (data & Hl). unfold export_of_row, loads_dict. rewrite Hl.
  eexists. split; [reflexivity|]. exists data. cbn.
  repeat apply conj; try reflexivity.
  unfold dict_get_default. now intros ->.
Qed.

Lemma forall_sublist {A} (P : A -> Prop) l l' :
  (forall x, In x l' -> In x l) -> Forall P l -> Forall P l'.
Proof.
  intros Hsub H. apply Forall_forall. intros x Hx. rewrite Forall_forall in H.
  apply H. apply list_elem_of_In. apply Hsub. now apply list_elem_of_In.
Qed.

Lemma get_recent_data_ok (d : database) (limit : Z) :
  has_table "brainwaves_raw" d = true ->
  int64 limit -> Forall summarizable (rows d) ->
  exists recs, get_recent_data limit d = Ok recs
    /\ Forall (fun rec => exists r data,
                 In r (rows d) /\ loads (row_data r) = Some (JObj data)
                 /\ recent_timestamp rec = row_timestamp r
                 /\ recent_user_name rec = row_user_name r
                 /\ (dict_get "deviceId" data = None -> recent_deviceId rec = JStr "unknown")
                 /\ (dict_get "data" data = None -> recent_channels rec = 0%nat)) recs.
Proof.
  intros Ht Hi Hs. unfold get_recent_data, select_recent.
  rewrite Ht, (bind_int_ok _ Hi).
  set (results := limit_rows limit (order_by_timestamp_desc (rows d))).
  assert (Hsub : forall x, In x results -> In x (rows d)).
  { intros x Hx. apply order_by_timestamp_desc_in. eapply limit_rows_in, Hx. }
  destruct (map_result_forall recent_of_row
              (fun r rec => exists data, loads (row_data r) = Some (JObj data)
                 /\ recent_timestamp rec = row_timestamp r
                 /\ recent_user_name rec = row_user_name r
                 /\ (dict_get "deviceId" data = None -> recent_deviceId rec = JStr "unknown")
                 /\ (dict_get "data" data = None -> recent_channels rec = 0%nat))
              results) as (recs & E & HF).
  { eapply Forall_impl; [apply (forall_sublist _ _ _ Hsub Hs)|].
    intros r Hr. apply recent_of_row_ok, Hr. }
  exists recs. split; [exact E|].
  eapply Forall_impl; [exact HF|]. intros rec (r & Hin & data & H).
  exists r, data. split; [now apply Hsub | exact H].
Qed.


Lemma recent_of_row_timestamp x y :
  recent_of_row x = Ok y -> recent_timestamp y = row_timestamp x.
Proof.
  unfold recent_of_row. destruct (loads_dict _); [|discriminate].
  destruct (py_len _); [|discriminate]. now intros [= <-].
Qed.








Lemma between_spec start_time end_time ts :
  between start_time end_time ts = true
  <-> exists t, ts = Some t /\ String.leb start_time t = true
        /\ String.leb t end_time = true.
Proof.
  destruct ts as [t|]; cbn [between].
  - rewrite andb_true_iff. split.
    + intros [H1 H2]. now exists t.
    + intros (t' & [= <-] & H1 & H2). now split.
  - split; [discriminate | intros (t & H & _); discriminate].
Qed.

(** C7: the hourly query returns one tuple for each pair of an hour prefix
    (the first 13 characters of the timestamp) and an owner that occurs among
    the rows of the range, with the number of those rows, in ascending order
    of the hour; on the three rows of the scenario it returns the two
    buckets of the specification. *)
Theorem hourly_counts :
  (forall (start_time end_time : string) (d : database),
      has_table "brainwaves_raw" d = true ->
      exists res,
        plot_data_volume_by_hour start_time end_time d = Ok res
        /\ StronglySorted (fun a b => String.leb (bucket_hour a) (bucket_hour b) = true) res
        /\ StronglySorted key_lt (map bucket_key res)
        /\ (forall h n u,
              In (h, n, u) res
              <-> n = count_key (h, u) (in_range start_time end_time d) /\ (0 < n)%nat)
        /\ (forall r, In r (rows d) ->
              (In r (in_range start_time end_time d)
               <-> exists t, row_timestamp r = Some t
                     /\ String.leb start_time t = true /\ String.leb t end_time = true)
              /\ (forall t, row_timestamp r = Some t ->
                  group_key r = (String.substring 0 13 t, row_user_name r))))
  /\ (forall (i1 i2 i3 : Z) (p1 p2 p3 : string) (d : database),
         has_table "brainwaves_raw" d = true ->
         rows d = [alice_row i1 "2024-01-01T10:00:00" p1;
                   alice_row i2 "2024-01-01T10:30:00" p2;
                   alice_row i3 "2024-01-01T11:15:00" p3] ->
         plot_data_volume_by_hour "2024-01-01T00:00:00" "2024-01-01T23:59:59" d
         = Ok [("2024-01-01T10", 2%nat, "alice"); ("2024-01-01T11", 1%nat, "alice")]).
Proof.
  split.
  - intros start_time end_time d Ht. unfold plot_data_volume_by_hour. rewrite Ht.
    fold (in_range start_time end_time d).
    destruct (group_counts_spec (in_range start_time end_time d)) as (Hs & Hp & Hc).
    set (groups := group_counts (in_range start_time end_time d)) in *.
    eexists. split; [reflexivity|].
    assert (Hk : map bucket_key (map (fun g => (fst (fst g), snd g, snd (fst g))) groups)
                 = map fst groups).
    { rewrite map_map. apply map_ext. now intros [[h u] n]. }
    split; [|split; [|split]].
    + apply (strongly_sorted_impl
               (fun a b => key_lt (bucket_key a) (bucket_key b))).
      * intros a b H. apply key_lt_hour in H. exact H.
      * clear - Hs. induction groups as [|[[h u] n] g IH]; [constructor|].
        cbn [map fst] in Hs. apply StronglySorted_inv in Hs as [Hg Hh].
        cbn [map]. constructor; [now apply IH|].
        apply Forall_forall. intros x Hx.
        apply list_elem_of_In, in_map_iff in Hx as ([[h' u'] n'] & <- & Hin).
        rewrite Forall_forall in Hh. apply (Hh (h', u')).
        apply list_elem_of_In, in_map_iff. now exists (h', u', n').
    + now rewrite Hk.
    + intros h n u. rewrite <- Hc. split.
      * intros Hin. apply in_map_iff in Hin as ([[h' u'] n'] & [= -> -> ->] & Hin).
        split; [symmetry; now apply group_count_in|].
        rewrite Forall_forall in Hp. apply (Hp (h, u, n)). now apply list_elem_of_In.
      * intros [-> Hpos]. apply in_map_iff.
        exists (h, u, group_count (h, u) groups). split; [reflexivity|].
        now apply group_count_found.
    + intros r Hr. split.
      * unfold in_range. rewrite filter_In, between_spec. tauto.
      * intros t Et. unfold group_key, hour_of. now rewrite Et.
  - intros i1 i2 i3 p1 p2 p3 d Ht Hrows.
    unfold plot_data_volume_by_hour. rewrite Ht, Hrows. vm_compute. reflexivity.
Qed.

Lemma hourly_counts_witness :
  let d := store_of [alice_row 1 "2024-01-01T10:00:00" "{}";
                     alice_row 2 "2024-01-01T10:30:00" "{}";
                     alice_row 3 "2024-01-01T11:15:00" "{}"] in
  (exists res,
      plot_data_volume_by_hour "2024-01-01T10:15:00" "2024-01-01T23:59:59" d = Ok res
      /\ StronglySorted (fun a b => String.leb (bucket_hour a) (bucket_hour b) = true) res
      /\ StronglySorted key_lt (map bucket_key res))
  /\ plot_data_volume_by_hour "2024-01-01T00:00:00" "2024-01-01T23:59:59" d
     = Ok [("2024-01-01T10", 2%nat, "alice"); ("2024-01-01T11", 1%nat, "alice")].
Proof.
  intros d. split.
  - destruct (proj1 hourly_counts "2024-01-01T10:15:00" "2024-01-01T23:59:59" d)
      as (res & E & H1 & H2 & _); [reflexivity|].
    exists res. split; [exact E|]. split; [exact H1 | exact H2].
  - apply (proj2 hourly_counts 1 2 3 "{}" "{}" "{}"); reflexivity.
Defined.

(** C8: the time-range query returns exactly the rows whose timestamp is a
    text between the two bounds, bounds included, in ascending order of the
    timestamp; for a positive limit the recent-record query returns one
    record for each of the [limit] most recent rows of the table, or for
    each row when the table has fewer, in descending order of the
    timestamp: the rows it reports and the rows it leaves out make up the
    table, and no row left out is more recent than a row reported. *)
Theorem range_and_recent_queries (start_time end_time : string) (d : database) :
  has_table "brainwaves_raw" d = true ->
  (exists res,
      get_data_by_timerange start_time end_time d = Ok res
      /\ Permutation res
           (map (fun r => (row_timestamp r, row_data r)) (in_range start_time end_time d))
      /\ StronglySorted (fun a b => ascending (fst a) (fst b)) res
      /\ (forall r, In r (rows d) ->
            (In r (in_range start_time end_time d)
             <-> exists t, row_timestamp r = Some t
                   /\ String.leb start_time t = true /\ String.leb t end_time = true)))
  /\ (forall limit, (0 < limit)%Z ->
      (forall recs, get_recent_data limit d = Ok recs ->
         (Z.of_nat (List.length recs) <= limit)%Z
         /\ StronglySorted descending (map recent_timestamp recs)
         /\ map recent_timestamp recs
            = firstn (Z.to_nat limit)
                (map row_timestamp (order_by_timestamp_desc (rows d)))
         /\ List.length recs = Nat.min (Z.to_nat limit) (List.length (rows d))
         /\ exists reported left_out,
              Permutation (reported ++ left_out) (rows d)
              /\ Forall2 (fun r rec => recent_timestamp rec = row_timestamp r
                                       /\ recent_user_name rec = row_user_name r)
                   reported recs
              /\ (forall r r', In r reported -> In r' left_out ->
                    descending (row_timestamp r) (row_timestamp r')))
      /\ (int64 limit -> Forall summarizable (rows d) ->
          exists recs, get_recent_data limit d = Ok recs)).
Proof.
  intros Ht. split.
  - unfold get_data_by_timerange. rewrite Ht. fold (in_range start_time end_time d).
    eexists. split; [reflexivity|]. split; [|split].
    + apply Permutation_map. apply sort_by_perm.
    + apply strongly_sorted_map with (R := fun a b => ascending (fst a) (fst b)).
      apply order_by_timestamp_sorted.
    + intros r Hr. unfold in_range. rewrite filter_In, between_spec. tauto.
  - intros limit Hpos. split.
    + intros recs. unfold get_recent_data, select_recent. rewrite Ht.
      destruct (bind_int limit) as [n|e] eqn:Eb; [|discriminate].
      assert (n = limit) as ->.
      { unfold bind_int in Eb. destruct (_ && _); congruence. }
      intros Hm.
      pose proof (map_result_map recent_of_row recent_timestamp row_timestamp _ recs
                    recent_of_row_timestamp Hm) as Hts.
      rewrite Hts. split; [|split; [|split; [|split]]].
      * rewrite <- (length_map recent_timestamp), Hts, length_map.
        apply limit_rows_length. lia.
      * apply strongly_sorted_map with (R := descending).
        apply limit_rows_sorted, order_by_timestamp_desc_sorted.
      * unfold limit_rows. destruct (Z.ltb_spec limit 0); [lia|].
        now rewrite firstn_map.
      * rewrite (map_result_length _ _ _ Hm).
        destruct (limit_rows_split limit (order_by_timestamp_desc (rows d)))
          as (rest & _ & Hlen).
        rewrite Hlen by lia.
        now rewrite (Permutation_length (order_by_timestamp_desc_perm (rows d))).
      * destruct (limit_rows_split limit (order_by_timestamp_desc (rows d)))
          as (rest & Esplit & _).
        exists (limit_rows limit (order_by_timestamp_desc (rows d))), rest.
        split; [|split].
        -- rewrite <- Esplit. apply order_by_timestamp_desc_perm.
        -- apply (map_result_related recent_of_row); [|exact Hm].
           intros x y. unfold recent_of_row. destruct (loads_dict _); [|discriminate].
           destruct (py_len _); [|discriminate]. intros [= <-]. now split.
        -- intros r r' Hr Hr'.
           pose proof (order_by_timestamp_desc_sorted (rows d)) as Hs.
           rewrite Esplit in Hs.
           exact (strongly_sorted_app_cross _ _ _ _ _ Hs Hr Hr').
    + intros Hi Hs. destruct (get_recent_data_ok d limit Ht Hi Hs) as (recs & E & _).
      now exists recs.
Qed.

Lemma range_and_recent_queries_witness :
  let d := store_of [alice_row 1 "2024-01-01T10:00:00" "{}";
                     alice_row 2 "2024-01-01T11:15:00" "{}";
                     alice_row 3 "2024-01-01T10:30:00" "{}"] in
  (exists res,
      get_data_by_timerange "2024-01-01T10:15:00" "2024-01-01T12:00:00" d = Ok res
      /\ Permutation res
           (map (fun r => (row_timestamp r, row_data r))
              (in_range "2024-01-01T10:15:00" "2024-01-01T12:00:00" d))
      /\ StronglySorted (fun a b => ascending (fst a) (fst b)) res)
  /\ (exists recs, get_recent_data 2 d = Ok recs
        /\ (Z.of_nat (List.length recs) <= 2)%Z
        /\ StronglySorted descending (map recent_timestamp recs)
        /\ List.length recs = 2%nat
        /\ map recent_timestamp recs
           = [Some "2024-01-01T11:15:00"; Some "2024-01-01T10:30:00"]).
Proof.
  intros d.
  destruct (range_and_recent_queries "2024-01-01T10:15:00" "2024-01-01T12:00:00" d)
    as [(res & E & Hp & Hs & _) Hrecent]; [reflexivity|].
  split.
  - exists res. split; [exact E|]. split; [exact Hp | exact Hs].
  - destruct (Hrecent 2%Z) as [Hsound Hcomplete]; [lia|].
    destruct Hcomplete as [recs Erecs].
    + unfold int64. lia.
    + repeat constructor; eexists _, _; split; vm_compute; reflexivity.
    + exists recs. split; [exact Erecs|].
      destruct (Hsound recs Erecs) as (H1 & H2 & H3 & H4 & _).
      split; [exact H1|]. split; [exact H2|]. split; [exact H4|]. exact H3.
Defined.




(** * Further properties of the code *)

(** ** The shape of a flush, whatever goes wrong *)

Lemma insert_all_app clock user a b : forall k d,
  insert_all clock user k (a ++ b) d
  = insert_all clock user (k + List.length a) b (insert_all clock user k a d).
Proof.
  induction a as [|x a IH]; intros k d; cbn [List.app insert_all List.length].
  - now rewrite Nat.add_0_r.
  - rewrite IH. now rewrite Nat.add_succ_comm.
Qed.

Lemma rows_insert_all_stores clock user items : forall k d,
  exists new, rows (insert_all clock user k items d) = rows d ++ new
    /\ Forall2 (stores user) items new.
Proof.
  induction items as [|x items IH]; intros k d; cbn [insert_all].
  - exists []. split; [now rewrite app_nil_r | constructor].
  - destruct (IH (S k) (insert_row (item_timestamp (clock k) x) (dumps (JObj x)) user d))
      as (new & E & F).
    rewrite E. cbn [insert_row rows]. rewrite <- app_assoc.
    eexists. split; [reflexivity|]. constructor; [now split | exact F].
Qed.

Lemma master_insert_all clock user items : forall k d,
  master (insert_all clock user k items d) = master d.
Proof.
  induction items as [|x items IH]; intros k d; cbn [insert_all]; [reflexivity|].
  now rewrite IH.
Qed.

(** The loop of a flush inserts a prefix of the buffer, all of it when it
    does not raise. *)
Lemma insert_items_shape f clock user items : forall k c,
  exists j,
    (j <= List.length items)%nat
    /\ fst (insert_items f clock user k items c)
       = {| durable := durable c;
            view := insert_all clock user k (firstn j items) (view c) |}
    /\ (forall u, snd (insert_items f clock user k items c) = Ok u ->
        j = List.length items /\ forallb storable items = true
        /\ has_table "brainwaves_raw" (view c) = true \/ items = []).
Proof.
  induction items as [|x items IH]; intros k c.
  - exists 0%nat. destruct c. cbn. repeat split; auto.
  - cbn [insert_items]. unfold mbind, sql_bind, execute_insert.
    destruct (has_table "brainwaves_raw" (view c)) eqn:Ht;
      [|exists 0%nat; destruct c; cbn; repeat split; [lia | discriminate]].
    destruct (bind_text (dict_get_default "timestamp" (JStr (clock k)) x)) as [ts|e] eqn:Eb;
      [|exists 0%nat; destruct c; cbn; repeat split; [lia | discriminate]].
    destruct (fails_execute f k);
      [exists 0%nat; destruct c; cbn; repeat split; [lia | discriminate]|].
    destruct (IH (S k) {| durable := durable c;
                          view := insert_row ts (dumps (JObj x)) user (view c) |})
      as (j & Hj & Ev & Hok).
    exists (S j). cbn [List.length firstn insert_all]. split; [lia|].
    assert (Ets : item_timestamp (clock k) x = ts).
    { unfold item_timestamp. now rewrite Eb. }
    rewrite Ets. split; [exact Ev|].
    intros u Hu. left.
    assert (Hx : storable x = true).
    { unfold storable. unfold dict_get_default in Eb.
      destruct (dict_get "timestamp" x); [now rewrite Eb | reflexivity]. }
    destruct (Hok u Hu) as [[Ej [Hs _]] | Enil].
    + split; [now rewrite Ej|]. split; [|first [exact Ht | reflexivity]]. cbn [forallb]. now rewrite Hx, Hs.
    + rewrite Enil in *. cbn [List.length] in *. split; [lia|]. split; [|first [exact Ht | reflexivity]].
      cbn [forallb]. now rewrite Hx.
Qed.

(** The statements of a flush: cursor, inserts, commit. *)
Lemma flush_statements_shape f clock user items c :
  let out := (cursor f ;; insert_items f clock user 0 items ;; commit f) c in
  exists j,
    (j <= List.length items)%nat
    /\ view (fst out) = insert_all clock user 0 (firstn j items) (view c)
    /\ (((exists u, snd out = Ok u) /\ durable (fst out) = view (fst out)
         /\ j = List.length items /\ forallb storable items = true)
        \/ ((exists e, snd out = Raise e) /\ durable (fst out) = durable c)).
Proof.
  cbv zeta. unfold mbind, sql_bind.
  destruct (cursor f c) as [c0 [[]|e0]] eqn:Ec.
  - assert (c0 = c) as ->.
    { unfold cursor, sql_raise, mret, sql_ret in Ec; destruct f; inversion Ec; reflexivity. }
    destruct (insert_items_shape f clock user items 0%nat c) as (j & Hj & Ev & Hok).
    destruct (insert_items f clock user 0 items c) as [c1 [[]|e1]] eqn:Ei;
      cbn [fst snd] in *; subst c1.
    + assert (Hall : j = List.length items /\ forallb storable items = true).
      { destruct (Hok tt eq_refl) as [[Ej [Hs _]] | Enil]; [now split|].
        rewrite Enil in *. cbn in *. split; [lia | reflexivity]. }
      destruct Hall as [Ej Hs].
      exists j. split; [exact Hj|].
      unfold commit. destruct f; cbn [fst snd view durable];
        (split; [reflexivity|]);
        try (left; split; [now exists tt | now repeat split]).
      right. split; [now eexists | reflexivity].
    + exists j. split; [exact Hj|]. split; [reflexivity|].
      right. split; [now exists e1 | reflexivity].
  - assert (c0 = c) as ->.
    { unfold cursor, sql_raise, mret, sql_ret in Ec; destruct f; inversion Ec; reflexivity. }
    exists 0%nat. cbn. split; [lia|]. split; [reflexivity|].
    right. split; [now exists e0 | reflexivity].
Qed.

(** A flush inserts a prefix of the buffer into the view of the connection;
    then either everything was inserted and committed and the buffer is
    empty, or the file and the buffer are as before. *)
Lemma flush_buffer_cases f clock st :
  let st' := flush_buffer f clock st in
  user_name st' = user_name st /\ buffer_size st' = buffer_size st
  /\ exists j,
       (j <= List.length (buffer st))%nat
       /\ view (conn st')
          = insert_all clock (user_name st) 0 (firstn j (buffer st)) (view (conn st))
       /\ ((buffer st' = [] /\ durable (conn st') = view (conn st')
            /\ j = List.length (buffer st)
            /\ forallb storable (buffer st) = true)
           \/ (buffer st' = buffer st /\ durable (conn st') = durable (conn st))).
Proof.
  unfold flush_buffer. destruct (buffer st) as [|x b] eqn:E.
  - cbv zeta. split; [reflexivity|]. split; [reflexivity|].
    exists 0%nat. rewrite E. cbn. split; [lia|]. split; [reflexivity|]. now right.
  - rewrite <- E.
    destruct (flush_statements_shape f clock (user_name st) (buffer st) (conn st))
      as (j & Hj & Ev & Hcase).
    destruct ((cursor f ;; insert_items f clock (user_name st) 0 (buffer st) ;; commit f)
                (conn st)) as [c' [[]|e]];
      cbn [fst snd] in *; cbv zeta; cbn [user_name buffer_size buffer conn];
      (split; [reflexivity|]); (split; [reflexivity|]); exists j;
      (split; [exact Hj|]); (split; [exact Ev|]).
    + destruct Hcase as [(_ & Hd & Ej & Hs) | ([e He] & _)]; [|discriminate].
      left. now repeat split.
    + destruct Hcase as [([u Hu] & _) | (_ & Hd)]; [discriminate|].
      right. now split.
Qed.

(** ** What a session keeps, whatever goes wrong *)

Lemma delivered_app a b : delivered (a ++ b) = delivered a ++ delivered b.
Proof.
  induction a as [|o a IH]; [reflexivity|].
  change ((o :: a) ++ b) with (o :: (a ++ b)). cbn [delivered].
  destruct o as [now f clock data|f clock]; [|exact IH].
  destruct (ingestable now data); [|exact IH].
  rewrite IH. reflexivity.
Qed.

Lemma stores_rows_of_items user items added :
  Forall2 (stores user) items added ->
  Forall (fun r => exists item, In item items /\ stores user item r) added.
Proof.
  induction 1 as [|x r items added Hxr _ IH]; constructor.
  - exists x. split; [now left | exact Hxr].
  - eapply List.Forall_impl; [|exact IH].
    intros r' (item & Hin & Hs). exists item. split; [now right | exact Hs].
Qed.

Lemma stores_items_of_rows user items added :
  Forall2 (stores user) items added ->
  Forall (fun item => Exists (stores user item) added) items.
Proof.
  induction 1 as [|x r items added Hxr _ IH]; constructor.
  - now apply Exists_cons_hd.
  - eapply List.Forall_impl; [|exact IH].
    intros item Hex. now apply Exists_cons_tl.
Qed.

Lemma in_firstn_in {A} (x : A) (l : list A) : forall j, In x (firstn j l) -> In x l.
Proof.
  induction l as [|y l IH]; intros [|j] Hx; cbn in Hx; try contradiction.
  destruct Hx as [->|Hx]; [now left | right; now apply (IH j)].
Qed.

Lemma forall_in_firstn {A} (P : A -> Prop) j (l : list A) :
  Forall P l -> Forall P (firstn j l).
Proof.
  intros H. apply List.Forall_forall. intros x Hx.
  rewrite List.Forall_forall in H. apply H. now apply (in_firstn_in x l j).
Qed.

Lemma tracks_start st :
  durable (conn st) = view (conn st) ->
  tracks (rows (durable (conn st))) (user_name st) (buffer st) st.
Proof.
  intros E. split; [reflexivity|]. exists [], []. rewrite <- E, !app_nil_r.
  split; [reflexivity|]. split; [reflexivity|]. split; [constructor|].
  split; apply List.Forall_forall; intros x Hx; [now left | exact Hx].
Qed.

Lemma tracks_print base user L e st :
  tracks base user L st -> tracks base user L (print e st).
Proof. exact (fun H => H). Qed.

Lemma tracks_flush base user L f clock st :
  tracks base user L st -> tracks base user L (flush_buffer f clock st).
Proof.
  intros (Eu & new & pending & Ed & Ev & Hrows & Hall & Hbuf).
  destruct (flush_buffer_cases f clock st) as (Eu' & _ & j & Hj & Ev' & Hcase).
  cbv zeta in *.
  destruct (rows_insert_all_stores clock (user_name st) (firstn j (buffer st)) 0%nat
              (view (conn st))) as (added & Ea & Hadd).
  rewrite <- Ev' in Ea. rewrite Eu in Hadd.
  assert (Hadded : Forall (fun r => exists item, In item L /\ stores user item r) added).
  { eapply List.Forall_impl; [|exact (stores_rows_of_items _ _ _ Hadd)].
    intros r (item & Hin & Hs). exists item. split; [|exact Hs].
    pose proof (forall_in_firstn _ j _ Hbuf) as Hf.
    rewrite List.Forall_forall in Hf. now apply Hf. }
  split; [now rewrite Eu'|].
  destruct Hcase as [(Eb & Edv & Ej & _) | (Eb & Edd)].
  - exists (new ++ pending ++ added), []. rewrite Edv, Ea, Ev, Eb, !app_nil_r.
    split; [now rewrite <- !app_assoc|]. split; [now rewrite <- !app_assoc|].
    split; [rewrite app_assoc; apply Forall_app; split; assumption|].
    split; [|constructor].
    rewrite Ej, firstn_all in Hadd.
    pose proof (stores_items_of_rows _ _ _ Hadd) as Hst.
    rewrite List.Forall_forall in Hst, Hall. apply List.Forall_forall.
    intros item Hin. right. apply Exists_app.
    destruct (Hall item Hin) as [Hb | Hn]; [right | now left].
    apply Exists_app. right. now apply Hst.
  - exists new, (pending ++ added). rewrite Edd, Ea, Ev, Eb, Ed.
    split; [reflexivity|]. split; [now rewrite <- !app_assoc|].
    split; [rewrite app_assoc; apply Forall_app; split; assumption|].
    split; assumption.
Qed.

Lemma tracks_append base user L data st :
  tracks base user L st ->
  tracks base user (L ++ [data])
    {| user_name := user_name st; buffer := buffer st ++ [data];
       buffer_size := buffer_size st; conn := conn st; stdout := stdout st |}.
Proof.
  intros (Eu & new & pending & Ed & Ev & Hrows & Hall & Hbuf).
  split; [exact Eu|]. exists new, pending. cbn [conn buffer].
  split; [exact Ed|]. split; [exact Ev|].
  split.
  { eapply List.Forall_impl; [|exact Hrows].
    intros r (item & Hin & Hs). exists item. split; [|exact Hs].
    apply in_or_app. now left. }
  split.
  - apply Forall_app. split.
    + eapply List.Forall_impl; [|exact Hall].
      intros item [Hb|Hn]; [left; apply in_or_app; now left | now right].
    + constructor; [|constructor]. left. apply in_or_app. right. now left.
  - apply Forall_app. split.
    + eapply List.Forall_impl; [|exact Hbuf].
      intros item Hin. apply in_or_app. now left.
    + constructor; [|constructor]. apply in_or_app. right. now left.
Qed.

Lemma tracks_buffer_data base user L f clock data st :
  tracks base user L st ->
  tracks base user (L ++ [data]) (buffer_data f clock data st).
Proof.
  intros H. unfold buffer_data. cbv zeta.
  match goal with |- context [if ?b then _ else _] => destruct b end.
  - apply tracks_flush. now apply tracks_append.
  - now apply tracks_append.
Qed.

Lemma tracks_step base user L o st :
  tracks base user L st -> tracks base user (L ++ delivered [o]) (step st o).
Proof.
  intros H. destruct o as [now f clock data|f clock]; cbn [step delivered].
  - unfold brainwave_callback, ingestable. cbv zeta.
    destruct (py_len (dict_get_default "data" (JArr []) (stamp now data))) as [n|e].
    + apply tracks_buffer_data. now apply tracks_print.
    + now rewrite app_nil_r.
  - rewrite app_nil_r. unfold flush_timer.
    destruct (buffer st) eqn:E; [exact H|].
    apply tracks_flush. now apply tracks_print.
Qed.

Lemma tracks_run base user ops : forall L st,
  tracks base user L st -> tracks base user (L ++ delivered ops) (run ops st).
Proof.
  induction ops as [|o ops IH]; intros L st H.
  - cbn. now rewrite app_nil_r.
  - change (o :: ops) with ([o] ++ ops). rewrite delivered_app, app_assoc.
    change (run ([o] ++ ops) st) with (run ops (step st o)).
    apply IH. now apply tracks_step.
Qed.

(** X1.  [flush_buffer] is all or nothing for the file, whatever fails in
    the storage engine: either the buffer is emptied and the file holds what
    the connection saw before, followed by one row per buffered record, in
    the order of the buffer, each with the record's JSON text and the user
    name of the application; or the buffer and the file are as they were. *)
Theorem flush_all_or_nothing (f : fault) (clock : nat -> string) (st : NeurosityApp) :
  let st' := flush_buffer f clock st in
  (buffer st' = []
   /\ durable (conn st') = view (conn st')
   /\ exists new,
        rows (durable (conn st')) = rows (view (conn st)) ++ new
        /\ Forall2 (stores (user_name st)) (buffer st) new)
  \/ (buffer st' = buffer st /\ durable (conn st') = durable (conn st)).
Proof.
  destruct (flush_buffer_cases f clock st) as (_ & _ & j & Hj & Ev & Hcase).
  cbv zeta in *.
  destruct Hcase as [(Eb & Edv & Ej & _) | (Eb & Edd)]; [left | now right].
  split; [exact Eb|]. split; [exact Edv|].
  rewrite Edv, Ev, Ej, firstn_all.
  apply rows_insert_all_stores.
Qed.

(** Of the operations run one after the other: every record is buffered
    or stored. *)
Lemma run_keeps_records (ops : list op) (st : NeurosityApp) :
  durable (conn st) = view (conn st) ->
  let st' := run ops st in
  forall item, In item (buffer st ++ delivered ops) ->
    In item (buffer st')
    \/ exists r, In r (rows (durable (conn st'))) /\ stores (user_name st) item r.
Proof.
  intros E st' item Hin.
  destruct (tracks_run _ _ ops _ _ (tracks_start st E))
    as (_ & new & pending & Ed & _ & _ & Hall & _).
  rewrite List.Forall_forall in Hall.
  destruct (Hall item Hin) as [Hb | Hex]; [now left | right].
  apply List.Exists_exists in Hex. destruct Hex as (r & Hr & Hs).
  exists r. split; [|exact Hs].
  fold st' in Ed. rewrite Ed. apply in_or_app. now right.
Qed.

(** X3.  The application only appends, and only what it was given: from a
    state with no open transaction, after any run and whatever fails, the
    file holds the rows it held before, then new rows; the connection sees
    the rows of the file, then rows that wait for a commit; each of the new
    and of the waiting rows holds the JSON text of a record that was
    buffered at the start or accepted since, with the user name of the
    application; and the buffer holds only such records. *)
Theorem run_appends_delivered_records (ops : list op) (st : NeurosityApp) :
  durable (conn st) = view (conn st) ->
  let st' := run ops st in
  exists new pending,
    rows (durable (conn st')) = rows (durable (conn st)) ++ new
    /\ rows (view (conn st')) = rows (durable (conn st')) ++ pending
    /\ Forall (fun r => exists item,
                 In item (buffer st ++ delivered ops)
                 /\ stores (user_name st) item r) (new ++ pending)
    /\ Forall (fun item => In item (buffer st ++ delivered ops)) (buffer st').
Proof.
  intros E st'.
  destruct (tracks_run _ _ ops _ _ (tracks_start st E))
    as (_ & new & pending & Ed & Ev & Hrows & _ & Hbuf).
  exists new, pending. fold st' in Ed, Ev, Hbuf.
  split; [exact Ed|]. split; [now rewrite Ev, Ed, app_assoc|].
  split; assumption.
Qed.

Lemma run_appends_delivered_records_witness :
  let st := fresh_app "alice" 2 in
  let st' := run troubled_session st in
  exists new pending,
    rows (durable (conn st')) = rows (durable (conn st)) ++ new
    /\ rows (view (conn st')) = rows (durable (conn st')) ++ pending
    /\ Forall (fun r => exists item,
                 In item (buffer st ++ delivered troubled_session)
                 /\ stores (user_name st) item r) (new ++ pending)
    /\ Forall (fun item => In item (buffer st ++ delivered troubled_session)) (buffer st').
Proof.
  apply (run_appends_delivered_records troubled_session (fresh_app "alice" 2)).
  reflexivity.
Defined.

(** ** Rowids and schema *)

Lemma max_row_id_bound l r : In r l -> (row_id r <= max_row_id l)%Z.
Proof.
  induction l as [|x l IH]; [contradiction|].
  cbn [max_row_id fold_right]. intros [->|Hin]; [lia|].
  specialize (IH Hin). unfold max_row_id in IH. lia.
Qed.

Lemma strongly_sorted_snoc {A} (R : A -> A -> Prop) l y :
  StronglySorted R l -> Forall (fun x => R x y) l -> StronglySorted R (l ++ [y]).
Proof.
  induction 1 as [|x l Hs IH Hx]; intros Hy; cbn.
  - repeat constructor.
  - inversion Hy as [|? ? Hxy Hl]; subst. constructor.
    + now apply IH.
    + apply Forall_app. split; [exact Hx | now constructor].
Qed.

Lemma ids_increasing_insert_row ts data user d :
  ids_increasing d -> ids_increasing (insert_row ts data user d).
Proof.
  unfold ids_increasing, insert_row. cbn [rows]. intros H.
  rewrite map_app. cbn [map row_id]. apply strongly_sorted_snoc; [exact H|].
  apply List.Forall_forall. intros i Hi. apply in_map_iff in Hi.
  destruct Hi as (r & <- & Hr). pose proof (max_row_id_bound _ _ Hr).
  unfold next_id. lia.
Qed.

Lemma ids_increasing_insert_all clock user items : forall k d,
  ids_increasing d -> ids_increasing (insert_all clock user k items d).
Proof.
  induction items as [|x items IH]; intros k d H; cbn [insert_all]; [exact H|].
  apply IH. now apply ids_increasing_insert_row.
Qed.

Lemma strongly_sorted_lt_nodup l : StronglySorted Z.lt l -> NoDup l.
Proof.
  induction 1 as [|i l Hs IH Hi]; [constructor|].
  apply NoDup_cons. split; [|exact IH].
  intros Hin. apply list_elem_of_In in Hin.
  rewrite List.Forall_forall in Hi. specialize (Hi i Hin). lia.
Qed.

(** The rowids and the schema across a flush. *)
Lemma flush_buffer_ids f clock st :
  ids_increasing (durable (conn st)) /\ ids_increasing (view (conn st)) ->
  ids_increasing (durable (conn (flush_buffer f clock st)))
  /\ ids_increasing (view (conn (flush_buffer f clock st))).
Proof.
  intros [Hd Hv].
  destruct (flush_buffer_cases f clock st) as (_ & _ & j & _ & Ev & Hcase).
  cbv zeta in *.
  assert (Hv' : ids_increasing (view (conn (flush_buffer f clock st)))).
  { rewrite Ev. now apply ids_increasing_insert_all. }
  split; [|exact Hv'].
  destruct Hcase as [(_ & Edv & _) | (_ & Edd)]; [now rewrite Edv | now rewrite Edd].
Qed.

Lemma flush_buffer_master f clock st m :
  master (durable (conn st)) = m /\ master (view (conn st)) = m ->
  master (durable (conn (flush_buffer f clock st))) = m
  /\ master (view (conn (flush_buffer f clock st))) = m.
Proof.
  intros [Hd Hv].
  destruct (flush_buffer_cases f clock st) as (_ & _ & j & _ & Ev & Hcase).
  cbv zeta in *.
  assert (Hv' : master (view (conn (flush_buffer f clock st))) = m).
  { rewrite Ev. now rewrite master_insert_all. }
  split; [|exact Hv'].
  destruct Hcase as [(_ & Edv & _) | (_ & Edd)]; [now rewrite Edv | now rewrite Edd].
Qed.

(** A property of the connection that every flush keeps is kept by every
    step of a run. *)
Lemma step_conn_invariant (P : connection -> Prop) :
  (forall f clock st, P (conn st) -> P (conn (flush_buffer f clock st))) ->
  forall o st, P (conn st) -> P (conn (step st o)).
Proof.
  intros Hflush o st H. destruct o as [now f clock data|f clock]; cbn [step].
  - unfold brainwave_callback. cbv zeta.
    destruct (py_len _); [|exact H].
    unfold buffer_data. cbv zeta.
    match goal with |- context [if ?b then _ else _] => destruct b end;
      [apply Hflush|]; exact H.
  - unfold flush_timer. destruct (buffer st); [exact H|].
    apply Hflush. exact H.
Qed.

Lemma run_conn_invariant (P : connection -> Prop) :
  (forall f clock st, P (conn st) -> P (conn (flush_buffer f clock st))) ->
  forall ops st, P (conn st) -> P (conn (run ops st)).
Proof.
  intros Hflush ops. induction ops as [|o ops IH]; intros st H; [exact H|].
  change (run (o :: ops) st) with (run ops (step st o)).
  apply IH. now apply step_conn_invariant.
Qed.

(** X4.  The application keeps the rowids apart and leaves the schema
    alone: when the rowids grow along the table in the file and in what the
    connection sees, and both have the same schema, then so it is after
    any run, whatever fails; the schema is the one from before. *)
Theorem run_keeps_ids_and_schema (ops : list op) (st : NeurosityApp) :
  ids_increasing (durable (conn st)) ->
  ids_increasing (view (conn st)) ->
  master (durable (conn st)) = master (view (conn st)) ->
  let st' := run ops st in
  ids_increasing (durable (conn st'))
  /\ ids_increasing (view (conn st'))
  /\ NoDup (map row_id (rows (view (conn st'))))
  /\ master (durable (conn st')) = master (view (conn st))
  /\ master (view (conn st')) = master (view (conn st)).
Proof.
  intros Hd Hv Hm st'.
  destruct (run_conn_invariant
              (fun c => ids_increasing (durable c) /\ ids_increasing (view c))
              flush_buffer_ids ops st (conj Hd Hv)) as [Hd' Hv'].
  destruct (run_conn_invariant
              (fun c => master (durable c) = master (view (conn st))
                        /\ master (view c) = master (view (conn st)))
              (fun f clock s => flush_buffer_master f clock s _) ops st
              (conj Hm eq_refl)) as [Hmd Hmv].
  split; [exact Hd'|]. split; [exact Hv'|]. split; [|now split].
  now apply strongly_sorted_lt_nodup.
Qed.

Lemma run_keeps_ids_and_schema_witness :
  let st := fresh_app "alice" 2 in
  let st' := run troubled_session st in
  ids_increasing (durable (conn st'))
  /\ ids_increasing (view (conn st'))
  /\ NoDup (map row_id (rows (view (conn st'))))
  /\ master (durable (conn st')) = master (view (conn st))
  /\ master (view (conn st')) = master (view (conn st)).
Proof.
  apply (run_keeps_ids_and_schema troubled_session (fresh_app "alice" 2)).
  - constructor.
  - constructor.
  - reflexivity.
Defined.

(** ** A record the store cannot take *)

Lemma flush_buffer_blocked f clock st :
  forallb storable (buffer st) = false ->
  buffer (flush_buffer f clock st) = buffer st
  /\ durable (conn (flush_buffer f clock st)) = durable (conn st)
  /\ flushes (flush_buffer f clock st) = flushes st.
Proof.
  intros Hbad.
  destruct (flush_buffer_cases f clock st) as (_ & _ & j & _ & _ & Hcase).
  cbv zeta in *.
  destruct Hcase as [(_ & _ & _ & Hs) | [Eb Ed]]; [congruence|].
  split; [exact Eb|]. split; [exact Ed|].
  assert (Hne : buffer st <> []).
  { intros E. rewrite E in Hbad. discriminate. }
  destruct (flush_buffer_outcome f clock st Hne) as [[E0 _] | (_ & e & Eo)];
    [congruence|].
  unfold flushes. rewrite Eo, List.filter_app, length_app. cbn. lia.
Qed.

Lemma forallb_snoc_false {A} (p : A -> bool) l x :
  forallb p l = false -> forallb p (l ++ [x]) = false.
Proof. intros H. rewrite forallb_app, H. reflexivity. Qed.

Lemma step_blocked o st :
  forallb storable (buffer st) = false ->
  buffer (step st o) = buffer st ++ delivered [o]
  /\ durable (conn (step st o)) = durable (conn st)
  /\ flushes (step st o) = flushes st.
Proof.
  intros Hbad. destruct o as [now f clock data|f clock]; cbn [step delivered].
  - unfold brainwave_callback, ingestable. cbv zeta.
    destruct (py_len _) as [n|e]; [|now rewrite app_nil_r].
    unfold buffer_data. cbv zeta.
    match goal with |- context [if ?b then _ else _] => destruct b end.
    + match goal with |- context [flush_buffer f clock ?s] =>
        destruct (flush_buffer_blocked f clock s) as (Eb & Ed & Ef)
      end.
      { cbn [buffer print]. now apply forallb_snoc_false. }
      rewrite Eb, Ed, Ef. repeat apply conj; try reflexivity.
      exact (flushes_print (Received n _) st eq_refl).
    + repeat apply conj; try reflexivity.
      exact (flushes_print (Received n _) st eq_refl).
  - rewrite app_nil_r. unfold flush_timer.
    destruct (buffer st) as [|x b] eqn:E; [now rewrite E|].
    rewrite <- E in *.
    destruct (flush_buffer_blocked f clock (print (TimerTriggered (List.length (buffer st))) st)
                Hbad) as (Eb & Ed & Ef).
    rewrite Eb, Ed, Ef. repeat apply conj; try reflexivity.
    exact (flushes_print (TimerTriggered _) st eq_refl).
Qed.

(** X5.  One record the store cannot take blocks the application for good:
    when the buffer holds a record whose timestamp cannot be bound to the
    TEXT column, then during any run that follows, whatever the storage
    engine does, no flush succeeds: the file stays as it is and the buffer
    only grows, by every record the callback accepts. *)
Theorem unstorable_record_blocks_every_flush (ops : list op) (st : NeurosityApp) :
  forallb storable (buffer st) = false ->
  let st' := run ops st in
  buffer st' = buffer st ++ delivered ops
  /\ durable (conn st') = durable (conn st)
  /\ flushes st' = flushes st.
Proof.
  cbv zeta. revert st. induction ops as [|o ops IH]; intros st Hbad.
  - cbn. now rewrite app_nil_r.
  - change (run (o :: ops) st) with (run ops (step st o)).
    destruct (step_blocked o st Hbad) as (Eb & Ed & Ef).
    assert (Hbad' : forallb storable (buffer (step st o)) = false).
    { rewrite Eb, forallb_app, Hbad. reflexivity. }
    destruct (IH _ Hbad') as (Eb' & Ed' & Ef').
    rewrite Eb', Ed', Ef', Eb, Ed, Ef, <- app_assoc.
    change (o :: ops) with ([o] ++ ops). rewrite delivered_app.
    repeat apply conj; reflexivity.
Qed.

Lemma unstorable_record_blocks_every_flush_witness :
  let st := step (fresh_app "alice" 2)
              (Sample "2024-01-01T10:00:00" NoFault noon list_stamped_sample) in
  let st' := run troubled_session st in
  buffer st' = buffer st ++ delivered troubled_session
  /\ durable (conn st') = durable (conn st)
  /\ flushes st' = flushes st.
Proof.
  apply (unstorable_record_blocks_every_flush troubled_session
           (step (fresh_app "alice" 2)
              (Sample "2024-01-01T10:00:00" NoFault noon list_stamped_sample))).
  reflexivity.
Defined.

(** ** Runs the storage engine does not disturb *)

Lemma row_data_insert_all clock user items : forall k d,
  map row_data (rows (insert_all clock user k items d))
  = map row_data (rows d) ++ map (fun item => dumps (JObj item)) items.
Proof.
  induction items as [|x items IH]; intros k d; cbn [insert_all map].
  - now rewrite app_nil_r.
  - rewrite IH. cbn [insert_row rows]. rewrite map_app, <- app_assoc. reflexivity.
Qed.

(** The file followed by the buffer, as texts. *)
Lemma flush_buffer_calm_texts clock st :
  ready st ->
  let st' := flush_buffer NoFault clock st in
  ready st'
  /\ map row_data (rows (view (conn st')))
       ++ map (fun item => dumps (JObj item)) (buffer st')
     = map row_data (rows (view (conn st)))
       ++ map (fun item => dumps (JObj item)) (buffer st)
  /\ (durable (conn st) = view (conn st) -> durable (conn st') = view (conn st')).
Proof.
  intros Hr. cbv zeta. pose proof Hr as [Ht Hs].
  destruct (buffer st) as [|x b] eqn:E.
  - assert (F : flush_buffer NoFault clock st = st).
    { unfold flush_buffer. now rewrite E. }
    rewrite F. split; [exact Hr|]. split; [now rewrite E | exact (fun H => H)].
  - rewrite <- E in *.
    rewrite flush_buffer_ok; [|rewrite E; discriminate|exact Ht|exact Hs].
    cbv zeta. unfold ready. cbn [conn view durable buffer map forallb].
    rewrite has_table_insert_all, row_data_insert_all, app_nil_r.
    split; [split; [exact Ht | reflexivity]|]. split; reflexivity.
Qed.

Lemma step_calm_texts o st :
  ready st -> calm o ->
  ready (step st o)
  /\ map row_data (rows (view (conn (step st o))))
       ++ map (fun item => dumps (JObj item)) (buffer (step st o))
     = map row_data (rows (view (conn st)))
       ++ map (fun item => dumps (JObj item)) (buffer st ++ delivered [o])
  /\ (durable (conn st) = view (conn st) ->
      durable (conn (step st o)) = view (conn (step st o))).
Proof.
  intros Hr Hc. destruct o as [now f clock data|f clock]; cbn [step delivered calm] in *.
  - destruct Hc as [-> Hst].
    unfold brainwave_callback, ingestable. cbv zeta.
    destruct (py_len _) as [n|e];
      [|rewrite app_nil_r; split; [exact Hr|]; split; [reflexivity | exact (fun H => H)]].
    unfold buffer_data. cbv zeta.
    set (st1 := {| user_name := _; buffer := _ ++ [stamp now data] |}).
    assert (Hr1 : ready st1).
    { destruct Hr as [Ht Hs]. split; [exact Ht|].
      subst st1. cbn [buffer print]. rewrite forallb_app, Hs. cbn. now rewrite Hst. }
    match goal with |- context [if ?b then _ else _] => destruct b end.
    + destruct (flush_buffer_calm_texts clock st1 Hr1) as (Hr' & Et & Ed).
      split; [exact Hr'|]. split; [exact Et | exact Ed].
    + split; [exact Hr1|]. split; [reflexivity | exact (fun H => H)].
  - subst f. rewrite app_nil_r. unfold flush_timer.
    destruct (buffer st) as [|x b] eqn:E.
    + split; [exact Hr|]. split; [now rewrite E | exact (fun H => H)].
    + rewrite <- E in *.
      apply (flush_buffer_calm_texts clock
               (print (TimerTriggered (List.length (buffer st))) st) Hr).
Qed.

Lemma run_calm_texts ops : forall st,
  ready st -> Forall calm ops ->
  ready (run ops st)
  /\ map row_data (rows (view (conn (run ops st))))
       ++ map (fun item => dumps (JObj item)) (buffer (run ops st))
     = map row_data (rows (view (conn st)))
       ++ map (fun item => dumps (JObj item)) (buffer st ++ delivered ops)
  /\ (durable (conn st) = view (conn st) ->
      durable (conn (run ops st)) = view (conn (run ops st))).
Proof.
  induction ops as [|o ops IH]; intros st Hr Hc.
  - cbn. rewrite app_nil_r. split; [exact Hr|]. split; [reflexivity | exact (fun H => H)].
  - change (run (o :: ops) st) with (run ops (step st o)).
    inversion Hc as [|? ? Ho Hops]; subst.
    destruct (step_calm_texts o st Hr Ho) as (Hr' & Et & Ed).
    destruct (IH _ Hr' Hops) as (Hr'' & Et' & Ed').
    split; [exact Hr''|]. split; [|intros H; apply Ed', Ed, H].
    rewrite Et'. change (o :: ops) with ([o] ++ ops).
    rewrite delivered_app, (app_assoc (buffer st)).
    rewrite (map_app _ (buffer (step st o))), (map_app _ (buffer st ++ delivered [o])).
    rewrite !app_assoc. f_equal. exact Et.
Qed.

(** Of the operations run one after the other, when nothing fails: the
    stored texts and the buffered texts, in order. *)
Lemma calm_run_texts_once (ops : list op) (st : NeurosityApp) :
  ready st -> Forall calm ops ->
  let st' := run ops st in
  map row_data (rows (view (conn st')))
    ++ map (fun item => dumps (JObj item)) (buffer st')
  = map row_data (rows (view (conn st)))
    ++ map (fun item => dumps (JObj item)) (buffer st ++ delivered ops)
  /\ (durable (conn st) = view (conn st) ->
      durable (conn st') = view (conn st')).
Proof.
  intros Hr Hc. cbv zeta.
  destruct (run_calm_texts ops st Hr Hc) as (_ & Et & Ed). now split.
Qed.


(** ** Stopping the application *)

Lemma flush_buffer_has_table f clock st :
  has_table "brainwaves_raw" (durable (conn st)) = true
  /\ has_table "brainwaves_raw" (view (conn st)) = true ->
  has_table "brainwaves_raw" (durable (conn (flush_buffer f clock st))) = true
  /\ has_table "brainwaves_raw" (view (conn (flush_buffer f clock st))) = true.
Proof.
  intros [Hd Hv].
  destruct (flush_buffer_cases f clock st) as (_ & _ & j & _ & Ev & Hcase).
  cbv zeta in *.
  assert (Hv' : has_table "brainwaves_raw" (view (conn (flush_buffer f clock st))) = true).
  { rewrite Ev. now rewrite has_table_insert_all. }
  split; [|exact Hv'].
  destruct Hcase as [(_ & Edv & _) | (_ & Edd)]; [now rewrite Edv | now rewrite Edd].
Qed.

Lemma flush_buffer_calm_empties clock st :
  ready st -> buffer (flush_buffer NoFault clock st) = [].
Proof.
  intros [Ht Hs]. destruct (buffer st) as [|x b] eqn:E.
  - unfold flush_buffer. now rewrite E.
  - rewrite <- E in *. rewrite flush_buffer_ok; [reflexivity| |exact Ht|exact Hs].
    rewrite E. discriminate.
Qed.

Lemma forallb_storable_sub (L b : list dict) :
  forallb storable L = true -> Forall (fun item => In item L) b ->
  forallb storable b = true.
Proof.
  intros HL Hb. apply forallb_forall. intros x Hx.
  rewrite forallb_forall in HL. apply HL.
  rewrite List.Forall_forall in Hb. now apply Hb.
Qed.

(** Of the operations run one after the other, then [stop] without a
    failure. *)
Lemma clean_stop_after_run (ops : list op) (clock : nat -> string)
  (st : NeurosityApp) :
  durable (conn st) = view (conn st) ->
  has_table "brainwaves_raw" (view (conn st)) = true ->
  forallb storable (buffer st ++ delivered ops) = true ->
  let d := stop NoFault clock (run ops st) in
  (forall item, In item (buffer st ++ delivered ops) ->
     exists r, In r (rows d) /\ stores (user_name st) item r)
  /\ exists new,
       rows d = rows (durable (conn st)) ++ new
       /\ Forall (fun r => exists item,
                    In item (buffer st ++ delivered ops)
                    /\ stores (user_name st) item r) new.
Proof.
  intros E Ht Hst. cbv zeta. unfold stop, close.
  pose proof (tracks_run _ _ ops _ _ (tracks_start st E)) as T.
  assert (Hr : ready (run ops st)).
  { split.
    - apply (run_conn_invariant
               (fun c => has_table "brainwaves_raw" (durable c) = true
                         /\ has_table "brainwaves_raw" (view c) = true)
               flush_buffer_has_table ops st). rewrite E. now split.
    - destruct T as (_ & new & pending & _ & _ & _ & _ & Hbuf).
      now apply (forallb_storable_sub _ _ Hst). }
  pose proof (flush_buffer_calm_empties clock _ Hr) as Eb.
  destruct (tracks_flush _ _ _ NoFault clock _ T)
    as (_ & new & pending & Ed & _ & Hrows & Hall & _).
  rewrite Eb in Hall. split.
  - intros item Hin. rewrite List.Forall_forall in Hall.
    destruct (Hall item Hin) as [[] | Hex].
    apply List.Exists_exists in Hex. destruct Hex as (r & Hr' & Hs).
    exists r. split; [|exact Hs]. rewrite Ed. apply in_or_app. now right.
  - exists new. split; [exact Ed|].
    apply Forall_app in Hrows. apply Hrows.
Qed.

Lemma insert_items_durable f clock user items : forall k c,
  durable (fst (insert_items f clock user k items c)) = durable c.
Proof.
  intros k c. destruct (insert_items_shape f clock user items k c) as (j & _ & E & _).
  now rewrite E.
Qed.

(** X8.  [stop] does not retry: when the cursor of its flush cannot be
    obtained, or the commit of its flush fails, the file is closed with the
    content it had at the last successful commit; the buffered records are
    not in it, and neither are the rows that flushes inserted since without
    a commit. *)
Theorem failed_last_flush_leaves_file_as_committed (f : fault) (clock : nat -> string)
  (st : NeurosityApp) :
  f = FailCursor \/ f = FailCommit ->
  stop f clock st = durable (conn st)
  /\ buffer (flush_buffer f clock st) = buffer st.
Proof.
  intros Hf. unfold stop, close, flush_buffer.
  destruct (buffer st) as [|x b] eqn:E; [now rewrite E|].
  rewrite <- E. destruct Hf as [-> | ->].
  - cbn. now split.
  - unfold mbind, sql_bind. cbn [cursor mret sql_ret].
    pose proof (insert_items_durable FailCommit clock (user_name st) (buffer st) 0%nat
                  (conn st)) as Hd.
    destruct (insert_items FailCommit clock (user_name st) 0 (buffer st) (conn st))
      as [c [[]|e]]; cbn [fst commit conn buffer] in *; now split.
Qed.

Lemma failed_last_flush_leaves_file_as_committed_witness :
  let st := run [Sample "2024-01-01T10:00:00" NoFault noon crown_sample]
              (fresh_app "alice" 2) in
  stop FailCommit noon st = durable (conn st)
  /\ buffer (flush_buffer FailCommit noon st) = buffer st.
Proof.
  apply (failed_last_flush_leaves_file_as_committed FailCommit noon
           (run [Sample "2024-01-01T10:00:00" NoFault noon crown_sample]
              (fresh_app "alice" 2))).
  now right.
Defined.

(** ** What the writer stores, the readers take *)

Lemma stored_sound_summarizable user item r :
  sound_item item -> stores user item r -> summarizable r.
Proof.
  intros [Hwf [n Hn]] [Ed _]. exists item, n. split; [|exact Hn].
  rewrite Ed. now apply loads_dumps.
Qed.

Lemma delivered_sound ops :
  Forall sample_wf ops -> Forall sound_item (delivered ops).
Proof.
  induction 1 as [|o ops Ho _ IH]; [constructor|].
  destruct o as [now f clock data|f clock]; cbn [delivered sample_wf] in *; [|exact IH].
  destruct (ingestable now data) eqn:Ei; [|exact IH].
  constructor; [|exact IH]. split; [now apply wf_dict_stamp|].
  unfold ingestable in Ei.
  destruct (py_len (dict_get_default "data" (JArr []) (stamp now data))) as [n|e];
    [now exists n | discriminate].
Qed.

Lemma summarizable_decodable r : summarizable r -> decodable r.
Proof. intros (data & n & E & _). now exists data. Qed.

Lemma print_summaries_ok results :
  Forall summarizable results ->
  exists printed, print_summaries results = (printed, None)
    /\ List.length printed = (4 * List.length results)%nat.
Proof.
  induction 1 as [|r results (data & n & El & En) _ (printed & Ep & Hlen)].
  - exists []. now split.
  - cbn [print_summaries]. unfold loads_dict. rewrite El, En, Ep.
    eexists. split; [reflexivity|]. cbn [List.length]. lia.
Qed.

(** The rows of a session whose records are sound can be summarized. *)
Lemma tracks_summarizable base user L st :
  tracks base user L st -> Forall summarizable base -> Forall sound_item L ->
  Forall summarizable (rows (durable (conn st)))
  /\ Forall summarizable (rows (view (conn st))).
Proof.
  intros (_ & new & pending & Ed & Ev & Hrows & _ & _) Hbase HL.
  assert (Hnew : Forall summarizable (new ++ pending)).
  { eapply List.Forall_impl; [|exact Hrows].
    intros r (item & Hin & Hs). rewrite List.Forall_forall in HL.
    exact (stored_sound_summarizable _ _ _ (HL _ Hin) Hs). }
  apply Forall_app in Hnew. destruct Hnew as [Hn Hp].
  rewrite Ed, Ev. split; repeat (apply Forall_app; split); assumption.
Qed.

(** X9.  Whatever the writer leaves, the readers take: start from a state
    with no open transaction on a file that has the table and whose rows
    can be summarized, with well-formed records in the buffer, and let
    well-formed samples arrive.  Then, whatever fails in the storage engine
    during the run and in the flush of [stop], [get_recent_data] and
    [export_to_csv] do not raise on the file that [stop] leaves, the export
    without limit has one record per row, and [query_data] on the running
    application returns its tuples after four lines per row. *)
Theorem readers_accept_what_the_writer_stored (ops : list op) (f : fault)
  (clock : nat -> string) (limit : Z) (st : NeurosityApp) :
  durable (conn st) = view (conn st) ->
  has_table "brainwaves_raw" (view (conn st)) = true ->
  Forall summarizable (rows (view (conn st))) ->
  Forall sound_item (buffer st) ->
  Forall sample_wf ops ->
  int64 limit ->
  let st' := run ops st in
  let d := stop f clock st' in
  (exists recs, get_recent_data limit d = Ok recs)
  /\ (exists recs, export_to_csv None d = Ok recs
        /\ List.length recs = List.length (rows d))
  /\ (exists results,
        select_recent limit (view (conn st')) = Ok results
        /\ snd (query_data limit st') = Ok (map contents results)
        /\ List.length (fst (query_data limit st')) = (4 * List.length results)%nat).
Proof.
  intros E Ht Hbase Hb Hops Hlim. cbv zeta.
  pose proof (tracks_run _ _ ops _ _ (tracks_start st E)) as T.
  assert (HL : Forall sound_item (buffer st ++ delivered ops)).
  { apply Forall_app. split; [exact Hb | now apply delivered_sound]. }
  rewrite <- E in Hbase.
  destruct (run_conn_invariant
              (fun c => has_table "brainwaves_raw" (durable c) = true
                        /\ has_table "brainwaves_raw" (view c) = true)
              flush_buffer_has_table ops st) as [Htd Htv].
  { rewrite E. now split. }
  destruct (tracks_summarizable _ _ _ _ T Hbase HL) as [_ Hsv].
  destruct (tracks_summarizable _ _ _ _ (tracks_flush _ _ _ f clock _ T) Hbase HL)
    as [Hsd _].
  destruct (flush_buffer_has_table f clock (run ops st) (conj Htd Htv)) as [Htd' _].
  unfold stop, close. repeat apply conj.
  - destruct (get_recent_data_ok _ limit Htd' Hlim Hsd) as (recs & Er & _).
    now exists recs.
  - unfold export_to_csv, limit_given, select_all. rewrite Htd'.
    destruct (map_result_forall export_of_row (fun _ _ => True)
                (order_by_timestamp_desc
                   (rows (durable (conn (flush_buffer f clock (run ops st)))))))
      as (recs & Er & _).
    { apply List.Forall_forall. intros r Hr.
      apply (proj1 (order_by_timestamp_desc_in _ _)) in Hr.
      rewrite List.Forall_forall in Hsd.
      destruct (export_of_row_ok r (summarizable_decodable _ (Hsd _ Hr))) as (rec & Erec & _).
      now exists rec. }
    exists recs. split; [exact Er|].
    rewrite (map_result_length _ _ _ Er).
    apply Permutation_length, order_by_timestamp_desc_perm.
  - unfold query_data, select_recent. rewrite Htv, (bind_int_ok _ Hlim).
    eexists. split; [reflexivity|].
    destruct (print_summaries_ok
                (limit_rows limit (order_by_timestamp_desc (rows (view (conn (run ops st)))))))
      as (printed & Ep & Hlen).
    { apply List.Forall_forall. intros r Hr.
      apply limit_rows_in in Hr. apply (proj1 (order_by_timestamp_desc_in _ _)) in Hr.
      rewrite List.Forall_forall in Hsv. now apply Hsv. }
    rewrite Ep. cbn [fst snd]. now split.
Qed.

Lemma readers_accept_what_the_writer_stored_witness :
  let st' := run troubled_session (fresh_app "alice" 2) in
  let d := stop FailCommit noon st' in
  (exists recs, get_recent_data 10 d = Ok recs)
  /\ (exists recs, export_to_csv None d = Ok recs
        /\ List.length recs = List.length (rows d))
  /\ (exists results,
        select_recent 10 (view (conn st')) = Ok results
        /\ snd (query_data 10 st') = Ok (map contents results)
        /\ List.length (fst (query_data 10 st')) = (4 * List.length results)%nat).
Proof.
  apply (readers_accept_what_the_writer_stored troubled_session FailCommit noon 10
           (fresh_app "alice" 2)).
  - reflexivity.
  - reflexivity.
  - constructor.
  - constructor.
  - unfold troubled_session.
    repeat (apply List.Forall_cons; [|]); try apply List.Forall_nil;
      cbn [sample_wf]; try exact I; vm_compute; repeat constructor; compute_done.
  - unfold int64. lia.
Defined.

(** ** The name of the user *)

Lemma lstrip_split l :
  exists p, l = p ++ lstrip l /\ forallb is_space p = true.
Proof.
  induction l as [|c l (p & E & Hp)]; [now exists []|].
  cbn [lstrip]. destruct (is_space c) eqn:Ec.
  - exists (c :: p). cbn [forallb]. rewrite Ec, Hp. split; [|reflexivity].
    rewrite <- app_comm_cons. now f_equal.
  - now exists [].
Qed.

Lemma lstrip_head l :
  match lstrip l with
  | [] => True
  | c :: _ => is_space c = false
  end.
Proof.
  induction l as [|c l IH]; [exact I|].
  cbn [lstrip]. destruct (is_space c) eqn:Ec; [exact IH | exact Ec].
Qed.

Lemma lstrip_snoc l c :
  is_space c = false -> lstrip (l ++ [c]) = lstrip l ++ [c].
Proof.
  intros Hc. induction l as [|x l IH]; cbn [lstrip List.app].
  - change ([] ++ [c]) with [c]. cbn [lstrip]. now rewrite Hc.
  - change ((x :: l) ++ [c]) with (x :: (l ++ [c])). cbn [lstrip].
    destruct (is_space x); [exact IH | reflexivity].
Qed.

(** [strip] takes white space off both ends and nothing else. *)
Lemma strip_spec s :
  (exists pre post,
      list_ascii_of_string s = pre ++ list_ascii_of_string (strip s) ++ post
      /\ forallb is_space pre = true /\ forallb is_space post = true)
  /\ trimmed (strip s).
Proof.
  unfold strip, trimmed. rewrite list_ascii_of_string_of_list_ascii.
  set (l := list_ascii_of_string s).
  destruct (lstrip_split l) as (p & El & Hp).
  destruct (lstrip_split (rev (lstrip l))) as (q & Er & Hq).
  split.
  - exists p, (rev q). split; [|split; [exact Hp|]].
    + rewrite <- rev_app_distr, <- Er, rev_involutive. exact El.
    + rewrite forallb_forall in *. intros x Hx. apply Hq. now apply in_rev.
  - rewrite rev_involutive. split; [|apply lstrip_head].
    pose proof (lstrip_head l) as Hh.
    destruct (lstrip l) as [|c t]; [exact I|].
    cbn [rev]. rewrite (lstrip_snoc _ _ Hh), rev_app_distr. exact Hh.
Qed.

(** X10.  The name of the user is never empty.  A non-empty [USER_NAME]
    of the environment is taken as it is.  Otherwise the name is the line
    that was typed without the white space at both ends, and nothing else
    of the line is dropped; when nothing is left, the name is
    [Anonymous]. *)
Theorem user_name_is_never_empty (USER_NAME : option string) (line : string) :
  let name := _get_user_name USER_NAME line in
  name <> ""
  /\ (forall u, USER_NAME = Some u -> u <> "" -> name = u)
  /\ (USER_NAME = None \/ USER_NAME = Some "" ->
      trimmed name
      /\ (strip line = "" -> name = "Anonymous")
      /\ (strip line <> "" ->
          exists pre post,
            list_ascii_of_string line = pre ++ list_ascii_of_string name ++ post
            /\ forallb is_space pre = true /\ forallb is_space post = true)).
Proof.
  cbv zeta.
  assert (Hin : forall name,
             name = (if negb (String.eqb (strip line) "") then strip line
                     else "Anonymous") ->
             name <> ""
             /\ trimmed name
             /\ (strip line = "" -> name = "Anonymous")
             /\ (strip line <> "" ->
                 exists pre post,
                   list_ascii_of_string line = pre ++ list_ascii_of_string name ++ post
                   /\ forallb is_space pre = true /\ forallb is_space post = true)).
  { intros name ->. destruct (strip_spec line) as [Hparts Htrim].
    destruct (String.eqb (strip line) "") eqn:Ee; cbn [negb].
    - apply String.eqb_eq in Ee. split; [discriminate|].
      split; [split; reflexivity|]. split; [reflexivity|]. intros H. contradiction.
    - apply String.eqb_neq in Ee. split; [exact Ee|]. split; [exact Htrim|].
      split; [intros H; contradiction | intros _; exact Hparts]. }
  unfold _get_user_name. destruct USER_NAME as [u|].
  - destruct (String.eqb u "") eqn:Eu; cbn [negb].
    + destruct (Hin _ eq_refl) as (H1 & H2 & H3 & H4).
      split; [exact H1|]. split; [|intros _; split; [exact H2|]; split; [exact H3 | exact H4]].
      intros u' [= <-] Hu. apply String.eqb_neq in Hu. congruence.
    + apply String.eqb_neq in Eu. split; [exact Eu|].
      split; [now intros u' [= <-] _|].
      intros [H|[= H]]; [discriminate | contradiction].
  - destruct (Hin _ eq_refl) as (H1 & H2 & H3 & H4).
    split; [exact H1|]. split; [discriminate|]. intros _. split; [exact H2|]. split; [exact H3 | exact H4].
Qed.

(** ** The readers at their edges *)

Lemma string_leb_trans a b c :
  String.leb a b = true -> String.leb b c = true -> String.leb a c = true.
Proof.
  unfold String.leb.
  destruct (String.compare a b) eqn:Eab; [| |discriminate];
    destruct (String.compare b c) eqn:Ebc; try discriminate; intros _ _.
  - apply string_compare_eq in Eab. subst b. now rewrite Ebc.
  - apply string_compare_eq in Eab. subst b. now rewrite Ebc.
  - apply string_compare_eq in Ebc. subst c. now rewrite Eab.
  - now rewrite (string_compare_lt_trans _ _ _ Eab Ebc).
Qed.

Lemma timestamp_leb_refl a : timestamp_leb a a = true.
Proof. unfold timestamp_leb. now rewrite timestamp_compare_refl. Qed.

Lemma limit_rows_nil {A} n : limit_rows n (@nil A) = [].
Proof. unfold limit_rows. destruct (n <? 0)%Z; [reflexivity | apply firstn_nil]. Qed.

Lemma check_database_false d :
  _check_database d = false ->
  has_table "brainwaves_raw" d = false
  \/ (has_table "brainwaves_raw" d = true /\ rows d = []).
Proof.
  unfold _check_database. destruct (has_table "brainwaves_raw" d); [|now left].
  destruct (rows d); [now right | discriminate].
Qed.

(** X11.  What a failed [_check_database] means for the queries that
    [__init__] lets follow it: either the table is missing and every query
    of the viewer raises the error of the storage engine, or the table is
    empty and every query returns nothing. *)
Theorem failed_check_tells_what_the_queries_do (d : database) (limit : Z)
  (export_limit : option Z) (start_time end_time : string) :
  _check_database d = false ->
  int64 limit -> int64 (default 0%Z export_limit) ->
  (has_table "brainwaves_raw" d = false
   /\ get_recent_data limit d = Raise OperationalError
   /\ get_data_by_timerange start_time end_time d = Raise OperationalError
   /\ plot_data_volume_by_hour start_time end_time d = Raise OperationalError
   /\ export_to_csv export_limit d = Raise OperationalError)
  \/ (rows d = []
      /\ get_recent_data limit d = Ok []
      /\ get_data_by_timerange start_time end_time d = Ok []
      /\ plot_data_volume_by_hour start_time end_time d = Ok []
      /\ export_to_csv export_limit d = Ok []).
Proof.
  intros Hc Hl He. destruct (check_database_false d Hc) as [Ht | [Ht Er]].
  - left. unfold get_recent_data, export_to_csv, select_recent, select_all,
      get_data_by_timerange, plot_data_volume_by_hour. rewrite Ht.
    repeat apply conj; try reflexivity. now destruct (limit_given export_limit).
  - right. unfold get_recent_data, export_to_csv, select_recent, select_all,
      get_data_by_timerange, plot_data_volume_by_hour.
    rewrite Ht, Er, (bind_int_ok _ Hl), (bind_int_ok _ He).
    change (order_by_timestamp_desc []) with (@nil row).
    rewrite !limit_rows_nil.
    repeat apply conj; try reflexivity. now destruct (limit_given export_limit).
Qed.

Lemma failed_check_tells_what_the_queries_do_witness :
  (has_table "brainwaves_raw" empty_database = false
   /\ get_recent_data 10 empty_database = Raise OperationalError
   /\ get_data_by_timerange "2024-01-01" "2024-01-02" empty_database
      = Raise OperationalError
   /\ plot_data_volume_by_hour "2024-01-01" "2024-01-02" empty_database
      = Raise OperationalError
   /\ export_to_csv None empty_database = Raise OperationalError)
  \/ (rows empty_database = []
      /\ get_recent_data 10 empty_database = Ok []
      /\ get_data_by_timerange "2024-01-01" "2024-01-02" empty_database = Ok []
      /\ plot_data_volume_by_hour "2024-01-01" "2024-01-02" empty_database = Ok []
      /\ export_to_csv None empty_database = Ok []).
Proof.
  apply (failed_check_tells_what_the_queries_do empty_database 10 None
           "2024-01-01" "2024-01-02").
  - reflexivity.
  - unfold int64. lia.
  - unfold int64. cbn. lia.
Defined.


(** X12.  The [__main__] of [setup_database.py] reports the file: after
    [setup_database()], [query_database()] finds the table whatever the
    file was, and prints the number of rows the file held before and, when
    there are rows, the timestamp of one of them that no other timestamp
    exceeds, NULL counting as the smallest.  On its own, [query_database()]
    raises when the table is missing. *)
Theorem setup_then_query_reports_the_file (db_path : string)
  (fs : gmap string database) :
  let d := durable (connect db_path fs) in
  (rows d = [] -> setup_main db_path fs = Ok (0%nat, None))
  /\ (rows d <> [] ->
      exists ts,
        setup_main db_path fs = Ok (List.length (rows d), Some ts)
        /\ (exists r, In r (rows d) /\ row_timestamp r = ts)
        /\ (forall r, In r (rows d) -> timestamp_leb (row_timestamp r) ts = true))
  /\ (has_table "brainwaves_raw" d = false ->
      query_database db_path fs = Raise OperationalError).
Proof.
  cbv zeta.
  destruct (setup_database_schema db_path fs) as (d' & Es & Ht & _ & _ & Er & _).
  cbv zeta in Er.
  assert (Eq : setup_main db_path fs
               = (let count := List.length (rows d') in
                  if (0 <? count)%nat then
                    match limit_rows 1 (order_by_timestamp_desc (rows d')) with
                    | r :: _ => Ok (count, Some (row_timestamp r))
                    | [] => Raise TypeError
                    end
                  else Ok (count, None))).
  { unfold setup_main, query_database. rewrite Es. unfold connect. cbn [durable].
    rewrite lookup_insert_eq. cbn [default]. unfold id. now rewrite Ht. }
  rewrite Eq, Er. clear Eq. cbv zeta.
  split; [|split].
  - intros E. now rewrite E.
  - intros Hne.
    pose proof (order_by_timestamp_desc_sorted (rows (durable (connect db_path fs)))) as Hs.
    pose proof (order_by_timestamp_desc_in (rows (durable (connect db_path fs)))) as Hin.
    destruct (rows (durable (connect db_path fs))) as [|r0 l0] eqn:E; [contradiction|].
    rewrite <- E in *.
    destruct (order_by_timestamp_desc (rows (durable (connect db_path fs))))
      as [|r l] eqn:Eo.
    { exfalso. apply (proj2 (Hin r0)). rewrite E. now left. }
    assert (E0 : (0 <? List.length (rows (durable (connect db_path fs))))%nat = true).
    { rewrite E. reflexivity. }
    rewrite E0. cbn [limit_rows Z.ltb Z.compare Z.to_nat Pos.to_nat Pos.iter_op firstn].
    exists (row_timestamp r). split; [reflexivity|]. split.
    + exists r. split; [|reflexivity]. apply Hin. now left.
    + intros x Hx. apply Hin in Hx. destruct Hx as [<- | Hx].
      * apply timestamp_leb_refl.
      * exact (strongly_sorted_head _ _ _ _ Hs Hx).
  - intros Hno. unfold query_database. now rewrite Hno.
Qed.

(** X13.  A range whose end is before its start selects nothing: on a
    file that has the table, the range query and the hourly counts are
    empty. *)
Theorem inverted_range_selects_nothing (start_time end_time : string) (d : database) :
  has_table "brainwaves_raw" d = true ->
  String.leb start_time end_time = false ->
  get_data_by_timerange start_time end_time d = Ok []
  /\ plot_data_volume_by_hour start_time end_time d = Ok [].
Proof.
  intros Ht Hinv.
  assert (Ef : List.filter (fun r => between start_time end_time (row_timestamp r)) (rows d)
               = []).
  { induction (rows d) as [|r l IH]; [reflexivity|]. cbn [List.filter].
    destruct (between start_time end_time (row_timestamp r)) eqn:Eb; [|exact IH].
    apply between_spec in Eb. destruct Eb as (t & _ & H1 & H2).
    rewrite (string_leb_trans _ _ _ H1 H2) in Hinv. discriminate. }
  unfold get_data_by_timerange, plot_data_volume_by_hour. rewrite Ht, Ef.
  split; reflexivity.
Qed.

Lemma inverted_range_selects_nothing_witness :
  let d := store_of [alice_row 1 "2024-01-01T10:00:00" "{}"] in
  get_data_by_timerange "2024-01-02" "2024-01-01" d = Ok []
  /\ plot_data_volume_by_hour "2024-01-02" "2024-01-01" d = Ok [].
Proof.
  apply (inverted_range_selects_nothing "2024-01-02" "2024-01-01"
           (store_of [alice_row 1 "2024-01-01T10:00:00" "{}"])).
  - reflexivity.
  - reflexivity.
Defined.



(** X14.  The limit keeps the latest: for a limit that is not negative,
    the query behind [get_recent_data], [query_data] and [export_to_csv]
    returns as many rows as the limit allows, none twice, and no row it
    leaves out has a timestamp above the timestamp of a row it returns,
    NULL counting as the smallest. *)
Theorem limit_keeps_the_latest (limit : Z) (d : database) :
  has_table "brainwaves_raw" d = true ->
  int64 limit -> (0 <= limit)%Z ->
  exists results,
    select_recent limit d = Ok results
    /\ List.length results = Nat.min (Z.to_nat limit) (List.length (rows d))
    /\ (forall r, In r results -> In r (rows d))
    /\ (NoDup (rows d) -> NoDup results)
    /\ (forall kept left_out,
          In kept results -> In left_out (rows d) -> ~ In left_out results ->
          timestamp_leb (row_timestamp left_out) (row_timestamp kept) = true).
Proof.
  intros Ht Hl Hpos. unfold select_recent. rewrite Ht, (bind_int_ok _ Hl).
  eexists. split; [reflexivity|].
  destruct (limit_rows_split limit (order_by_timestamp_desc (rows d)))
    as (rest & Esplit & Hlen).
  pose proof (order_by_timestamp_desc_perm (rows d)) as Hperm.
  split; [|split; [|split]].
  - rewrite (Hlen Hpos). now rewrite (Permutation_length Hperm).
  - intros r Hr. apply limit_rows_in in Hr.
    now apply (proj1 (order_by_timestamp_desc_in _ _)) in Hr.
  - intros Hnd.
    assert (Hnd' : NoDup (order_by_timestamp_desc (rows d))).
    { revert Hnd. apply NoDup_Permutation_proper. exact Hperm. }
    rewrite Esplit in Hnd'. apply NoDup_app in Hnd'. apply Hnd'.
  - intros kept left_out Hk Hin Hout.
    apply (proj2 (order_by_timestamp_desc_in _ _)) in Hin.
    rewrite Esplit in Hin. apply in_app_or in Hin.
    destruct Hin as [Hin | Hin]; [contradiction|].
    pose proof (order_by_timestamp_desc_sorted (rows d)) as Hs.
    rewrite Esplit in Hs.
    exact (strongly_sorted_app_cross _ _ _ _ _ Hs Hk Hin).
Qed.

Lemma limit_keeps_the_latest_witness :
  let d := store_of [alice_row 1 "2024-01-01T10:00:00" "{}";
                     alice_row 2 "2024-01-01T12:00:00" "{}";
                     alice_row 3 "2024-01-01T11:00:00" "{}"] in
  exists results,
    select_recent 2 d = Ok results
    /\ List.length results = Nat.min (Z.to_nat 2) (List.length (rows d))
    /\ (forall r, In r results -> In r (rows d))
    /\ (NoDup (rows d) -> NoDup results)
    /\ (forall kept left_out,
          In kept results -> In left_out (rows d) -> ~ In left_out results ->
          timestamp_leb (row_timestamp left_out) (row_timestamp kept) = true).
Proof.
  apply (limit_keeps_the_latest 2
           (store_of [alice_row 1 "2024-01-01T10:00:00" "{}";
                      alice_row 2 "2024-01-01T12:00:00" "{}";
                      alice_row 3 "2024-01-01T11:00:00" "{}"])).
  - reflexivity.
  - unfold int64. lia.
  - lia.
Defined.

Lemma total_bump k g :
  fold_right (fun kn a => (snd kn + a)%nat) 0%nat (bump k g)
  = S (fold_right (fun kn a => (snd kn + a)%nat) 0%nat g).
Proof.
  induction g as [|[k' n] g IH]; [reflexivity|].
  cbn [bump]. destruct (key_compare k k'); cbn [fold_right snd] in *; lia.
Qed.

Lemma total_fold_bump l : forall g,
  fold_right (fun kn a => (snd kn + a)%nat) 0%nat
    (fold_left (fun groups r => bump (group_key r) groups) l g)
  = (fold_right (fun kn a => (snd kn + a)%nat) 0%nat g + List.length l)%nat.
Proof.
  induction l as [|r l IH]; intros g; cbn [fold_left List.length]; [lia|].
  rewrite IH, total_bump. lia.
Qed.

Lemma total_count_map g :
  total_count (map (fun kn : string * string * nat => (fst (fst kn), snd kn, snd (fst kn))) g)
  = fold_right (fun kn a => (snd kn + a)%nat) 0%nat g.
Proof.
  unfold total_count. induction g as [|kn g IH]; [reflexivity|].
  cbn [map fold_right fst snd]. now rewrite IH.
Qed.

(** X15.  The hourly counts add up: on a file that has the table, the
    counts that [plot_data_volume_by_hour] plots sum to the number of rows
    whose timestamp lies in the range; no row of the range is dropped or
    counted twice by the grouping. *)
Theorem hourly_counts_add_up (start_time end_time : string) (d : database) :
  has_table "brainwaves_raw" d = true ->
  exists res,
    plot_data_volume_by_hour start_time end_time d = Ok res
    /\ total_count res = List.length (in_range start_time end_time d)
    /\ (List.length res <= List.length (in_range start_time end_time d))%nat.
Proof.
  intros Ht. unfold plot_data_volume_by_hour. rewrite Ht.
  eexists. split; [reflexivity|]. fold (in_range start_time end_time d).
  assert (Etot : total_count
                   (map (fun g : string * string * nat => (fst (fst g), snd g, snd (fst g)))
                      (group_counts (in_range start_time end_time d)))
                 = List.length (in_range start_time end_time d)).
  { rewrite total_count_map. unfold group_counts. now rewrite total_fold_bump. }
  split; [exact Etot|].
  rewrite <- Etot, total_count_map, length_map.
  destruct (group_counts_spec (in_range start_time end_time d)) as (_ & Hpos & _).
  clear Etot. revert Hpos. generalize (group_counts (in_range start_time end_time d)).
  intros g Hpos. induction Hpos as [|kn g Hkn _ IH]; cbn [List.length fold_right]; lia.
Qed.

Lemma hourly_counts_add_up_witness :
  let d := store_of [alice_row 1 "2024-01-01T10:00:00" "{}";
                     alice_row 2 "2024-01-01T10:30:00" "{}";
                     alice_row 3 "2024-01-01T11:15:00" "{}";
                     alice_row 4 "2024-01-03T11:15:00" "{}"] in
  exists res,
    plot_data_volume_by_hour "2024-01-01" "2024-01-02" d = Ok res
    /\ total_count res = List.length (in_range "2024-01-01" "2024-01-02" d)
    /\ (List.length res <= List.length (in_range "2024-01-01" "2024-01-02" d))%nat.
Proof.
  apply (hourly_counts_add_up "2024-01-01" "2024-01-02"
           (store_of [alice_row 1 "2024-01-01T10:00:00" "{}";
                      alice_row 2 "2024-01-01T10:30:00" "{}";
                      alice_row 3 "2024-01-01T11:15:00" "{}";
                      alice_row 4 "2024-01-03T11:15:00" "{}"])).
  reflexivity.
Defined.

(** X16.  The limit of [get_recent_data] at its edges, on a file that has
    the table: with limit 0 nothing is read and nothing is decoded, so the
    result is empty also when rows are malformed; a negative limit is no
    limit, every row is returned; a limit that does not fit 64 bits raises
    [OverflowError]. *)
Theorem recent_limit_edges (d : database) :
  has_table "brainwaves_raw" d = true ->
  get_recent_data 0 d = Ok []
  /\ (forall limit, (limit < 0)%Z -> int64 limit -> Forall summarizable (rows d) ->
      exists recs, get_recent_data limit d = Ok recs
        /\ map recent_timestamp recs
           = map row_timestamp (order_by_timestamp_desc (rows d))
        /\ List.length recs = List.length (rows d))
  /\ (forall limit, ~ int64 limit -> get_recent_data limit d = Raise OverflowError).
Proof.
  intros Ht. unfold get_recent_data, select_recent. rewrite Ht.
  split; [reflexivity|]. split.
  - intros limit Hneg Hl Hsum. rewrite (bind_int_ok _ Hl).
    unfold limit_rows. apply Z.ltb_lt in Hneg. rewrite Hneg.
    destruct (map_result_forall recent_of_row (fun _ _ => True)
                (order_by_timestamp_desc (rows d))) as (recs & Er & _).
    { apply List.Forall_forall. intros r Hr.
      apply (proj1 (order_by_timestamp_desc_in _ _)) in Hr.
      rewrite List.Forall_forall in Hsum.
      destruct (recent_of_row_ok r (Hsum _ Hr)) as (rec & Erec & _). now exists rec. }
    exists recs. split; [exact Er|]. split.
    + apply (map_result_map recent_of_row recent_timestamp row_timestamp _ _); [|exact Er].
      intros x y Hxy. unfold recent_of_row in Hxy.
      destruct (loads_dict (row_data x)); [|discriminate].
      destruct (py_len _); [|discriminate].
      now inversion Hxy.
    + rewrite (map_result_length _ _ _ Er).
      apply Permutation_length, order_by_timestamp_desc_perm.
  - intros limit Hl. unfold bind_int, int64 in *.
    destruct ((- 2 ^ 63 <=? limit) && (limit <? 2 ^ 63))%Z eqn:Eb; [|reflexivity].
    apply andb_true_iff in Eb. destruct Eb as [H1 H2].
    apply Z.leb_le in H1. apply Z.ltb_lt in H2. lia.
Qed.

Lemma recent_limit_edges_witness :
  let d := store_of [alice_row 1 "2024-01-01T10:00:00" "not json"] in
  get_recent_data 0 d = Ok []
  /\ (forall limit, (limit < 0)%Z -> int64 limit -> Forall summarizable (rows d) ->
      exists recs, get_recent_data limit d = Ok recs
        /\ map recent_timestamp recs
           = map row_timestamp (order_by_timestamp_desc (rows d))
        /\ List.length recs = List.length (rows d))
  /\ (forall limit, ~ int64 limit -> get_recent_data limit d = Raise OverflowError).
Proof.
  apply (recent_limit_edges (store_of [alice_row 1 "2024-01-01T10:00:00" "not json"])).
  reflexivity.
Defined.

(** ** What the callback does to a sample *)

Lemma dict_get_set_other k k' v d :
  k <> k' -> dict_get k (dict_set k' v d) = dict_get k d.
Proof.
  intros Hk. induction d as [|[k0 v0] d IH]; cbn [dict_set dict_get].
  - apply String.eqb_neq in Hk. now rewrite Hk.
  - destruct (String.eqb k' k0) eqn:E0; cbn [dict_get].
    + apply String.eqb_eq in E0. subst k0.
      apply String.eqb_neq in Hk. now rewrite Hk.
    + now rewrite IH.
Qed.

Lemma dict_set_keys_present k v d x :
  dict_get k d = Some x -> map fst (dict_set k v d) = map fst d.
Proof.
  induction d as [|[k0 v0] d IH]; cbn [dict_set dict_get map fst]; [discriminate|].
  destruct (String.eqb k k0) eqn:E0; cbn [map fst]; [reflexivity|].
  intros H. now rewrite IH.
Qed.

(** X17.  The callback changes nothing but the timestamp of a sample:
    every other field of the buffered record is the field of the sample,
    the keys keep their order, a new timestamp key going last; after it the
    record has a timestamp, and when the clock reading is not empty the
    timestamp is truthy, so that stamping the record again, at any time,
    leaves it as it is. *)
Theorem callback_changes_only_the_timestamp (now : string) (data : dict) :
  (forall k, k <> "timestamp" -> dict_get k (stamp now data) = dict_get k data)
  /\ (map fst (stamp now data) = map fst data
      \/ (dict_get "timestamp" data = None
          /\ map fst (stamp now data) = map fst data ++ ["timestamp"]))
  /\ (exists v, dict_get "timestamp" (stamp now data) = Some v
        /\ (now <> "" -> truthy v = true))
  /\ (now <> "" -> forall later, stamp later (stamp now data) = stamp now data).
Proof.
  assert (Hts : exists v, dict_get "timestamp" (stamp now data) = Some v
                  /\ (now <> "" -> truthy v = true)).
  { destruct (stamp_timestamp now data) as (v & Ev & [-> | [_ Ht]]).
    - exists (JStr now). split; [exact Ev|]. intros Hn. cbn [truthy].
      apply String.eqb_neq in Hn. now rewrite Hn.
    - exists v. now split. }
  split; [|split; [|split; [exact Hts|]]].
  - intros k Hk. unfold stamp.
    destruct (truthy (dict_get_default "timestamp" JNull data)); [reflexivity|].
    now apply dict_get_set_other.
  - unfold stamp. destruct (truthy (dict_get_default "timestamp" JNull data));
      [now left|].
    destruct (dict_get "timestamp" data) as [x|] eqn:Ex.
    + left. exact (dict_set_keys_present _ _ _ _ Ex).
    + right. split; [reflexivity|].
      rewrite dict_set_fresh; [|now apply dict_get_None].
      now rewrite map_app.
  - intros Hn later. destruct Hts as (v & Ev & Ht).
    exact (stamp_truthy later _ _ Ev (Ht Hn)).
Qed.

(** ** A buffer of size one *)

Lemma step_write_through o st :
  (buffer_size st <= 1)%Z -> ready st -> buffer st = [] -> calm o ->
  ready (step st o) /\ buffer (step st o) = []
  /\ buffer_size (step st o) = buffer_size st
  /\ flushes (step st o) = (flushes st + List.length (delivered [o]))%nat.
Proof.
  intros Hsize Hr Hb Hc. destruct o as [now f clock data|f clock]; cbn [calm delivered] in *.
  - destruct Hc as [-> Hst]. destruct (ingestable now data) eqn:Ei.
    + destruct (step_sample_calm now clock data st Ei) as (ch & ->).
      set (st0 := print (Received ch (dict_get_default "timestamp" JNull (stamp now data))) st).
      destruct (buffer_data_calm clock (stamp now data) st0 Hr Hst)
        as (Hr' & Es & _ & Hflush & _).
      cbv zeta in *. destruct Hflush as [Eb Ef].
      { subst st0. cbn [buffer_size buffer print]. rewrite Hb. cbn. lia. }
      split; [exact Hr'|]. split; [exact Eb|]. split; [exact Es|].
      rewrite Ef. subst st0. rewrite flushes_print by reflexivity. cbn. lia.
    + assert (E : step st (Sample now NoFault clock data) = st).
      { cbn [step]. unfold brainwave_callback. cbv zeta. unfold ingestable in Ei.
        now destruct (py_len _). }
      rewrite E. split; [exact Hr|]. split; [exact Hb|]. split; [reflexivity|].
      cbn [List.length]. lia.
  - cbn [step]. unfold flush_timer. rewrite Hb.
    split; [exact Hr|]. split; [exact Hb|]. split; [reflexivity|].
    cbn [List.length]. lia.
Qed.

(** Of the operations run one after the other, with a buffer size of one
    or less. *)
Lemma small_buffer_run (ops : list op) (st : NeurosityApp) :
  (buffer_size st <= 1)%Z -> ready st -> buffer st = [] ->
  durable (conn st) = view (conn st) -> Forall calm ops ->
  let st' := run ops st in
  buffer st' = []
  /\ map row_data (rows (durable (conn st')))
     = map row_data (rows (durable (conn st)))
       ++ map (fun item => dumps (JObj item)) (delivered ops)
  /\ flushes st' = (flushes st + List.length (delivered ops))%nat.
Proof.
  intros Hsize Hr Hb Hd Hc. cbv zeta.
  assert (Hrun : buffer (run ops st) = []
                 /\ flushes (run ops st) = (flushes st + List.length (delivered ops))%nat).
  { clear Hd. revert st Hsize Hr Hb.
    induction Hc as [|o ops Ho _ IH]; intros st Hsize Hr Hb.
    - cbn. split; [exact Hb | lia].
    - change (run (o :: ops) st) with (run ops (step st o)).
      destruct (step_write_through o st Hsize Hr Hb Ho) as (Hr' & Hb' & Es & Ef).
      destruct (IH (step st o)) as [Hb'' Ef'']; [now rewrite Es | exact Hr' | exact Hb'|].
      split; [exact Hb''|]. rewrite Ef'', Ef.
      change (o :: ops) with ([o] ++ ops). rewrite delivered_app, length_app. lia. }
  destruct Hrun as [Hb' Hf'].
  destruct (run_calm_texts ops st Hr Hc) as (_ & Et & Ed).
  rewrite Hb', Hb, app_nil_r in Et. cbn [List.app] in Et.
  split; [exact Hb'|]. split; [|exact Hf'].
  rewrite (Ed Hd), Hd. exact Et.
Qed.

(** ** The clock of the flush *)

Lemma insert_items_clock f clock1 clock2 user items : forall k c,
  Forall has_timestamp items ->
  insert_items f clock1 user k items c = insert_items f clock2 user k items c.
Proof.
  induction items as [|x items IH]; intros k c H; [reflexivity|].
  inversion H as [|? ? [v Hv] Hrest]; subst.
  cbn [insert_items]. unfold dict_get_default. rewrite Hv.
  unfold mbind, sql_bind.
  destruct (execute_insert f k v (dumps (JObj x)) user c) as [c' [[]|e]]; [|reflexivity].
  now apply IH.
Qed.

Lemma flush_buffer_clock f clock1 clock2 st :
  Forall has_timestamp (buffer st) ->
  flush_buffer f clock1 st = flush_buffer f clock2 st.
Proof.
  intros H. unfold flush_buffer. destruct (buffer st) as [|x b] eqn:E; [reflexivity|].
  rewrite <- E in *. unfold mbind, sql_bind.
  destruct (cursor f (conn st)) as [c [[]|e]]; [|reflexivity].
  now rewrite (insert_items_clock f clock1 clock2 _ _ 0%nat c H).
Qed.

Lemma flush_buffer_has_timestamp f clock st :
  Forall has_timestamp (buffer st) ->
  Forall has_timestamp (buffer (flush_buffer f clock st)).
Proof.
  intros H. destruct (flush_buffer_cases f clock st) as (_ & _ & j & _ & _ & Hcase).
  cbv zeta in *. destruct Hcase as [(Eb & _) | (Eb & _)]; rewrite Eb; [constructor | exact H].
Qed.

Lemma stamp_has_timestamp now data : has_timestamp (stamp now data).
Proof. destruct (stamp_timestamp now data) as (v & Ev & _). now exists v. Qed.

Lemma step_clock clock o st :
  Forall has_timestamp (buffer st) ->
  step st (with_clock clock o) = step st o
  /\ Forall has_timestamp (buffer (step st o)).
Proof.
  intros H. destruct o as [now f clock0 data|f clock0]; cbn [with_clock step].
  - unfold brainwave_callback. cbv zeta.
    destruct (py_len _) as [n|e]; [|now split].
    unfold buffer_data. cbv zeta.
    set (st1 := {| user_name := _; buffer := _ ++ [stamp now data] |}).
    assert (H1 : Forall has_timestamp (buffer st1)).
    { subst st1. cbn [buffer print]. apply Forall_app. split; [exact H|].
      constructor; [apply stamp_has_timestamp | constructor]. }
    match goal with |- context [if ?b then _ else _] => destruct b end.
    + split; [now apply flush_buffer_clock | now apply flush_buffer_has_timestamp].
    + now split.
  - unfold flush_timer. destruct (buffer st) as [|x b] eqn:E.
    + split; [reflexivity | now rewrite E].
    + rewrite <- E in *.
      split; [now apply flush_buffer_clock | now apply flush_buffer_has_timestamp].
Qed.

(** X19.  The clock reading of [flush_buffer] is never used for a record
    that came through the callback: the callback gives every record a
    timestamp field, so the default of [item.get] in the flush is not
    taken.  From a state whose buffered records have a timestamp field, a
    run ends in the same state whatever the clock shows during its
    flushes. *)
Theorem flush_clock_is_never_used (clock : nat -> string) (ops : list op)
  (st : NeurosityApp) :
  Forall has_timestamp (buffer st) ->
  run (map (with_clock clock) ops) st = run ops st
  /\ Forall has_timestamp (buffer (run ops st)).
Proof.
  revert st. induction ops as [|o ops IH]; intros st H; [now split|].
  cbn [map].
  change (run (with_clock clock o :: map (with_clock clock) ops) st)
    with (run (map (with_clock clock) ops) (step st (with_clock clock o))).
  change (run (o :: ops) st) with (run ops (step st o)).
  destruct (step_clock clock o st H) as [-> H']. now apply IH.
Qed.

Lemma flush_clock_is_never_used_witness :
  run (map (with_clock (fun _ => "1999-12-31T00:00:00")) troubled_session)
    (fresh_app "alice" 2)
  = run troubled_session (fresh_app "alice" 2)
  /\ Forall has_timestamp (buffer (run troubled_session (fresh_app "alice" 2))).
Proof.
  apply (flush_clock_is_never_used (fun _ => "1999-12-31T00:00:00") troubled_session
           (fresh_app "alice" 2)).
  constructor.
Defined.

(** ** From the callback to the readers *)

Lemma stored_sound_recent user item r :
  sound_item item -> stores user item r ->
  exists rec, recent_of_row r = Ok rec
    /\ recent_timestamp rec = row_timestamp r
    /\ recent_user_name rec = user
    /\ py_len (dict_get_default "data" (JArr []) item) = Ok (recent_channels rec)
    /\ recent_deviceId rec = dict_get_default "deviceId" (JStr "unknown") item.
Proof.
  intros [Hwf [n Hn]] [Ed Eu]. unfold recent_of_row, loads_dict.
  rewrite Ed, (loads_dumps (JObj item) Hwf), Hn.
  eexists. split; [reflexivity|]. cbn. now repeat split.
Qed.

(** X20.  What [get_recent_data] reports of a new file is what the
    callback was given: start the application on a file without rows and
    let well-formed samples arrive; whatever fails in the storage engine
    during the run and in the flush of [stop], every record that
    [get_recent_data] returns from the file carries the user name of the
    application, and the channel count and the device id of a record that
    was buffered or accepted by the callback, the device id being
    [unknown] when that record has none. *)
Theorem recent_data_reports_delivered_samples (ops : list op) (f : fault)
  (clock : nat -> string) (limit : Z) (st : NeurosityApp) :
  durable (conn st) = view (conn st) ->
  has_table "brainwaves_raw" (view (conn st)) = true ->
  rows (view (conn st)) = [] ->
  Forall sound_item (buffer st) ->
  Forall sample_wf ops ->
  int64 limit ->
  exists recs,
    get_recent_data limit (stop f clock (run ops st)) = Ok recs
    /\ Forall (fun rec => exists item,
                 In item (buffer st ++ delivered ops)
                 /\ recent_user_name rec = user_name st
                 /\ py_len (dict_get_default "data" (JArr []) item)
                    = Ok (recent_channels rec)
                 /\ recent_deviceId rec
                    = dict_get_default "deviceId" (JStr "unknown") item) recs.
Proof.
  intros E Ht Hnil Hb Hops Hlim.
  pose proof (tracks_flush _ _ _ f clock _ (tracks_run _ _ ops _ _ (tracks_start st E)))
    as (_ & new & pending & Ed & _ & Hrows & _ & _).
  assert (HL : Forall sound_item (buffer st ++ delivered ops)).
  { apply Forall_app. split; [exact Hb | now apply delivered_sound]. }
  destruct (run_conn_invariant
              (fun c => has_table "brainwaves_raw" (durable c) = true
                        /\ has_table "brainwaves_raw" (view c) = true)
              flush_buffer_has_table ops st) as [Htd Htv].
  { rewrite E. now split. }
  destruct (flush_buffer_has_table f clock (run ops st) (conj Htd Htv)) as [Htd' _].
  rewrite E, Hnil in Ed. cbn [List.app] in Ed.
  apply Forall_app in Hrows. destruct Hrows as [Hnew _].
  unfold stop, close, get_recent_data, select_recent.
  rewrite Htd', (bind_int_ok _ Hlim), Ed.
  destruct (map_result_forall recent_of_row
              (fun _ rec => exists item,
                 In item (buffer st ++ delivered ops)
                 /\ recent_user_name rec = user_name st
                 /\ py_len (dict_get_default "data" (JArr []) item)
                    = Ok (recent_channels rec)
                 /\ recent_deviceId rec
                    = dict_get_default "deviceId" (JStr "unknown") item)
              (limit_rows limit (order_by_timestamp_desc new))) as (recs & Er & Hrecs).
  { apply List.Forall_forall. intros r Hr.
    apply limit_rows_in in Hr. apply (proj1 (order_by_timestamp_desc_in _ _)) in Hr.
    rewrite List.Forall_forall in Hnew, HL.
    destruct (Hnew r Hr) as (item & Hin & Hs).
    destruct (stored_sound_recent _ _ _ (HL _ Hin) Hs) as (rec & Erec & _ & Eu & Ec & Edev).
    exists rec. split; [exact Erec|]. now exists item. }
  exists recs. split; [exact Er|].
  eapply List.Forall_impl; [|exact Hrecs]. now intros rec (_ & _ & H).
Qed.

Lemma recent_data_reports_delivered_samples_witness :
  let st := fresh_app "alice" 2 in
  exists recs,
    get_recent_data 10 (stop FailCommit noon (run troubled_session st)) = Ok recs
    /\ Forall (fun rec => exists item,
                 In item (buffer st ++ delivered troubled_session)
                 /\ recent_user_name rec = user_name st
                 /\ py_len (dict_get_default "data" (JArr []) item)
                    = Ok (recent_channels rec)
                 /\ recent_deviceId rec
                    = dict_get_default "deviceId" (JStr "unknown") item) recs.
Proof.
  apply (recent_data_reports_delivered_samples troubled_session FailCommit noon 10
           (fresh_app "alice" 2)).
  - reflexivity.
  - reflexivity.
  - reflexivity.
  - constructor.
  - unfold troubled_session.
    repeat (apply List.Forall_cons; [|]); try apply List.Forall_nil;
      cbn [sample_wf]; try exact I; vm_compute; repeat constructor; compute_done.
  - unfold int64. lia.
Defined.

(** Of the operations run one after the other, then [stop] and the
    export. *)
Lemma export_after_run (ops : list op) (clock : nat -> string)
  (st : NeurosityApp) :
  ready st -> buffer st = [] ->
  durable (conn st) = view (conn st) ->
  rows (view (conn st)) = [] ->
  Forall calm ops -> Forall sample_wf ops ->
  exists recs,
    export_to_csv None (stop NoFault clock (run ops st)) = Ok recs
    /\ Permutation (map export_data_json recs)
         (map (fun item => dumps (JObj item)) (delivered ops))
    /\ Forall (fun rec => exists item,
                 In item (delivered ops)
                 /\ loads (export_data_json rec) = Some (JObj item)) recs
    /\ StronglySorted descending (map export_timestamp recs).
Proof.
  intros Hr Hb Hd Hnil Hc Hwf.
  destruct (run_calm_texts ops st Hr Hc) as (Hr' & Et & Ed).
  destruct (flush_buffer_calm_texts clock (run ops st) Hr') as (Hr'' & Et' & Ed').
  cbv zeta in *.
  rewrite (flush_buffer_calm_empties clock _ Hr'), app_nil_r in Et'.
  rewrite Et, Hnil, Hb in Et'. cbn [List.app map] in Et'.
  unfold stop, close. rewrite (Ed' (Ed Hd)).
  set (d := view (conn (flush_buffer NoFault clock (run ops st)))) in *.
  assert (Hrows : forall r, In r (rows d) ->
            exists item, In item (delivered ops) /\ row_data r = dumps (JObj item)
              /\ loads (row_data r) = Some (JObj item)).
  { intros r Hin. apply (in_map row_data) in Hin. rewrite Et' in Hin.
    apply in_map_iff in Hin. destruct Hin as (item & Eitem & Hitem).
    exists item. split; [exact Hitem|]. split; [now symmetry|].
    rewrite <- Eitem. apply loads_dumps.
    pose proof (delivered_sound ops Hwf) as Hs. rewrite List.Forall_forall in Hs.
    apply (Hs item Hitem). }
  unfold export_to_csv, limit_given, select_all.
  destruct Hr'' as [Ht'' _]. fold d in Ht''. rewrite Ht''.
  destruct (map_result_forall export_of_row
              (fun r rec => export_data_json rec = row_data r)
              (order_by_timestamp_desc (rows d))) as (recs & Er & Hrecs).
  { apply List.Forall_forall. intros r Hin.
    apply (proj1 (order_by_timestamp_desc_in _ _)) in Hin.
    destruct (Hrows r Hin) as (item & _ & _ & El).
    destruct (export_of_row_ok r) as (rec & Erec & data & _ & _ & _ & _ & Ej & _);
      [now exists item|].
    now exists rec. }
  exists recs. split; [exact Er|].
  assert (Emap : map export_data_json recs
                 = map row_data (order_by_timestamp_desc (rows d))).
  { apply (map_result_map export_of_row export_data_json row_data _ _); [|exact Er].
    intros x y Hxy. unfold export_of_row in Hxy.
    destruct (loads_dict (row_data x)); [|discriminate]. now inversion Hxy. }
  split; [|split].
  - rewrite Emap, <- Et'. apply Permutation_map, order_by_timestamp_desc_perm.
  - eapply List.Forall_impl; [|exact Hrecs].
    intros rec (r & Hin & Ej). apply (proj1 (order_by_timestamp_desc_in _ _)) in Hin.
    destruct (Hrows r Hin) as (item & Hitem & _ & El).
    exists item. split; [exact Hitem|]. now rewrite Ej.
  - assert (Ets : map export_timestamp recs
                  = map row_timestamp (order_by_timestamp_desc (rows d))).
    { apply (map_result_map export_of_row export_timestamp row_timestamp _ _); [|exact Er].
      intros x y Hxy. unfold export_of_row in Hxy.
      destruct (loads_dict (row_data x)); [|discriminate]. now inversion Hxy. }
    rewrite Ets. apply strongly_sorted_map.
    apply order_by_timestamp_desc_sorted.
Qed.

(** ** The setup tool and the application on one file *)

(** X22.  The application starts on a file the setup tool prepared
    without changing it: after [setup_database()] the initialization of
    the application finds the table and the index, creates nothing, and
    opens a connection with no transaction on the content the tool left;
    the buffer is empty, the aggregate table of the tool is still there,
    and the rows are the rows the file held before the tool ran. *)
Theorem app_starts_on_prepared_file_unchanged (user : string) (size : Z)
  (db_path : string) (fs : gmap string database) :
  exists fs1 d1,
    setup_database db_path fs = Ok fs1
    /\ fs1 !! db_path = Some d1
    /\ new_app user size db_path fs1
       = Ok {| user_name := user; buffer := []; buffer_size := size;
               conn := {| durable := d1; view := d1 |}; stdout := [] |}
    /\ has_table "brainwaves_raw" d1 = true
    /\ has_table "aggregated_data" d1 = true
    /\ rows d1 = rows (durable (connect db_path fs)).
Proof.
  destruct (setup_database_schema db_path fs) as (d' & Es & Ht & Hi & Ha & Er & _).
  cbv zeta in *.
  exists (<[db_path := d']> fs), d'. split; [exact Es|].
  split; [apply lookup_insert_eq|].
  split; [|now repeat split].
  destruct (init_database_schema db_path (<[db_path := d']> fs))
    as (d'' & Ei & _ & _ & _ & _ & _ & _ & _ & Hsame).
  cbv zeta in *. unfold new_app. rewrite Ei.
  assert (Ed : durable (connect db_path (<[db_path := d']> fs)) = d').
  { unfold connect. cbn [durable]. now rewrite lookup_insert_eq. }
  rewrite Ed in Hsame. now rewrite (Hsame Ht Hi).
Qed.
